(** * Pulse AI synthesis engine and differential analysis engine

    A shallow embedding of the deterministic core of the repository:

    - [src/analysis/synthesizer.js]: [calculateImpactScore],
      [generateScoreRationale], [generateStakes], [calculateSignalScore],
      [filterSignalFromNoise], [clusterIntoFocusAreas], [inferUserType],
      [calculateTrend], [calculateTrendDelta], [createSnapshot] and, of
      [synthesizeFeedback], the user segmentation, the type distribution,
      the merge step and the raw scores;
    - the differential analysis engine: [compareSyntheses],
      [calculateOverallTrends], [calculateSentimentTrend],
      [calculateDirection], [calculateHealthScore], [generateChangeSummary],
      [getWhatsNew], [getWhatsImproved] and [attachTrendData].

    Conventions of the embedding.

    - A JavaScript object is a record whose optional properties are
      [option] fields ([None] is an absent, [undefined] or [null] property).
    - Counts (upvotes, comments, frequencies, array lengths) are integers
      of [Z].
    - The engine computes its scores in binary64.  The modules [Binary64],
      [Engine64], [Spec64], [JS64], [Filter64], [Clusterer64],
      [Comparison64] and [Differential64] model the impact score, the
      signal filter, the clusterer and the comparison with the doubles of
      [PrimFloat], operation by operation and in the order of the code;
      the statements on the value of a score, of a mean or of a delta, on
      the tests that read them and on the order by score are made there.
    - The definitions outside these modules carry the scores as exact
      rationals of [Q]; they serve the statements on buckets, keys,
      counts, shapes and control flow, and the bounds that hold with and
      without rounding alike.
    - The signal score only adds literal constants and is a double
      everywhere.
    - A string is a [string] of ASCII characters, for which
      [String.length] is the [length] of JavaScript and [lowerAscii] is
      [toLowerCase].
    - [Date.now()] is the parameter [now] (milliseconds since the epoch),
      read once for a run; [createdAt] is the parsed timestamp.
    - A plain object used as a dictionary and a [Map] are association
      lists in insertion order. *)

From Stdlib Require Import ZArith QArith Qminmax Qround Qabs.
From Stdlib Require Import List String Ascii Bool Floats DecimalString.
From Stdlib Require Import Permutation Sorted Lia Lqa.
Import ListNotations.

Set Warnings "-inexact-float".

(** ** JavaScript idioms *)

Module JS.

(** [x || d] on an optional integer: [undefined] and [0] are falsy. *)
Definition orZ (x : option Z) (d : Z) : Z :=
  match x with
  | Some v => if (v =? 0)%Z then d else v
  | None => d
  end.

(** [x || d] on an optional number. *)
Definition orQ (x : option Q) (d : Q) : Q :=
  match x with
  | Some v => if Qeq_bool v 0 then d else v
  | None => d
  end.

(** [x || d] on an optional string: [undefined] and [''] are falsy. *)
Definition orS (x : option string) (d : string) : string :=
  match x with
  | Some EmptyString => d
  | Some s => s
  | None => d
  end.

(** Truthiness of an optional string. *)
Definition truthyS (x : option string) : bool :=
  match x with
  | Some EmptyString => false
  | Some _ => true
  | None => false
  end.

(** [Math.round]: the nearest integer, ties towards plus infinity. *)
Definition Math_round (x : Q) : Z := Qfloor (x + (1 # 2)).

(** [Math.abs] on an integer. *)
Definition Math_abs (x : Z) : Z := Z.abs x.

(** [`${n}`] for an integer. *)
Definition show (n : Z) : string := NilZero.string_of_int (Z.to_int n).

(** The double quote character. *)
Definition dq : string := String (ascii_of_nat 34) EmptyString.

(** [parts.join(sep)]. *)
Fixpoint join (sep : string) (parts : list string) : string :=
  match parts with
  | [] => EmptyString
  | [p] => p
  | p :: rest => String.append p (String.append sep (join sep rest))
  end.

(** [s.replace(a, b)] for one-character [a]: the first occurrence only. *)
Fixpoint replace_first (a : ascii) (b : string) (s : string) : string :=
  match s with
  | EmptyString => EmptyString
  | String c rest =>
      if Ascii.eqb c a then String.append b rest
      else String c (replace_first a b rest)
  end.

(** [arr.find(p)]. *)
Definition find {A : Type} (p : A -> bool) (arr : list A) : option A :=
  List.find p arr.

(** [arr.sort(cmp)]: the sort is stable, and with a comparator that is a
    difference of numbers every stable sort returns the same array; it is
    written here as a stable insertion sort.  [cmp a b > 0] moves [a]
    behind [b]. *)
Section Sort.
Context {A : Type} (cmp : A -> A -> Q).

Fixpoint insert (x : A) (l : list A) : list A :=
  match l with
  | [] => [x]
  | y :: l' => if Qlt_le_dec 0 (cmp x y) then y :: insert x l' else x :: l
  end.

Definition sort (l : list A) : list A := fold_right insert [] l.
End Sort.

End JS.

(** ** Binary64 arithmetic of the engine *)

Module Binary64.
Local Open Scope float_scope.

(** An integer as a number (exact below 2^53). *)
Definition of_Z (z : Z) : float :=
  match z with
  | Z0 => 0
  | Zpos _ => PrimFloat.of_uint63 (Uint63.of_Z z)
  | Zneg _ => - PrimFloat.of_uint63 (Uint63.of_Z (Z.opp z))
  end.

(** The double nearest to a rational with small numerator and
    denominator, as a decimal literal or a JSON number denotes it. *)
Definition of_Q (q : Q) : float := of_Z (Qnum q) / of_Z (Zpos (Qden q)).

Definition Math_min (a b : float) : float :=
  if PrimFloat.is_nan a then a
  else if PrimFloat.is_nan b then b
  else if a <? b then a
  else if b <? a then b
  else if PrimFloat.get_sign a then a else b.

Definition Math_max (a b : float) : float :=
  if PrimFloat.is_nan a then a
  else if PrimFloat.is_nan b then b
  else if a <? b then b
  else if b <? a then a
  else if PrimFloat.get_sign a then b else a.

Definition two52 : float := 4503599627370496.

(** The integer nearest to [x >= 0] below 2^52, ties to even. *)
Definition rint (x : float) : float := (x + two52) - two52.

(** [Math.round]: ties go towards plus infinity. *)
Definition Math_round (x : float) : float :=
  if PrimFloat.is_nan x then x
  else if two52 <=? PrimFloat.abs x then x
  else if 0 <=? x then
    let n := rint x in
    if 0.5 <=? x - n then n + 1 else n
  else
    let n := rint (- x) in
    if (- x) - n <=? (-0.5) then - (n - 1) else - n.

End Binary64.

(** ** Classified feedback items *)

Record ProblemMetadata := {
  pm_featureArea : option string;
  pm_impactScore : option Q;
  pm_userSegmentGuess : option string
}.

(** The delight record, with the property name the repository uses
    throughout ([ahaMonent]). *)
Record DelightMetadata := {
  dm_ahaMonent : option string;
  dm_shareability : option Q
}.

Record Summary := {
  sm_keyQuote : option string
}.

Record Item := {
  item_sourceId : option string;
  item_id : option string;
  item_title : option string;
  item_body : option string;
  item_content : option string;
  item_upvotes : option Z;
  item_score : option Z;
  item_numComments : option Z;
  item_duplicateCount : option Z;
  item_createdAt : option Z;
  item_type : string;
  item_category : string;
  item_problemMetadata : option ProblemMetadata;
  item_delightMetadata : option DelightMetadata;
  item_summary : option Summary
}.

(** [item.problemMetadata?.impactScore] and the like. *)
Definition problem_impactScore (item : Item) : option Q :=
  match item_problemMetadata item with
  | Some pm => pm_impactScore pm
  | None => None
  end.

Definition problem_featureArea (item : Item) : option string :=
  match item_problemMetadata item with
  | Some pm => pm_featureArea pm
  | None => None
  end.

Definition problem_userSegmentGuess (item : Item) : option string :=
  match item_problemMetadata item with
  | Some pm => pm_userSegmentGuess pm
  | None => None
  end.

Definition delight_shareability (item : Item) : option Q :=
  match item_delightMetadata item with
  | Some dm => dm_shareability dm
  | None => None
  end.

Definition delight_ahaMonent (item : Item) : option string :=
  match item_delightMetadata item with
  | Some dm => dm_ahaMonent dm
  | None => None
  end.

Definition summary_keyQuote (item : Item) : option string :=
  match item_summary item with
  | Some s => sm_keyQuote s
  | None => None
  end.

(** ** Impact data *)

Inductive StakesType := risk | upside | neutral.

Record Stakes := {
  stakes_type : StakesType;
  stakes_message : string
}.

Record Component := {
  comp_value : Q;
  comp_weight : Q
}.

Record Breakdown := {
  bd_reach : Component;
  bd_sentiment : Component;
  bd_velocity : Component
}.

Record ImpactData := {
  id_score : Q;
  id_maxScore : Q;
  id_breakdown : Breakdown;
  id_rationale : string;
  id_stakes : Stakes
}.

(** ** Impact score calculation *)

(** [item.upvotes || item.score || 0] *)
Definition upvotes_of (item : Item) : Z :=
  JS.orZ (item_upvotes item) (JS.orZ (item_score item) 0).

(** [item.numComments || 0] *)
Definition comments_of (item : Item) : Z :=
  JS.orZ (item_numComments item) 0.

(** [Math.round(x * 10) / 10] *)
Definition round1 (x : Q) : Q := inject_Z (JS.Math_round (x * 10)) / 10.

Definition reach_of (item : Item) : Q :=
  Qmin 10 (inject_Z (upvotes_of item + comments_of item * 2) / 20).

Definition sentiment_of (item : Item) : Q :=
  if String.eqb (item_type item) "Constructive" then
    JS.orQ (problem_impactScore item) 7
  else if String.eqb (item_type item) "Praise" then
    JS.orQ (delight_shareability item) 7
  else 5.

(** [item.createdAt ? new Date(item.createdAt) : new Date()], then the age
    in hours, at least one. *)
Definition createdAt_of (item : Item) (now : Z) : Z :=
  match item_createdAt item with Some t => t | None => now end.

Definition ageInHours (item : Item) (now : Z) : Q :=
  let createdAt := createdAt_of item now in
  Qmax 1 (inject_Z (now - createdAt) / inject_Z (1000 * 60 * 60)).

Definition velocity_of (item : Item) (now : Z) : Q :=
  let engagementPerHour :=
    inject_Z (upvotes_of item + comments_of item) / ageInHours item now in
  Qmin 10 (engagementPerHour * 2).

Definition generateScoreRationale (reach sentiment velocity : Q) (item : Item)
  : string :=
  let parts := [] in
  let parts :=
    if Qle_bool 7 reach then
      parts ++ [String.append "high visibility ("
                  (String.append (JS.show (JS.orZ (item_upvotes item) 0))
                     " upvotes)")]
    else if Qle_bool 4 reach then parts ++ ["moderate reach"%string]
    else parts in
  let parts :=
    if Qle_bool 8 sentiment then parts ++ ["strong sentiment intensity"%string]
    else parts in
  let parts :=
    if Qle_bool 6 velocity then parts ++ ["rapid engagement growth"%string]
    else parts in
  let duplicates := JS.orZ (item_duplicateCount item) 0 in
  let parts :=
    if (5 <? duplicates)%Z then
      parts ++ [String.append (JS.show duplicates) "+ similar reports"]
    else parts in
  if (0 <? List.length parts)%nat then
    String.append "Score reflects " (String.append (JS.join ", " parts) ".")
  else "Score based on standard engagement metrics."%string.

Definition generateStakes (item : Item) (score : Q) : Stakes :=
  if String.eqb (item_type item) "Constructive" then
    if Qle_bool 7 score then
      {| stakes_type := risk;
         stakes_message :=
           String.append "Risk if ignored: Potential churn of "
             (String.append
                (JS.orS (problem_userSegmentGuess item) "affected users")
                ", negative word-of-mouth amplification.") |}
    else
      {| stakes_type := risk;
         stakes_message :=
           "Risk if ignored: Continued user frustration, possible support ticket increase." |}
  else if String.eqb (item_type item) "Praise" then
    {| stakes_type := upside;
       stakes_message :=
         "Upside if amplified: Social proof for marketing, potential case study opportunity." |}
  else
    {| stakes_type := neutral;
       stakes_message := "Monitor for changes in sentiment or frequency." |}.

Definition calculateImpactScore (item : Item) (totalItems : nat) (now : Z)
  : ImpactData :=
  let reach := reach_of item in
  let sentiment := sentiment_of item in
  let velocity := velocity_of item now in
  let score := reach * (4 # 10) + sentiment * (3 # 10) + velocity * (3 # 10) in
  let normalizedScore := round1 score in
  let rationale := generateScoreRationale reach sentiment velocity item in
  {| id_score := normalizedScore;
     id_maxScore := 10;
     id_breakdown :=
       {| bd_reach := {| comp_value := round1 reach; comp_weight := 4 # 10 |};
          bd_sentiment :=
            {| comp_value := round1 sentiment; comp_weight := 3 # 10 |};
          bd_velocity :=
            {| comp_value := round1 velocity; comp_weight := 3 # 10 |} |};
     id_rationale := rationale;
     id_stakes := generateStakes item normalizedScore |}.

(** The score of the same function in binary64, for concrete items. *)
Module Engine64.
Import Binary64.
Local Open Scope float_scope.

Definition calculateImpactScore (item : Item) (now : Z) : float :=
  let upvotes := of_Z (upvotes_of item) in
  let comments := of_Z (comments_of item) in
  let reach := Math_min 10 ((upvotes + comments * 2) / 20) in
  let sentiment := of_Q (sentiment_of item) in
  let createdAt := createdAt_of item now in
  let ageInHours := Math_max 1 (of_Z (now - createdAt) / (1000 * 60 * 60)) in
  let engagementPerHour := (upvotes + comments) / ageInHours in
  let velocity := Math_min 10 (engagementPerHour * 2) in
  let score := (reach * 0.4) + (sentiment * 0.3) + (velocity * 0.3) in
  Math_round (score * 10) / 10.

End Engine64.

(** ** Signal filter *)

(** [item.body?.length || item.content?.length || 0] *)
Definition bodyLength_of (item : Item) : nat :=
  match item_body item with
  | Some (String _ _ as s) => String.length s
  | _ =>
      match item_content item with
      | Some s => String.length s
      | None => 0%nat
      end
  end.

Definition calculateSignalScore (item : Item) : float :=
  let score := 0.5%float in
  let score :=
    if String.eqb (item_type item) "Constructive" then (score + 0.2)%float
    else score in
  let score :=
    if String.eqb (item_type item) "Praise" then (score + 0.1)%float
    else score in
  let bodyLength := bodyLength_of item in
  let score := if (200 <? bodyLength)%nat then (score + 0.1)%float else score in
  let score := if (500 <? bodyLength)%nat then (score + 0.1)%float else score in
  let upvotes := upvotes_of item in
  let score := if (10 <? upvotes)%Z then (score + 0.05)%float else score in
  let score := if (50 <? upvotes)%Z then (score + 0.1)%float else score in
  let score := if (100 <? upvotes)%Z then (score + 0.1)%float else score in
  let score :=
    match item_problemMetadata item with
    | Some pm =>
        let score := (score + 0.1)%float in
        match pm_impactScore pm with
        | Some v => if Qle_bool 7 v then (score + 0.1)%float else score
        | None => score
        end
    | None => score
    end in
  let score :=
    if String.eqb (item_category item) "Rant/Opinion" then (score - 0.2)%float
    else score in
  let score := if (bodyLength <? 50)%nat then (score - 0.2)%float else score in
  Binary64.Math_max 0 (Binary64.Math_min 1 score).

(** An element of the two output arrays: the item spread into a new object
    with [signalScore], and with [impactData] where the code adds it. *)
Record ScoredItem := {
  sc_item : Item;
  sc_signalScore : float;
  sc_impactData : option ImpactData
}.

Record SignalData := {
  highSignal : list ScoredItem;
  noise : list ScoredItem
}.

(** [signalScore >= 0.5] *)
Definition isHighSignal (signalScore : float) : bool :=
  PrimFloat.leb 0.5%float signalScore.

(** [x.impactData.score] of an element that carries impact data (every
    element of [highSignal] does). *)
Definition impactScore_of (x : ScoredItem) : Q :=
  match sc_impactData x with
  | Some d => id_score d
  | None => 0
  end.

(** One iteration of the loop of [filterSignalFromNoise]. *)
Definition filterStep (totalItems : nat) (now : Z)
  (acc : list ScoredItem * list ScoredItem) (item : Item)
  : list ScoredItem * list ScoredItem :=
  let signalScore := calculateSignalScore item in
  let impactData := calculateImpactScore item totalItems now in
  if isHighSignal signalScore then
    (fst acc ++ [{| sc_item := item;
                    sc_signalScore := signalScore;
                    sc_impactData := Some impactData |}],
     snd acc)
  else
    (fst acc,
     snd acc ++ [{| sc_item := item;
                    sc_signalScore := signalScore;
                    sc_impactData := None |}]).

Definition filterSignalFromNoise (analyzedItems : list Item) (now : Z)
  : SignalData :=
  let acc :=
    fold_left (filterStep (List.length analyzedItems) now) analyzedItems ([], []) in
  {| highSignal :=
       JS.sort (fun a b => impactScore_of b - impactScore_of a) (fst acc);
     noise := snd acc |}.

(** The test of the loop, on the item. *)
Definition passes (item : Item) : bool :=
  isHighSignal (calculateSignalScore item).

(** The object pushed on [highSignal] for an item. *)
Definition asHighSignal (totalItems : nat) (now : Z) (item : Item) : ScoredItem :=
  {| sc_item := item;
     sc_signalScore := calculateSignalScore item;
     sc_impactData := Some (calculateImpactScore item totalItems now) |}.

(** The object pushed on [noise] for an item. *)
Definition asNoise (item : Item) : ScoredItem :=
  {| sc_item := item;
     sc_signalScore := calculateSignalScore item;
     sc_impactData := None |}.

(** [item.sourceId || item.id] *)
Definition sourceId_of (item : Item) : option string :=
  if JS.truthyS (item_sourceId item) then item_sourceId item else item_id item.

(** ** Dictionaries

    The plain object [areas] of the clusterer only gets keys of the form
    [category:featureArea], which are never array indices, so it
    enumerates in insertion order as a [Map] does; both are modelled by
    the same association lists. *)

(** A [Map] with string keys, in insertion order. *)
Definition JsMap (V : Type) : Type := list (string * V).

Fixpoint map_get {V : Type} (key : string) (m : JsMap V) : option V :=
  match m with
  | [] => None
  | (k, v) :: m' => if String.eqb key k then Some v else map_get key m'
  end.

Definition map_has {V : Type} (key : string) (m : JsMap V) : bool :=
  match map_get key m with Some _ => true | None => false end.

(** [m.set(key, v)]: a key already present keeps its position. *)
Fixpoint map_set {V : Type} (key : string) (v : V) (m : JsMap V) : JsMap V :=
  match m with
  | [] => [(key, v)]
  | (k, w) :: m' =>
      if String.eqb key k then (k, v) :: m' else (k, w) :: map_set key v m'
  end.

(** [new Map(entries)] *)
Definition map_of_entries {V : Type} (entries : list (string * V)) : JsMap V :=
  fold_left (fun m kv => map_set (fst kv) (snd kv) m) entries [].

(** ** Focus-area clustering *)

Inductive FocusCategory :=
  usability_friction | feature_request | bug | praise.

Definition category_name (c : FocusCategory) : string :=
  match c with
  | usability_friction => "usability_friction"
  | feature_request => "feature_request"
  | bug => "bug"
  | praise => "praise"
  end.

(** The category chosen in the loop body of [clusterIntoFocusAreas]. *)
Definition focusCategory (item : Item) : FocusCategory :=
  let category := usability_friction in
  if String.eqb (item_category item) "Feature Request" then feature_request
  else if String.eqb (item_category item) "Bug" then bug
  else if String.eqb (item_type item) "Praise" then praise
  else category.

(** [problemMetadata?.featureArea || delightMetadata?.ahaMonent || 'General'] *)
Definition featureArea_of (item : Item) : string :=
  JS.orS (problem_featureArea item) (JS.orS (delight_ahaMonent item) "General").

(** [`${category}:${featureArea}`] *)
Definition clusterKey (category : FocusCategory) (featureArea : string) : string :=
  String.append (category_name category) (String.append ":" featureArea).

Definition keyOfItem (x : ScoredItem) : string :=
  clusterKey (focusCategory (sc_item x)) (featureArea_of (sc_item x)).

(** The accumulator object stored under a key. *)
Record Area := {
  area_id : string;
  area_title : string;
  area_category : FocusCategory;
  area_items : list ScoredItem;
  area_totalScore : Q;
  area_quotes : list string;
  area_segments : list string
}.

(** In-place mutation of the object stored under [key]. *)
Fixpoint map_update {V : Type} (key : string) (f : V -> V) (m : JsMap V)
  : JsMap V :=
  match m with
  | [] => []
  | (k, v) :: m' =>
      if String.eqb key k then (k, f v) :: m'
      else (k, v) :: map_update key f m'
  end.

(** [Object.values(areas)] *)
Definition map_values {V : Type} (m : JsMap V) : list V := map snd m.

(** [set.add(x)] on a [Set] kept in insertion order. *)
Definition set_add (s : list string) (x : string) : list string :=
  if existsb (String.eqb x) s then s else s ++ [x].

(** [item.impactData?.score || 0] *)
Definition scoreOrZero (x : ScoredItem) : Q :=
  JS.orQ (option_map id_score (sc_impactData x)) 0.

(** The mutations of [areas[key]] for one item. *)
Definition addToArea (x : ScoredItem) (a : Area) : Area :=
  {| area_id := area_id a;
     area_title := area_title a;
     area_category := area_category a;
     area_items := area_items a ++ [x];
     area_totalScore := area_totalScore a + scoreOrZero x;
     area_quotes :=
       match summary_keyQuote (sc_item x) with
       | Some (String _ _ as keyQuote) => area_quotes a ++ [keyQuote]
       | _ => area_quotes a
       end;
     area_segments :=
       match problem_userSegmentGuess (sc_item x) with
       | Some (String _ _ as segment) => set_add (area_segments a) segment
       | _ => area_segments a
       end |}.

(** One iteration of the loop of [clusterIntoFocusAreas]. *)
Definition clusterStep (areas : JsMap Area) (x : ScoredItem) : JsMap Area :=
  let featureArea := featureArea_of (sc_item x) in
  let category := focusCategory (sc_item x) in
  let key := clusterKey category featureArea in
  let areas :=
    match map_get key areas with
    | Some _ => areas
    | None =>
        areas ++ [(key, {| area_id := key;
                           area_title := featureArea;
                           area_category := category;
                           area_items := [];
                           area_totalScore := 0;
                           area_quotes := [];
                           area_segments := [] |})]
    end in
  map_update key (addToArea x) areas.

Record FocusArea := {
  fa_id : string;
  fa_title : string;
  fa_category : FocusCategory;
  fa_items : list ScoredItem;
  fa_totalScore : Q;
  fa_quotes : list string;
  fa_frequency : nat;
  fa_avgImpact : Q;
  fa_topQuote : string;
  fa_affectedSegments : list string;
  fa_stakes : Stakes;
  fa_scoreRationale : string
}.

(** The aggregates computed for one accumulator. *)
Definition finalizeArea (area : Area) : FocusArea :=
  {| fa_id := area_id area;
     fa_title := area_title area;
     fa_category := area_category area;
     fa_items := area_items area;
     fa_totalScore := area_totalScore area;
     fa_quotes := area_quotes area;
     fa_frequency := List.length (area_items area);
     fa_avgImpact :=
       if (0 <? List.length (area_items area))%nat
       then area_totalScore area / inject_Z (Z.of_nat (List.length (area_items area)))
       else 0;
     fa_topQuote := JS.orS (hd_error (area_quotes area)) "";
     fa_affectedSegments := area_segments area;
     fa_stakes :=
       match hd_error (area_items area) with
       | Some first =>
           match sc_impactData first with
           | Some d => id_stakes d
           | None => {| stakes_type := neutral; stakes_message := "" |}
           end
       | None => {| stakes_type := neutral; stakes_message := "" |}
       end;
     fa_scoreRationale :=
       match hd_error (area_items area) with
       | Some first => JS.orS (option_map id_rationale (sc_impactData first)) ""
       | None => EmptyString
       end |}.

Definition clusterIntoFocusAreas (items : list ScoredItem) : list FocusArea :=
  let areas := fold_left clusterStep items [] in
  JS.sort (fun a b => fa_avgImpact b - fa_avgImpact a)
    (map finalizeArea (map_values areas)).

(** ** Differential analysis engine *)

(** A focus area of a synthesis or of a snapshot, with the properties the
    engine reads. *)
Record AreaRec := {
  ar_title : string;
  ar_category : string;
  ar_frequency : Z;
  ar_impactScore : option Q;
  ar_severityLabel : option string
}.

Record Sentiment := {
  st_positive : Q;
  st_neutral : Q;
  st_negative : Q;
  st_mood : string
}.

Record Metadata := {
  md_totalAnalyzed : option Z
}.

(** A synthesis result, and a stored snapshot of one. *)
Record Synthesis := {
  syn_focusAreas : option (list AreaRec);
  syn_sentiment : option Sentiment;
  syn_metadata : option Metadata;
  syn_createdAt : option string
}.

Inductive ChangeType := New | Improved | Worsened | Resolved | Stable.

(** An entry of a bucket: the area spread into a new object with the
    annotations of its bucket. *)
Record Change := {
  ch_area : AreaRec;
  ch_changeType : ChangeType;
  ch_previousFrequency : option Z;
  ch_frequencyDelta : option Z;
  ch_impactDelta : option Q;
  ch_insight : option string
}.

Record Changes := {
  newIssues : list Change;
  improvedIssues : list Change;
  worsenedIssues : list Change;
  resolvedIssues : list Change;
  stableIssues : list Change
}.

Inductive SentimentDirection := improving | declining | unchanged.

Record SentimentTrend := {
  strend_current : Sentiment;
  strend_previous : Sentiment;
  strend_delta : Z;
  strend_direction : SentimentDirection;
  strend_moodChange : bool
}.

Inductive VolumeDirection := volume_up | volume_down | volume_stable.

Record VolumeTrend := {
  vol_current : Z;
  vol_previous : Z;
  vol_delta : Z;
  vol_direction : VolumeDirection
}.

Record Trends := {
  tr_sentiment : option SentimentTrend;
  tr_volume : VolumeTrend;
  tr_resolutionRate : Z;
  tr_newIssueRate : Z;
  tr_overallHealth : Z
}.

Record Comparison := {
  isFirstRun : bool;
  comparedAt : option string;
  previousSnapshotDate : option string;
  changes : option Changes;
  trends : option Trends;
  summary : option string
}.

(** The result of a call that may throw a [TypeError]. *)
Inductive Outcome (A : Type) :=
| Returned (a : A)
| Threw.
Arguments Returned {A} a.
Arguments Threw {A}.

(** [`${fa.category}:${fa.title}`] *)
Definition areaKey (fa : AreaRec) : string :=
  String.append (ar_category fa) (String.append ":" (ar_title fa)).

(** [new Map(focusAreas.map(fa => [key, fa]))] *)
Definition areaMap (focusAreas : list AreaRec) : JsMap AreaRec :=
  map_of_entries (map (fun fa => (areaKey fa, fa)) focusAreas).

Definition Qltb (x y : Q) : bool := negb (Qle_bool y x).

Definition quoted (s : string) : string :=
  String.append JS.dq (String.append s JS.dq).

Definition emptyChanges : Changes :=
  {| newIssues := []; improvedIssues := []; worsenedIssues := [];
     resolvedIssues := []; stableIssues := [] |}.

(** The body of the first loop of [compareSyntheses]. *)
Definition compareStep (previousAreas : JsMap AreaRec) (changes : Changes)
  (entry : string * AreaRec) : Changes :=
  let key := fst entry in
  let currentArea := snd entry in
  match map_get key previousAreas with
  | None =>
      {| newIssues :=
           newIssues changes ++
           [{| ch_area := currentArea;
               ch_changeType := New;
               ch_previousFrequency := None;
               ch_frequencyDelta := None;
               ch_impactDelta := None;
               ch_insight :=
                 Some (String.append "New "
                   (String.append
                      (JS.replace_first "_" " " (ar_category currentArea))
                      (String.append " detected: "
                         (quoted (ar_title currentArea))))) |}];
         improvedIssues := improvedIssues changes;
         worsenedIssues := worsenedIssues changes;
         resolvedIssues := resolvedIssues changes;
         stableIssues := stableIssues changes |}
  | Some previousArea =>
      let freqDelta := (ar_frequency currentArea - ar_frequency previousArea)%Z in
      let impactDelta :=
        JS.orQ (ar_impactScore currentArea) 0
        - JS.orQ (ar_impactScore previousArea) 0 in
      if (freqDelta <? -2)%Z || Qltb impactDelta (-1) then
        {| newIssues := newIssues changes;
           improvedIssues :=
             improvedIssues changes ++
             [{| ch_area := currentArea;
                 ch_changeType := Improved;
                 ch_previousFrequency := Some (ar_frequency previousArea);
                 ch_frequencyDelta := Some freqDelta;
                 ch_impactDelta := Some impactDelta;
                 ch_insight :=
                   Some (String.append (quoted (ar_title currentArea))
                     (String.append " has improved: "
                        (String.append (JS.show (JS.Math_abs freqDelta))
                           " fewer mentions"))) |}];
           worsenedIssues := worsenedIssues changes;
           resolvedIssues := resolvedIssues changes;
           stableIssues := stableIssues changes |}
      else if (2 <? freqDelta)%Z || Qltb 1 impactDelta then
        {| newIssues := newIssues changes;
           improvedIssues := improvedIssues changes;
           worsenedIssues :=
             worsenedIssues changes ++
             [{| ch_area := currentArea;
                 ch_changeType := Worsened;
                 ch_previousFrequency := Some (ar_frequency previousArea);
                 ch_frequencyDelta := Some freqDelta;
                 ch_impactDelta := Some impactDelta;
                 ch_insight :=
                   Some (String.append (quoted (ar_title currentArea))
                     (String.append " is growing: +"
                        (String.append (JS.show freqDelta)
                           " more mentions"))) |}];
           resolvedIssues := resolvedIssues changes;
           stableIssues := stableIssues changes |}
      else
        {| newIssues := newIssues changes;
           improvedIssues := improvedIssues changes;
           worsenedIssues := worsenedIssues changes;
           resolvedIssues := resolvedIssues changes;
           stableIssues :=
             stableIssues changes ++
             [{| ch_area := currentArea;
                 ch_changeType := Stable;
                 ch_previousFrequency := Some (ar_frequency previousArea);
                 ch_frequencyDelta := Some freqDelta;
                 ch_impactDelta := Some impactDelta;
                 ch_insight := None |}] |}
  end.

(** The body of the second loop of [compareSyntheses]. *)
Definition resolveStep (currentAreas : JsMap AreaRec) (changes : Changes)
  (entry : string * AreaRec) : Changes :=
  let key := fst entry in
  let previousArea := snd entry in
  if negb (map_has key currentAreas) then
    {| newIssues := newIssues changes;
       improvedIssues := improvedIssues changes;
       worsenedIssues := worsenedIssues changes;
       resolvedIssues :=
         resolvedIssues changes ++
         [{| ch_area := previousArea;
             ch_changeType := Resolved;
             ch_previousFrequency := None;
             ch_frequencyDelta := None;
             ch_impactDelta := None;
             ch_insight :=
               Some (String.append (quoted (ar_title previousArea))
                       " no longer appearing in feedback") |}];
       stableIssues := stableIssues changes |}
  else changes.

(** The two loops. *)
Definition computeChanges (currentFocusAreas previousFocusAreas : list AreaRec)
  : Changes :=
  let currentAreas := areaMap currentFocusAreas in
  let previousAreas := areaMap previousFocusAreas in
  let changes := fold_left (compareStep previousAreas) currentAreas emptyChanges in
  fold_left (resolveStep currentAreas) previousAreas changes.

Definition calculateSentimentTrend (current previous : option Sentiment)
  : option SentimentTrend :=
  match current, previous with
  | Some current, Some previous =>
      let currentPositiveRatio := st_positive current / 100 in
      let previousPositiveRatio := st_positive previous / 100 in
      let delta := currentPositiveRatio - previousPositiveRatio in
      Some {| strend_current := current;
              strend_previous := previous;
              strend_delta := JS.Math_round (delta * 100);
              strend_direction :=
                if Qltb (2 # 100) delta then improving
                else if Qltb delta (- (2 # 100)) then declining
                else unchanged;
              strend_moodChange :=
                negb (String.eqb (st_mood current) (st_mood previous)) |}
  | _, _ => None
  end.

Definition calculateDirection (current previous : Z) : VolumeDirection :=
  let delta := (current - previous)%Z in
  let percentChange :=
    if (0 <? previous)%Z then (inject_Z delta / inject_Z previous) * 100 else 0 in
  if Qltb 10 percentChange then volume_up
  else if Qltb percentChange (-10) then volume_down
  else volume_stable.

(** [i.severityLabel === 'Critical'] *)
Definition isCritical (i : Change) : bool :=
  match ar_severityLabel (ch_area i) with
  | Some label => String.eqb label "Critical"
  | None => false
  end.

Definition lengthZ {A : Type} (l : list A) : Z := Z.of_nat (List.length l).

Definition calculateHealthScore (sentimentTrend : option SentimentTrend)
  (changes : Changes) : Z :=
  let score := 50%Z in
  let direction := option_map strend_direction sentimentTrend in
  let score :=
    match direction with Some improving => (score + 15)%Z | _ => score end in
  let score :=
    match direction with Some declining => (score - 15)%Z | _ => score end in
  let score := (score + lengthZ (resolvedIssues changes) * 5)%Z in
  let criticalNew := lengthZ (filter isCritical (newIssues changes)) in
  let score := (score - criticalNew * 10)%Z in
  let score := (score - lengthZ (worsenedIssues changes) * 3)%Z in
  let score := (score + lengthZ (improvedIssues changes) * 3)%Z in
  Z.max 0 (Z.min 100 (JS.Math_round (inject_Z score))).

(** [current.metadata?.totalAnalyzed || 0] *)
Definition totalAnalyzed_of (s : Synthesis) : Z :=
  JS.orZ (match syn_metadata s with
          | Some m => md_totalAnalyzed m
          | None => None
          end) 0.

(** [s.focusAreas?.length || 1] *)
Definition areaCountOrOne (s : Synthesis) : Z :=
  JS.orZ (option_map lengthZ (syn_focusAreas s)) 1.

Definition calculateOverallTrends (current previous : Synthesis)
  (changes : Changes) : Trends :=
  let sentimentTrend :=
    calculateSentimentTrend (syn_sentiment current) (syn_sentiment previous) in
  let volumeTrend :=
    {| vol_current := totalAnalyzed_of current;
       vol_previous := totalAnalyzed_of previous;
       vol_delta := (totalAnalyzed_of current - totalAnalyzed_of previous)%Z;
       vol_direction :=
         calculateDirection (totalAnalyzed_of current) (totalAnalyzed_of previous) |} in
  let resolutionRate :=
    inject_Z (lengthZ (resolvedIssues changes))
    / inject_Z (areaCountOrOne previous) * 100 in
  let newIssueRate :=
    inject_Z (lengthZ (newIssues changes))
    / inject_Z (areaCountOrOne current) * 100 in
  {| tr_sentiment := sentimentTrend;
     tr_volume := volumeTrend;
     tr_resolutionRate := JS.Math_round resolutionRate;
     tr_newIssueRate := JS.Math_round newIssueRate;
     tr_overallHealth := calculateHealthScore sentimentTrend changes |}.

Definition generateChangeSummary (changes : Changes) (trends : Trends) : string :=
  let parts := [] in
  let parts :=
    if (0 <? lengthZ (newIssues changes))%Z then
      let critical := filter isCritical (newIssues changes) in
      if (0 <? lengthZ critical)%Z then
        parts ++ [String.append (JS.show (lengthZ critical))
                    " new critical issue(s) detected"]
      else
        parts ++ [String.append (JS.show (lengthZ (newIssues changes)))
                    " new issue(s) emerged"]
    else parts in
  let parts :=
    if (0 <? lengthZ (improvedIssues changes))%Z then
      parts ++ [String.append (JS.show (lengthZ (improvedIssues changes)))
                  " issue(s) showing improvement"]
    else parts in
  let parts :=
    if (0 <? lengthZ (worsenedIssues changes))%Z then
      parts ++ [String.append (JS.show (lengthZ (worsenedIssues changes)))
                  " issue(s) getting worse"]
    else parts in
  let parts :=
    if (0 <? lengthZ (resolvedIssues changes))%Z then
      parts ++ [String.append (JS.show (lengthZ (resolvedIssues changes)))
                  " issue(s) resolved"]
    else parts in
  let parts :=
    match option_map strend_direction (tr_sentiment trends) with
    | Some improving => parts ++ ["overall sentiment improving"%string]
    | Some declining => parts ++ ["overall sentiment declining"%string]
    | _ => parts
    end in
  if (0 <? lengthZ parts)%Z then String.append (JS.join ", " parts) "."
  else "No significant changes detected."%string.

(** [compareSyntheses(current, previous)]; [nowIso] is
    [new Date().toISOString()].  Reading [focusAreas.map] of a synthesis
    without focus areas throws. *)
Definition compareSyntheses (current : Synthesis) (previous : option Synthesis)
  (nowIso : string) : Outcome Comparison :=
  match previous with
  | None =>
      Returned {| isFirstRun := true;
                  comparedAt := None;
                  previousSnapshotDate := None;
                  changes := None;
                  trends := None;
                  summary := None |}
  | Some previous =>
      match syn_focusAreas current, syn_focusAreas previous with
      | Some currentFocusAreas, Some previousFocusAreas =>
          let changes := computeChanges currentFocusAreas previousFocusAreas in
          let trends := calculateOverallTrends current previous changes in
          Returned {| isFirstRun := false;
                      comparedAt := Some nowIso;
                      previousSnapshotDate := syn_createdAt previous;
                      changes := Some changes;
                      trends := Some trends;
                      summary := Some (generateChangeSummary changes trends) |}
      | _, _ => Threw
      end
  end.

(** ** Trend tags *)

Inductive Trend := trend_up | trend_down | trend_stable | trend_new.

Record TrendedArea := {
  ta_area : AreaRec;
  ta_trend : Trend;
  ta_trendDelta : Z
}.

(** [issues.find(i => `${i.category}:${i.title}` === key)] *)
Definition findIssue (key : string) (issues : list Change) : option Change :=
  JS.find (fun i => String.eqb (areaKey (ch_area i)) key) issues.

(** [i.frequencyDelta] of a bucket entry that has one. *)
Definition frequencyDelta_of (i : Change) : Z :=
  match ch_frequencyDelta i with Some d => d | None => 0%Z end.

(** The tag [attachTrendData] gives one focus area. *)
Definition attachOne (changes : Changes) (fa : AreaRec) : TrendedArea :=
  let key := areaKey fa in
  let improved := findIssue key (improvedIssues changes) in
  let worsened := findIssue key (worsenedIssues changes) in
  let newIssue := findIssue key (newIssues changes) in
  let stable := findIssue key (stableIssues changes) in
  match newIssue, improved, worsened, stable with
  | Some _, _, _, _ =>
      {| ta_area := fa; ta_trend := trend_new; ta_trendDelta := ar_frequency fa |}
  | None, Some improved, _, _ =>
      {| ta_area := fa; ta_trend := trend_down;
         ta_trendDelta := frequencyDelta_of improved |}
  | None, None, Some worsened, _ =>
      {| ta_area := fa; ta_trend := trend_up;
         ta_trendDelta := frequencyDelta_of worsened |}
  | None, None, None, Some stable =>
      {| ta_area := fa; ta_trend := trend_stable;
         ta_trendDelta := frequencyDelta_of stable |}
  | None, None, None, None =>
      {| ta_area := fa; ta_trend := trend_stable; ta_trendDelta := 0 |}
  end.

Definition attachTrendData (focusAreas : list AreaRec) (comparison : Comparison)
  : Outcome (list TrendedArea) :=
  if isFirstRun comparison then
    Returned (map (fun fa => {| ta_area := fa; ta_trend := trend_new;
                                ta_trendDelta := 0 |}) focusAreas)
  else
    match changes comparison with
    | Some changes => Returned (map (attachOne changes) focusAreas)
    | None => match focusAreas with [] => Returned [] | _ => Threw end
    end.

(** [fa => fa.title === currentArea.title && fa.category === currentArea.category] *)
Definition sameArea (currentArea fa : AreaRec) : bool :=
  String.eqb (ar_title fa) (ar_title currentArea)
  && String.eqb (ar_category fa) (ar_category currentArea).

Definition calculateTrend (currentArea : AreaRec) (previousSnapshot : Synthesis)
  : Trend :=
  match syn_focusAreas previousSnapshot with
  | None => trend_new
  | Some focusAreas =>
      match JS.find (sameArea currentArea) focusAreas with
      | None => trend_new
      | Some previous =>
          let delta := (ar_frequency currentArea - ar_frequency previous)%Z in
          if (2 <? delta)%Z then trend_up
          else if (delta <? -2)%Z then trend_down
          else trend_stable
      end
  end.

Definition calculateTrendDelta (currentArea : AreaRec)
  (previousSnapshot : Synthesis) : Z :=
  match syn_focusAreas previousSnapshot with
  | None => 0
  | Some focusAreas =>
      match JS.find (sameArea currentArea) focusAreas with
      | None => ar_frequency currentArea
      | Some previous => (ar_frequency currentArea - ar_frequency previous)%Z
      end
  end.

(** ** Merge step of the orchestrator *)

(** A focus area as the narrative collaborator returns it. *)
Record LlmArea := {
  llm_id : string;
  llm_title : string;
  llm_category : string;
  llm_frequency : Z;
  llm_severityLabel : string;
  llm_topQuote : string;
  llm_rootCause : string;
  llm_affectedSegments : list string
}.

(** [{...fa, ...llmArea, impactScore, trend, trendDelta}] *)
Record EnhancedArea := {
  ea_focusArea : FocusArea;
  ea_llmArea : option LlmArea;
  ea_impactScore : Q;
  ea_trend : Trend;
  ea_trendDelta : Z
}.

(** The properties of a cluster record that the trend functions read. *)
Definition areaView (fa : FocusArea) : AreaRec :=
  {| ar_title := fa_title fa;
     ar_category := category_name (fa_category fa);
     ar_frequency := Z.of_nat (fa_frequency fa);
     ar_impactScore := None;
     ar_severityLabel := None |}.

(** The same properties of a merged record: those of [llmArea] win over
    those of [fa], and [impactScore] is set last. *)
Definition enhancedView (e : EnhancedArea) : AreaRec :=
  match ea_llmArea e with
  | Some llmArea =>
      {| ar_title := llm_title llmArea;
         ar_category := llm_category llmArea;
         ar_frequency := llm_frequency llmArea;
         ar_impactScore := Some (ea_impactScore e);
         ar_severityLabel := Some (llm_severityLabel llmArea) |}
  | None =>
      {| ar_title := fa_title (ea_focusArea e);
         ar_category := category_name (fa_category (ea_focusArea e));
         ar_frequency := Z.of_nat (fa_frequency (ea_focusArea e));
         ar_impactScore := Some (ea_impactScore e);
         ar_severityLabel := None |}
  end.

(** The callback of [focusAreas.slice(0, 10).map((fa, idx) => ...)]. *)
Definition enhanceOne (llmAreas : list LlmArea)
  (previousSnapshot : option Synthesis) (idx : nat) (fa : FocusArea)
  : EnhancedArea :=
  let llmArea := nth_error llmAreas idx in
  {| ea_focusArea := fa;
     ea_llmArea := llmArea;
     ea_impactScore := fa_avgImpact fa;
     ea_trend :=
       match previousSnapshot with
       | Some previousSnapshot => calculateTrend (areaView fa) previousSnapshot
       | None => trend_new
       end;
     ea_trendDelta :=
       match previousSnapshot with
       | Some previousSnapshot => calculateTrendDelta (areaView fa) previousSnapshot
       | None => 0%Z
       end |}.

Fixpoint mapi_from {A B : Type} (f : nat -> A -> B) (idx : nat) (l : list A)
  : list B :=
  match l with
  | [] => []
  | a :: l' => f idx a :: mapi_from f (S idx) l'
  end.

Definition enhanceFocusAreas (focusAreas : list FocusArea)
  (llmAreas : list LlmArea) (previousSnapshot : option Synthesis)
  : list EnhancedArea :=
  mapi_from (enhanceOne llmAreas previousSnapshot) 0 (firstn 10 focusAreas).



(** ** The statements of the specification, in its words *)

Module Spec.

(** The order of the checks as the specification words it: Praise first. *)
Definition praiseFirstCategory (item : Item) : FocusCategory :=
  if String.eqb (item_type item) "Praise" then praise
  else if String.eqb (item_category item) "Feature Request" then feature_request
  else if String.eqb (item_category item) "Bug" then bug
  else usability_friction.

(** The classification of section 4.4 for an area present in both runs. *)
Definition classify (freqDelta : Z) (impactDelta : Q) : ChangeType :=
  if (freqDelta <? -2)%Z || Qltb impactDelta (-1) then Improved
  else if (2 <? freqDelta)%Z || Qltb 1 impactDelta then Worsened
  else Stable.

(** The mean of a list of scores. *)
Definition mean (scores : list Q) : Q :=
  fold_right Qplus 0 scores / inject_Z (Z.of_nat (List.length scores)).

End Spec.

(** The keys of the entries of a bucket. *)
Definition bucketKeys (bucket : list Change) : list string :=
  map (fun i => areaKey (ch_area i)) bucket.

(** How many entries of the five buckets carry the key. *)
Definition occurrences (key : string) (ch : Changes) : nat :=
  (count_occ string_dec (bucketKeys (newIssues ch)) key
   + count_occ string_dec (bucketKeys (improvedIssues ch)) key
   + count_occ string_dec (bucketKeys (worsenedIssues ch)) key
   + count_occ string_dec (bucketKeys (resolvedIssues ch)) key
   + count_occ string_dec (bucketKeys (stableIssues ch)) key)%nat.

(** The bucket of a change type. *)
Definition bucket (t : ChangeType) (ch : Changes) : list Change :=
  match t with
  | New => newIssues ch
  | Improved => improvedIssues ch
  | Worsened => worsenedIssues ch
  | Resolved => resolvedIssues ch
  | Stable => stableIssues ch
  end.

Definition changeType_eqb (a b : ChangeType) : bool :=
  match a, b with
  | New, New | Improved, Improved | Worsened, Worsened
  | Resolved, Resolved | Stable, Stable => true
  | _, _ => false
  end.

(** [(current.impactScore || 0) - (previous.impactScore || 0)] *)
Definition impactDelta_of (currentArea previousArea : AreaRec) : Q :=
  JS.orQ (ar_impactScore currentArea) 0 - JS.orQ (ar_impactScore previousArea) 0.

(** [current.frequency - previous.frequency] *)
Definition freqDelta_of (currentArea previousArea : AreaRec) : Z :=
  (ar_frequency currentArea - ar_frequency previousArea)%Z.

(** The bucket the first loop chooses for an entry of the current map. *)
Definition bucketOfEntry (previousAreas : JsMap AreaRec)
  (entry : string * AreaRec) : ChangeType :=
  match map_get (fst entry) previousAreas with
  | None => New
  | Some previousArea =>
      Spec.classify (freqDelta_of (snd entry) previousArea)
        (impactDelta_of (snd entry) previousArea)
  end.

(** A map whose keys are distinct and are the keys of its areas. *)
Definition wfMap (m : JsMap AreaRec) : Prop :=
  NoDup (map fst m) /\ Forall (fun e => areaKey (snd e) = fst e) m.

(** The non-empty quotes of a list of members, in order. *)
Definition quotesOf (members : list ScoredItem) : list string :=
  flat_map (fun x =>
              match summary_keyQuote (sc_item x) with
              | Some (String _ _ as q) => [q]
              | _ => []
              end) members.

(** The members of a list with a given cluster key. *)
Definition membersOf (key : string) (items : list ScoredItem) : list ScoredItem :=
  filter (fun x => String.eqb (keyOfItem x) key) items.

(** The running total of the loop over a list of members. *)
Definition sumScores (members : list ScoredItem) : Q :=
  fold_left (fun total x => total + scoreOrZero x) members 0.

(** The state of the loop of the clusterer after the items [processed]:
    the keys are distinct, every processed item has its key in the
    dictionary, and the accumulator under a key holds the processed items
    of that key with their total and their quotes. *)
Definition clusterInv (processed : list ScoredItem) (areas : JsMap Area) : Prop :=
  NoDup (map fst areas)
  /\ (forall x, In x processed -> In (keyOfItem x) (map fst areas))
  /\ (forall k a, In (k, a) areas ->
        area_id a = k
        /\ k = clusterKey (area_category a) (area_title a)
        /\ area_items a = membersOf k processed
        /\ area_items a <> []
        /\ area_totalScore a = sumScores (area_items a)
        /\ area_quotes a = quotesOf (area_items a)).


(** ** Sample inputs *)

Module Samples.

(** An item with the given properties and no others. *)
Definition item (type category : string) (body : option string)
  (upvotes numComments createdAt : option Z)
  (problemMetadata : option ProblemMetadata)
  (delightMetadata : option DelightMetadata) (keyQuote : option string) : Item :=
  {| item_sourceId := None;
     item_id := None;
     item_title := None;
     item_body := body;
     item_content := None;
     item_upvotes := upvotes;
     item_score := None;
     item_numComments := numComments;
     item_duplicateCount := None;
     item_createdAt := createdAt;
     item_type := type;
     item_category := category;
     item_problemMetadata := problemMetadata;
     item_delightMetadata := delightMetadata;
     item_summary := option_map (fun q => {| sm_keyQuote := Some q |}) keyQuote |}.

Definition now : Z := 1700000000000.

Definition hours (n : Z) : Z := (n * 60 * 60 * 1000)%Z.


(** A short rant of thirty characters without upvotes. *)
Definition rantItem : Item :=
  item "Neutral" "Rant/Opinion" (Some "this app is bad, I am so done."%string)
    (Some 0%Z) None None None None None.

(** A Constructive rant of sixty characters: 0.5 + 0.2 - 0.2. *)
Definition borderlineItem : Item :=
  item "Constructive" "Rant/Opinion"
    (Some "the export keeps failing and nobody answers in the forum :-("%string)
    None None None None None None.

(** A Praise item that the classifier filed under Feature Request. *)
Definition praiseRequestItem : Item :=
  item "Praise" "Feature Request"
    (Some "Love the new editor, it would be even better with offline mode."%string)
    (Some 12%Z) (Some 3%Z) None None
    (Some {| dm_ahaMonent := Some "Editor"%string; dm_shareability := Some 8 |})
    (Some "Love the new editor"%string).

(** An item about sync, posted a day ago. *)
Definition syncItem : Item :=
  item "Constructive" "Usability Friction"
    (Some "Sync between my laptop and my phone loses edits every other day."%string)
    (Some 234%Z) (Some 89%Z) (Some (now - hours 24)%Z)
    (Some {| pm_featureArea := Some "Sync"%string;
             pm_impactScore := Some 9;
             pm_userSegmentGuess := Some "Power Users"%string |})
    None (Some "Sync loses edits"%string).

Definition area (title category : string) (frequency : Z) (impactScore : Q)
  : AreaRec :=
  {| ar_title := title;
     ar_category := category;
     ar_frequency := frequency;
     ar_impactScore := Some impactScore;
     ar_severityLabel := None |}.

Definition snapshot (focusAreas : list AreaRec) : Synthesis :=
  {| syn_focusAreas := Some focusAreas;
     syn_sentiment := None;
     syn_metadata := None;
     syn_createdAt := Some "2023-11-01T00:00:00.000Z"%string |}.

(** The snapshot of a run that saw the sync area once, with impact 5. *)
Definition calmSyncSnapshot : Synthesis :=
  snapshot [area "Sync" "usability_friction" 1 5].


(** [{title: 'Sync', category: 'bug', frequency: 10, impactScore: 6}] and
    the current area with frequency 6. *)
Definition previousSync : AreaRec := area "Sync" "bug" 10 6.
Definition currentSync : AreaRec := area "Sync" "bug" 6 6.

(** A bucket of [n] resolved issues. *)
Definition resolvedBucket (n : nat) : list Change :=
  repeat {| ch_area := previousSync;
            ch_changeType := Resolved;
            ch_previousFrequency := None;
            ch_frequencyDelta := None;
            ch_impactDelta := None;
            ch_insight := None |} n.

Definition manyResolved : Changes :=
  {| newIssues := []; improvedIssues := []; worsenedIssues := [];
     resolvedIssues := resolvedBucket 1000; stableIssues := [] |}.

End Samples.

(** ** User segments and type distribution of the orchestrator *)

(** [c.toLowerCase()] on an ASCII character. *)
Definition lowerAscii (c : ascii) : ascii :=
  let n := nat_of_ascii c in
  if (65 <=? n)%nat && (n <=? 90)%nat then ascii_of_nat (n + 32) else c.

(** [s.toLowerCase()] on an ASCII string. *)
Fixpoint toLowerCase (s : string) : string :=
  match s with
  | EmptyString => EmptyString
  | String c rest => String (lowerAscii c) (toLowerCase rest)
  end.

(** [s.includes(sub)] *)
Fixpoint includes (sub s : string) : bool :=
  match s with
  | EmptyString => String.prefix sub EmptyString
  | String _ rest => String.prefix sub s || includes sub rest
  end.

Inductive UserType := churned | new_user | power_user | general.

(** [`${item.title || ''} ${item.body || item.content || ''}`.toLowerCase()] *)
Definition contentOf (item : Item) : string :=
  toLowerCase
    (String.append (JS.orS (item_title item) "")
       (String.append " "
          (JS.orS (item_body item) (JS.orS (item_content item) "")))).

Definition inferUserType (item : Item) : UserType :=
  let content := contentOf item in
  if includes "switched to" content || includes "moved to" content
     || includes "left" content || includes "cancelled" content
     || includes "used to use" content || includes "former" content
  then churned
  else if includes "new to" content || includes "just started" content
          || includes "beginner" content || includes "first time" content
          || includes "how do i" content || includes "getting started" content
  then new_user
  else if includes "power user" content || includes "heavy user" content
          || includes "enterprise" content || includes "team" content
          || includes "advanced" content || includes "workflow" content
          || includes "automation" content || includes "api" content
  then power_user
  else general.

(** The counters [userTypes]. *)
Record UserTypes := {
  ut_new_user : nat;
  ut_power_user : nat;
  ut_churned : nat;
  ut_general : nat
}.

(** [userTypes[inferUserType(item)]++] *)
Definition countUserType (userTypes : UserTypes) (x : ScoredItem) : UserTypes :=
  match inferUserType (sc_item x) with
  | new_user =>
      {| ut_new_user := S (ut_new_user userTypes);
         ut_power_user := ut_power_user userTypes;
         ut_churned := ut_churned userTypes;
         ut_general := ut_general userTypes |}
  | power_user =>
      {| ut_new_user := ut_new_user userTypes;
         ut_power_user := S (ut_power_user userTypes);
         ut_churned := ut_churned userTypes;
         ut_general := ut_general userTypes |}
  | churned =>
      {| ut_new_user := ut_new_user userTypes;
         ut_power_user := ut_power_user userTypes;
         ut_churned := S (ut_churned userTypes);
         ut_general := ut_general userTypes |}
  | general =>
      {| ut_new_user := ut_new_user userTypes;
         ut_power_user := ut_power_user userTypes;
         ut_churned := ut_churned userTypes;
         ut_general := S (ut_general userTypes) |}
  end.

(** Step 3 of [synthesizeFeedback]. *)
Definition userSegmentation (highSignalItems : list ScoredItem) : UserTypes :=
  fold_left countUserType highSignalItems
    {| ut_new_user := 0; ut_power_user := 0; ut_churned := 0; ut_general := 0 |}.

Record TypeDistribution := {
  td_constructive : nat;
  td_praise : nat;
  td_neutral : nat
}.

(** Step 4 of [synthesizeFeedback]. *)
Definition typeDistribution (analyzedItems : list Item) : TypeDistribution :=
  {| td_constructive :=
       List.length
         (filter (fun i => String.eqb (item_type i) "Constructive") analyzedItems);
     td_praise :=
       List.length
         (filter (fun i => String.eqb (item_type i) "Praise") analyzedItems);
     td_neutral :=
       List.length
         (filter (fun i => String.eqb (item_type i) "Neutral") analyzedItems) |}.



(** ** Snapshots *)

Record Snapshot := {
  snap_id : string;
  snap_companyName : string;
  snap_createdAt : string;
  snap_focusAreas : list AreaRec;
  snap_sentiment : option Sentiment;
  snap_metadata : option Metadata
}.

(** [{title, category, frequency, impactScore}] of a focus area. *)
Definition snapshotArea (fa : AreaRec) : AreaRec :=
  {| ar_title := ar_title fa;
     ar_category := ar_category fa;
     ar_frequency := ar_frequency fa;
     ar_impactScore := ar_impactScore fa;
     ar_severityLabel := None |}.

(** [createSnapshot(synthesis, companyName)]; [now] is [Date.now()] and
    [nowIso] is [new Date().toISOString()].  Reading [focusAreas.map] of a
    synthesis without focus areas throws. *)
Definition createSnapshot (synthesis : Synthesis) (companyName : string)
  (now : Z) (nowIso : string) : Outcome Snapshot :=
  match syn_focusAreas synthesis with
  | Some focusAreas =>
      Returned {| snap_id := String.append "snapshot_" (JS.show now);
                  snap_companyName := companyName;
                  snap_createdAt := nowIso;
                  snap_focusAreas := map snapshotArea focusAreas;
                  snap_sentiment := syn_sentiment synthesis;
                  snap_metadata := syn_metadata synthesis |}
  | None => Threw
  end.

(** A stored snapshot as the previous synthesis of a comparison. *)
Definition asPrevious (s : Snapshot) : Synthesis :=
  {| syn_focusAreas := Some (snap_focusAreas s);
     syn_sentiment := snap_sentiment s;
     syn_metadata := snap_metadata s;
     syn_createdAt := Some (snap_createdAt s) |}.

(** ** Digests of a comparison *)

Inductive DigestType := new_issue | improvement | resolved.

Record DigestItem := {
  dg_type : DigestType;
  dg_severity : option string;
  dg_title : string;
  dg_category : option string;
  dg_delta : option Z;
  dg_insight : option string
}.

Record WhatsNew := {
  wn_headline : option string;
  wn_items : list DigestItem;
  wn_healthScore : option Z
}.

(** [Math.abs(issue.frequencyDelta) >= 3] *)
Definition significantlyImproved (issue : Change) : bool :=
  match ch_frequencyDelta issue with
  | Some d => (3 <=? JS.Math_abs d)%Z
  | None => false
  end.

(** The three loops of [getWhatsNew]. *)
Definition digestItems (ch : Changes) : list DigestItem :=
  map (fun issue =>
         {| dg_type := new_issue;
            dg_severity :=
              Some (JS.orS (ar_severityLabel (ch_area issue)) "Medium");
            dg_title := ar_title (ch_area issue);
            dg_category := Some (ar_category (ch_area issue));
            dg_delta := None;
            dg_insight := ch_insight issue |}) (newIssues ch)
  ++ map (fun issue =>
            {| dg_type := improvement;
               dg_severity := None;
               dg_title := ar_title (ch_area issue);
               dg_category := None;
               dg_delta := ch_frequencyDelta issue;
               dg_insight := ch_insight issue |})
       (filter significantlyImproved (improvedIssues ch))
  ++ map (fun issue =>
            {| dg_type := resolved;
               dg_severity := None;
               dg_title := ar_title (ch_area issue);
               dg_category := None;
               dg_delta := None;
               dg_insight := ch_insight issue |}) (resolvedIssues ch).

(** [getWhatsNew(comparison)]; reading the buckets of a comparison whose
    [changes] is null throws. *)
Definition getWhatsNew (comparison : Comparison) : Outcome WhatsNew :=
  if isFirstRun comparison then
    Returned {| wn_headline := Some "First Analysis Run"%string;
                wn_items := [];
                wn_healthScore := None |}
  else
    match changes comparison with
    | Some ch =>
        Returned {| wn_headline := summary comparison;
                    wn_items := firstn 10 (digestItems ch);
                    wn_healthScore :=
                      Some (JS.orZ (option_map tr_overallHealth
                                      (trends comparison)) 50) |}
    | None => Threw
    end.

Record ImprovedRow := {
  ir_title : string;
  ir_category : string;
  ir_previousFrequency : option Z;
  ir_currentFrequency : Z;
  ir_delta : option Z;
  ir_impactDelta : option Q;
  ir_insight : option string
}.

(** [getWhatsImproved(comparison)] *)
Definition getWhatsImproved (comparison : Comparison)
  : Outcome (list ImprovedRow) :=
  if isFirstRun comparison then Returned []
  else
    match changes comparison with
    | Some ch =>
        Returned
          (map (fun issue =>
                  {| ir_title := ar_title (ch_area issue);
                     ir_category := ar_category (ch_area issue);
                     ir_previousFrequency := ch_previousFrequency issue;
                     ir_currentFrequency := ar_frequency (ch_area issue);
                     ir_delta := ch_frequencyDelta issue;
                     ir_impactDelta := ch_impactDelta issue;
                     ir_insight := ch_insight issue |})
             (improvedIssues ch))
    | None => Threw
    end.

(** ** Predicates of the further properties *)

(** The set of segments collected from a list of members. *)
Definition segmentsOf (members : list ScoredItem) : list string :=
  fold_left
    (fun segments x =>
       match problem_userSegmentGuess (sc_item x) with
       | Some (String _ _ as segment) => set_add segments segment
       | _ => segments
       end) members [].

(** The annotations of a bucket entry agree with the two maps it was built
    from: its area is the current (for a resolved entry the previous) area
    of its key, and its deltas are those of that area against the previous
    area of the key, which the classification of its bucket holds for. *)
Definition entryOk (currentAreas previousAreas : JsMap AreaRec) (i : Change)
  : Prop :=
  match ch_changeType i with
  | New =>
      In (areaKey (ch_area i), ch_area i) currentAreas
      /\ map_get (areaKey (ch_area i)) previousAreas = None
      /\ ch_previousFrequency i = None
      /\ ch_frequencyDelta i = None
      /\ ch_impactDelta i = None
      /\ ch_insight i <> None
  | Resolved =>
      In (areaKey (ch_area i), ch_area i) previousAreas
      /\ map_has (areaKey (ch_area i)) currentAreas = false
      /\ ch_previousFrequency i = None
      /\ ch_frequencyDelta i = None
      /\ ch_impactDelta i = None
      /\ ch_insight i <> None
  | t =>
      In (areaKey (ch_area i), ch_area i) currentAreas
      /\ exists p : AreaRec,
           map_get (areaKey (ch_area i)) previousAreas = Some p
           /\ Spec.classify (freqDelta_of (ch_area i) p)
                (impactDelta_of (ch_area i) p) = t
           /\ ch_previousFrequency i = Some (ar_frequency p)
           /\ ch_frequencyDelta i = Some (freqDelta_of (ch_area i) p)
           /\ ch_impactDelta i = Some (impactDelta_of (ch_area i) p)
           /\ (ch_insight i = None <-> t = Stable)
  end.

(** Every entry of every bucket has the change type of its bucket and
    annotations that agree with the two maps. *)
Definition bucketsOk (currentAreas previousAreas : JsMap AreaRec)
  (ch : Changes) : Prop :=
  forall (t : ChangeType) (i : Change),
    In i (bucket t ch) ->
    ch_changeType i = t /\ entryOk currentAreas previousAreas i.

(** The signal score as a function of the eleven tests of
    [calculateSignalScore]. *)
Definition signalScoreOf
  (constructive isPraise long veryLong over10 over50 over100
   hasProblem highImpact rant short : bool) : float :=
  let score := 0.5%float in
  let score := if constructive then (score + 0.2)%float else score in
  let score := if isPraise then (score + 0.1)%float else score in
  let score := if long then (score + 0.1)%float else score in
  let score := if veryLong then (score + 0.1)%float else score in
  let score := if over10 then (score + 0.05)%float else score in
  let score := if over50 then (score + 0.1)%float else score in
  let score := if over100 then (score + 0.1)%float else score in
  let score :=
    if hasProblem then
      let score := (score + 0.1)%float in
      if highImpact then (score + 0.1)%float else score
    else score in
  let score := if rant then (score - 0.2)%float else score in
  let score := if short then (score - 0.2)%float else score in
  Binary64.Math_max 0 (Binary64.Math_min 1 score).

(** [f] holds of both Booleans. *)
Definition bothBool (f : bool -> bool) : bool := f true && f false.

(** [0 <= x <= 1] *)
Definition inUnitInterval (x : float) : bool :=
  PrimFloat.leb 0%float x && PrimFloat.leb x 1%float.

(** The signal score is in [0,1] for all outcomes of the eleven tests. *)
Definition signalScoresInRange : bool :=
  bothBool (fun b1 => bothBool (fun b2 => bothBool (fun b3 =>
  bothBool (fun b4 => bothBool (fun b5 => bothBool (fun b6 =>
  bothBool (fun b7 => bothBool (fun b8 => bothBool (fun b9 =>
  bothBool (fun b10 => bothBool (fun b11 =>
    inUnitInterval
      (signalScoreOf b1 b2 b3 b4 b5 b6 b7 b8 b9 b10 b11)))))))))))).

(** Items whose engagement counts are not negative and whose sentiment
    value lies between 0 and 10. *)
Definition wellFormedItem (item : Item) : Prop :=
  (0 <= upvotes_of item)%Z /\ (0 <= comments_of item)%Z
  /\ 0 <= sentiment_of item /\ sentiment_of item <= 10.

(** ** The thresholds of the comparison in binary64 *)

Module Differential64.
Import Binary64.
Local Open Scope float_scope.

(** The [direction] of [calculateSentimentTrend]. *)
Definition sentimentDirection (currentPositive previousPositive : float)
  : SentimentDirection :=
  let currentPositiveRatio := currentPositive / 100 in
  let previousPositiveRatio := previousPositive / 100 in
  let delta := currentPositiveRatio - previousPositiveRatio in
  if 0.02 <? delta then improving
  else if delta <? -0.02 then declining
  else unchanged.

(** The [delta] of [calculateSentimentTrend]. *)
Definition sentimentDelta (currentPositive previousPositive : float) : float :=
  let currentPositiveRatio := currentPositive / 100 in
  let previousPositiveRatio := previousPositive / 100 in
  let delta := currentPositiveRatio - previousPositiveRatio in
  Math_round (delta * 100).

(** [impactDelta] and the two tests on it in [compareSyntheses], for
    impact scores that are numbers. *)
Definition impactDelta (currentScore previousScore : float) : float :=
  currentScore - previousScore.

Definition impactImproved (currentScore previousScore : float) : bool :=
  impactDelta currentScore previousScore <? -1.

Definition impactWorsened (currentScore previousScore : float) : bool :=
  1 <? impactDelta currentScore previousScore.

End Differential64.

(** The integers from 0 to 100. *)
Definition upTo100 : list Z := map Z.of_nat (seq 0 101).

(** The binary64 direction and delta of the sentiments [c] and [p] agree
    with the difference [c - p] up to the boundary case. *)
Definition sentimentChecked (c p : Z) : bool :=
  match Differential64.sentimentDirection (Binary64.of_Z c) (Binary64.of_Z p) with
  | improving => (2 <=? c - p)%Z
  | declining => (c - p <=? -2)%Z
  | unchanged => (-2 <=? c - p)%Z && (c - p <=? 2)%Z
  end
  && PrimFloat.eqb
       (Differential64.sentimentDelta (Binary64.of_Z c) (Binary64.of_Z p))
       (Binary64.of_Z (c - p)).

Definition sentimentsChecked : bool :=
  forallb (fun c => forallb (sentimentChecked c) upTo100) upTo100.

(** The binary64 tests on the impact delta of the scores [k/10] and [j/10]
    agree with the difference [k - j] up to the boundary case. *)
Definition impactChecked (k j : Z) : bool :=
  let currentScore := Binary64.of_Q (k # 10) in
  let previousScore := Binary64.of_Q (j # 10) in
  (if Differential64.impactImproved currentScore previousScore
   then (k - j <=? -10)%Z else (-10 <=? k - j)%Z)
  && (if Differential64.impactWorsened currentScore previousScore
      then (10 <=? k - j)%Z else (k - j <=? 10)%Z).

Definition impactsChecked : bool :=
  forallb (fun k => forallb (impactChecked k) upTo100) upTo100.

(** ** The engine in binary64

    The numbers of the engine are binary64.  Where a result depends on
    the rounding of a sum, a difference or a quotient, the function is
    embedded a second time with primitive floats: the formula of the
    impact score (module [Spec64], beside [Engine64]), the signal filter
    with its sort by impact score (module [Filter64]), the clusterer with
    its running totals and its sort (module [Clusterer64]) and the two
    loops of the comparison with the tags attached from them (module
    [Comparison64]). *)

(** [x || d] on an optional number: [undefined], [NaN] and both zeros are
    falsy. *)
Definition orNumber (x : option float) (d : float) : float :=
  match x with
  | Some v => if PrimFloat.is_nan v || PrimFloat.eqb v 0 then d else v
  | None => d
  end.

(** The sign of the result of a rounding. *)
Inductive signedAs (s : bool) : spec_float -> Prop :=
| signed_zero : signedAs s (S754_zero s)
| signed_infinity : signedAs s (S754_infinity s)
| signed_nan : signedAs s S754_nan
| signed_finite (m : positive) (e : Z) : signedAs s (S754_finite s m e).

(** ** The impact score in the words of the specification *)

Module Spec64.
Import Binary64.
Local Open Scope float_scope.

(** Reach: R = min(10, (upvotes + comments*2) / 20). *)
Definition reach (upvotes comments : float) : float :=
  Math_min 10 ((upvotes + comments * 2) / 20).

(** A metadata number with a fallback for one that is absent or 0. *)
Definition withFallback (x : option Q) (fallback : float) : float :=
  match x with
  | Some v => if Qeq_bool v 0 then fallback else of_Q v
  | None => fallback
  end.

(** Sentiment: the impact score of a Constructive item, the shareability
    of a Praise item, each with fallback 7, else 5. *)
Definition sentiment (type : string) (impactScore shareability : option Q)
  : float :=
  if String.eqb type "Constructive" then withFallback impactScore 7
  else if String.eqb type "Praise" then withFallback shareability 7
  else 5.

(** ageHours = max(1, (now - createdAt) in hours), the two times in
    milliseconds. *)
Definition ageHours (now createdAt : Z) : float :=
  Math_max 1 (of_Z (now - createdAt) / 3600000).

(** engagementPerHour = (upvotes + comments) / ageHours;
    V = min(10, engagementPerHour * 2). *)
Definition velocity (upvotes comments ageHours : float) : float :=
  let engagementPerHour := (upvotes + comments) / ageHours in
  Math_min 10 (engagementPerHour * 2).

(** round1: one decimal place. *)
Definition round1 (x : float) : float := Math_round (x * 10) / 10.

(** Score = round1(R*0.4 + S*0.3 + V*0.3). *)
Definition score (R S V : float) : float :=
  round1 (R * 0.4 + S * 0.3 + V * 0.3).

End Spec64.

(** ** Sorting with a binary64 comparator *)

Module JS64.
Local Open Scope float_scope.

(** [arr.sort(cmp)] with a comparator that returns a number: a stable
    insertion sort; [cmp a b > 0] moves [a] behind [b], and a comparator
    value that is not a number counts as 0. *)
Section Sort.
Context {A : Type} (cmp : A -> A -> float).

Fixpoint insert (x : A) (l : list A) : list A :=
  match l with
  | [] => [x]
  | y :: l' => if 0 <? cmp x y then y :: insert x l' else x :: l
  end.

Definition sort (l : list A) : list A := fold_right insert [] l.
End Sort.

End JS64.

(** ** The signal filter in binary64

    [filterSignalFromNoise] with the impact score as the double the code
    computes; of the impact data only the score, which the sort reads, is
    kept. *)

Module Filter64.
Local Open Scope float_scope.

(** An element of a bucket: the item, its [signalScore], and
    [impactData.score] where the element has impact data. *)
Record ScoredItem := {
  sc_item : Item;
  sc_signalScore : float;
  sc_impactScore : option float
}.

Record SignalData := {
  highSignal : list ScoredItem;
  noise : list ScoredItem
}.

(** [x.impactData.score] of an element of [highSignal]. *)
Definition impactScore_of (x : ScoredItem) : float :=
  match sc_impactScore x with
  | Some s => s
  | None => 0
  end.

(** One iteration of the loop. *)
Definition filterStep (now : Z)
  (acc : list ScoredItem * list ScoredItem) (item : Item)
  : list ScoredItem * list ScoredItem :=
  let signalScore := calculateSignalScore item in
  let impactScore := Engine64.calculateImpactScore item now in
  if 0.5 <=? signalScore then
    (fst acc ++ [{| sc_item := item;
                    sc_signalScore := signalScore;
                    sc_impactScore := Some impactScore |}],
     snd acc)
  else
    (fst acc,
     snd acc ++ [{| sc_item := item;
                    sc_signalScore := signalScore;
                    sc_impactScore := None |}]).

Definition filterSignalFromNoise (analyzedItems : list Item) (now : Z)
  : SignalData :=
  let acc := fold_left (filterStep now) analyzedItems ([], []) in
  {| highSignal :=
       JS64.sort (fun a b => impactScore_of b - impactScore_of a) (fst acc);
     noise := snd acc |}.

(** The object pushed on [highSignal] for an item. *)
Definition asHighSignal (now : Z) (item : Item) : ScoredItem :=
  {| sc_item := item;
     sc_signalScore := calculateSignalScore item;
     sc_impactScore := Some (Engine64.calculateImpactScore item now) |}.

(** The object pushed on [noise] for an item. *)
Definition asNoise (item : Item) : ScoredItem :=
  {| sc_item := item;
     sc_signalScore := calculateSignalScore item;
     sc_impactScore := None |}.

End Filter64.

(** ** The clusterer in binary64 *)

Module Clusterer64.
Import Binary64.
Local Open Scope float_scope.

(** The impact data of an item, with the score as the number it is. *)
Record ImpactData := {
  id_score : float;
  id_stakes : Stakes;
  id_rationale : string
}.

(** An element of the input array. *)
Record ScoredItem := {
  sc_item : Item;
  sc_impactData : option ImpactData
}.

Definition keyOfItem (x : ScoredItem) : string :=
  clusterKey (focusCategory (sc_item x)) (featureArea_of (sc_item x)).

(** The accumulator object stored under a key. *)
Record Area := {
  area_id : string;
  area_title : string;
  area_category : FocusCategory;
  area_items : list ScoredItem;
  area_totalScore : float;
  area_quotes : list string;
  area_segments : list string
}.

(** [item.impactData?.score || 0] *)
Definition scoreOrZero (x : ScoredItem) : float :=
  orNumber (option_map id_score (sc_impactData x)) 0.

(** The mutations of [areas[key]] for one item. *)
Definition addToArea (x : ScoredItem) (a : Area) : Area :=
  {| area_id := area_id a;
     area_title := area_title a;
     area_category := area_category a;
     area_items := area_items a ++ [x];
     area_totalScore := area_totalScore a + scoreOrZero x;
     area_quotes :=
       match summary_keyQuote (sc_item x) with
       | Some (String _ _ as keyQuote) => area_quotes a ++ [keyQuote]
       | _ => area_quotes a
       end;
     area_segments :=
       match problem_userSegmentGuess (sc_item x) with
       | Some (String _ _ as segment) => set_add (area_segments a) segment
       | _ => area_segments a
       end |}.

(** One iteration of the loop of [clusterIntoFocusAreas]. *)
Definition clusterStep (areas : JsMap Area) (x : ScoredItem) : JsMap Area :=
  let featureArea := featureArea_of (sc_item x) in
  let category := focusCategory (sc_item x) in
  let key := clusterKey category featureArea in
  let areas :=
    match map_get key areas with
    | Some _ => areas
    | None =>
        areas ++ [(key, {| area_id := key;
                           area_title := featureArea;
                           area_category := category;
                           area_items := [];
                           area_totalScore := 0;
                           area_quotes := [];
                           area_segments := [] |})]
    end in
  map_update key (addToArea x) areas.

Record FocusArea := {
  fa_id : string;
  fa_title : string;
  fa_category : FocusCategory;
  fa_items : list ScoredItem;
  fa_totalScore : float;
  fa_quotes : list string;
  fa_frequency : nat;
  fa_avgImpact : float;
  fa_topQuote : string;
  fa_affectedSegments : list string;
  fa_stakes : Stakes;
  fa_scoreRationale : string
}.

(** The aggregates computed for one accumulator. *)
Definition finalizeArea (area : Area) : FocusArea :=
  {| fa_id := area_id area;
     fa_title := area_title area;
     fa_category := area_category area;
     fa_items := area_items area;
     fa_totalScore := area_totalScore area;
     fa_quotes := area_quotes area;
     fa_frequency := List.length (area_items area);
     fa_avgImpact :=
       if (0 <? List.length (area_items area))%nat
       then area_totalScore area / of_Z (Z.of_nat (List.length (area_items area)))
       else 0;
     fa_topQuote := JS.orS (hd_error (area_quotes area)) "";
     fa_affectedSegments := area_segments area;
     fa_stakes :=
       match hd_error (area_items area) with
       | Some first =>
           match sc_impactData first with
           | Some d => id_stakes d
           | None => {| stakes_type := neutral; stakes_message := "" |}
           end
       | None => {| stakes_type := neutral; stakes_message := "" |}
       end;
     fa_scoreRationale :=
       match hd_error (area_items area) with
       | Some first => JS.orS (option_map id_rationale (sc_impactData first)) ""
       | None => EmptyString
       end |}.

Definition clusterIntoFocusAreas (items : list ScoredItem) : list FocusArea :=
  let areas := fold_left clusterStep items [] in
  JS64.sort (fun a b => fa_avgImpact b - fa_avgImpact a)
    (map finalizeArea (map_values areas)).

(** The non-empty quotes of a list of members, in order. *)
Definition quotesOf (members : list ScoredItem) : list string :=
  flat_map (fun x =>
              match summary_keyQuote (sc_item x) with
              | Some (String _ _ as q) => [q]
              | _ => []
              end) members.

(** The members of a list with a given cluster key. *)
Definition membersOf (key : string) (items : list ScoredItem) : list ScoredItem :=
  filter (fun x => String.eqb (keyOfItem x) key) items.

(** The state of the loop after the items [processed]. *)
Definition clusterInv (processed : list ScoredItem) (areas : JsMap Area) : Prop :=
  NoDup (map fst areas)
  /\ (forall x, In x processed -> In (keyOfItem x) (map fst areas))
  /\ (forall k a, In (k, a) areas ->
        area_id a = k
        /\ k = clusterKey (area_category a) (area_title a)
        /\ area_items a = membersOf k processed
        /\ area_items a <> []
        /\ area_totalScore a
           = fold_left (fun total x => total + scoreOrZero x) (area_items a) 0
        /\ area_quotes a = quotesOf (area_items a)).

End Clusterer64.

(** ** The comparison in binary64 *)

Module Comparison64.
Import Binary64.
Local Open Scope float_scope.

(** A focus area of a synthesis or of a snapshot. *)
Record AreaRec := {
  ar_title : string;
  ar_category : string;
  ar_frequency : Z;
  ar_impactScore : option float;
  ar_severityLabel : option string
}.

(** An entry of a bucket. *)
Record Change := {
  ch_area : AreaRec;
  ch_changeType : ChangeType;
  ch_previousFrequency : option Z;
  ch_frequencyDelta : option Z;
  ch_impactDelta : option float;
  ch_insight : option string
}.

Record Changes := {
  newIssues : list Change;
  improvedIssues : list Change;
  worsenedIssues : list Change;
  resolvedIssues : list Change;
  stableIssues : list Change
}.

(** [`${fa.category}:${fa.title}`] *)
Definition areaKey (fa : AreaRec) : string :=
  String.append (ar_category fa) (String.append ":" (ar_title fa)).

(** [new Map(focusAreas.map(fa => [key, fa]))] *)
Definition areaMap (focusAreas : list AreaRec) : JsMap AreaRec :=
  map_of_entries (map (fun fa => (areaKey fa, fa)) focusAreas).

Definition emptyChanges : Changes :=
  {| newIssues := []; improvedIssues := []; worsenedIssues := [];
     resolvedIssues := []; stableIssues := [] |}.

(** The body of the first loop of [compareSyntheses]. *)
Definition compareStep (previousAreas : JsMap AreaRec) (changes : Changes)
  (entry : string * AreaRec) : Changes :=
  let key := fst entry in
  let currentArea := snd entry in
  match map_get key previousAreas with
  | None =>
      {| newIssues :=
           newIssues changes ++
           [{| ch_area := currentArea;
               ch_changeType := New;
               ch_previousFrequency := None;
               ch_frequencyDelta := None;
               ch_impactDelta := None;
               ch_insight :=
                 Some (String.append "New "
                   (String.append
                      (JS.replace_first "_" " " (ar_category currentArea))
                      (String.append " detected: "
                         (quoted (ar_title currentArea))))) |}];
         improvedIssues := improvedIssues changes;
         worsenedIssues := worsenedIssues changes;
         resolvedIssues := resolvedIssues changes;
         stableIssues := stableIssues changes |}
  | Some previousArea =>
      let freqDelta := (ar_frequency currentArea - ar_frequency previousArea)%Z in
      let impactDelta :=
        orNumber (ar_impactScore currentArea) 0
        - orNumber (ar_impactScore previousArea) 0 in
      if (freqDelta <? -2)%Z || (impactDelta <? -1) then
        {| newIssues := newIssues changes;
           improvedIssues :=
             improvedIssues changes ++
             [{| ch_area := currentArea;
                 ch_changeType := Improved;
                 ch_previousFrequency := Some (ar_frequency previousArea);
                 ch_frequencyDelta := Some freqDelta;
                 ch_impactDelta := Some impactDelta;
                 ch_insight :=
                   Some (String.append (quoted (ar_title currentArea))
                     (String.append " has improved: "
                        (String.append (JS.show (JS.Math_abs freqDelta))
                           " fewer mentions"))) |}];
           worsenedIssues := worsenedIssues changes;
           resolvedIssues := resolvedIssues changes;
           stableIssues := stableIssues changes |}
      else if (2 <? freqDelta)%Z || (1 <? impactDelta) then
        {| newIssues := newIssues changes;
           improvedIssues := improvedIssues changes;
           worsenedIssues :=
             worsenedIssues changes ++
             [{| ch_area := currentArea;
                 ch_changeType := Worsened;
                 ch_previousFrequency := Some (ar_frequency previousArea);
                 ch_frequencyDelta := Some freqDelta;
                 ch_impactDelta := Some impactDelta;
                 ch_insight :=
                   Some (String.append (quoted (ar_title currentArea))
                     (String.append " is growing: +"
                        (String.append (JS.show freqDelta)
                           " more mentions"))) |}];
           resolvedIssues := resolvedIssues changes;
           stableIssues := stableIssues changes |}
      else
        {| newIssues := newIssues changes;
           improvedIssues := improvedIssues changes;
           worsenedIssues := worsenedIssues changes;
           resolvedIssues := resolvedIssues changes;
           stableIssues :=
             stableIssues changes ++
             [{| ch_area := currentArea;
                 ch_changeType := Stable;
                 ch_previousFrequency := Some (ar_frequency previousArea);
                 ch_frequencyDelta := Some freqDelta;
                 ch_impactDelta := Some impactDelta;
                 ch_insight := None |}] |}
  end.

(** The body of the second loop of [compareSyntheses]. *)
Definition resolveStep (currentAreas : JsMap AreaRec) (changes : Changes)
  (entry : string * AreaRec) : Changes :=
  let key := fst entry in
  let previousArea := snd entry in
  if negb (map_has key currentAreas) then
    {| newIssues := newIssues changes;
       improvedIssues := improvedIssues changes;
       worsenedIssues := worsenedIssues changes;
       resolvedIssues :=
         resolvedIssues changes ++
         [{| ch_area := previousArea;
             ch_changeType := Resolved;
             ch_previousFrequency := None;
             ch_frequencyDelta := None;
             ch_impactDelta := None;
             ch_insight :=
               Some (String.append (quoted (ar_title previousArea))
                       " no longer appearing in feedback") |}];
       stableIssues := stableIssues changes |}
  else changes.

(** The two loops. *)
Definition computeChanges (currentFocusAreas previousFocusAreas : list AreaRec)
  : Changes :=
  let currentAreas := areaMap currentFocusAreas in
  let previousAreas := areaMap previousFocusAreas in
  let changes := fold_left (compareStep previousAreas) currentAreas emptyChanges in
  fold_left (resolveStep currentAreas) previousAreas changes.

Record TrendedArea := {
  ta_area : AreaRec;
  ta_trend : Trend;
  ta_trendDelta : Z
}.

(** [issues.find(i => `${i.category}:${i.title}` === key)] *)
Definition findIssue (key : string) (issues : list Change) : option Change :=
  JS.find (fun i => String.eqb (areaKey (ch_area i)) key) issues.

(** [i.frequencyDelta] of a bucket entry that has one. *)
Definition frequencyDelta_of (i : Change) : Z :=
  match ch_frequencyDelta i with Some d => d | None => 0%Z end.

(** The callback of [attachTrendData] after a comparison with a previous
    snapshot. *)
Definition attachOne (changes : Changes) (fa : AreaRec) : TrendedArea :=
  let key := areaKey fa in
  let improved := findIssue key (improvedIssues changes) in
  let worsened := findIssue key (worsenedIssues changes) in
  let newIssue := findIssue key (newIssues changes) in
  let stable := findIssue key (stableIssues changes) in
  match newIssue, improved, worsened, stable with
  | Some _, _, _, _ =>
      {| ta_area := fa; ta_trend := trend_new; ta_trendDelta := ar_frequency fa |}
  | None, Some improved, _, _ =>
      {| ta_area := fa; ta_trend := trend_down;
         ta_trendDelta := frequencyDelta_of improved |}
  | None, None, Some worsened, _ =>
      {| ta_area := fa; ta_trend := trend_up;
         ta_trendDelta := frequencyDelta_of worsened |}
  | None, None, None, Some stable =>
      {| ta_area := fa; ta_trend := trend_stable;
         ta_trendDelta := frequencyDelta_of stable |}
  | None, None, None, None =>
      {| ta_area := fa; ta_trend := trend_stable; ta_trendDelta := 0 |}
  end.

(** The bucket of a change type. *)
Definition bucket (t : ChangeType) (ch : Changes) : list Change :=
  match t with
  | New => newIssues ch
  | Improved => improvedIssues ch
  | Worsened => worsenedIssues ch
  | Resolved => resolvedIssues ch
  | Stable => stableIssues ch
  end.

(** The entry the first loop pushes for an entry of the current map. *)
Definition pushed (previousAreas : JsMap AreaRec) (entry : string * AreaRec)
  : Change :=
  let fresh := compareStep previousAreas emptyChanges entry in
  hd {| ch_area := snd entry; ch_changeType := Resolved;
        ch_previousFrequency := None; ch_frequencyDelta := None;
        ch_impactDelta := None; ch_insight := None |}
     (newIssues fresh ++ improvedIssues fresh ++ worsenedIssues fresh
      ++ stableIssues fresh).

(** The entry the second loop pushes for an entry of the previous map. *)
Definition resolvedEntry (entry : string * AreaRec) : Change :=
  {| ch_area := snd entry;
     ch_changeType := Resolved;
     ch_previousFrequency := None;
     ch_frequencyDelta := None;
     ch_impactDelta := None;
     ch_insight :=
       Some (String.append (quoted (ar_title (snd entry)))
               " no longer appearing in feedback") |}.

(** A map whose keys are distinct and are the keys of its areas. *)
Definition wfMap (m : JsMap AreaRec) : Prop :=
  NoDup (map fst m) /\ Forall (fun e => areaKey (snd e) = fst e) m.

End Comparison64.



(** ** Sample inputs in binary64 *)

Module Samples64.

(** A report about sync without engagement counts. *)
Definition syncReport (body : string) (keyQuote segment : option string) : Item :=
  Samples.item "Constructive" "Usability Friction" (Some body) None None None
    (Some {| pm_featureArea := Some "Sync"%string;
             pm_impactScore := None;
             pm_userSegmentGuess := segment |})
    None keyQuote.

Definition scored (item : Item) (score : float) (message rationale : string)
  : Clusterer64.ScoredItem :=
  {| Clusterer64.sc_item := item;
     Clusterer64.sc_impactData :=
       Some {| Clusterer64.id_score := score;
               Clusterer64.id_stakes :=
                 {| stakes_type := risk; stakes_message := message |};
               Clusterer64.id_rationale := rationale |} |}.

(** Three different reports of the sync area, with the scores 3.3, 2.7
    and 2.1, and a praise filed under Feature Request with 9.7. *)
Definition syncLost : Clusterer64.ScoredItem :=
  scored (syncReport "Sync loses my edits." None (Some "Power Users"%string))
    3.3 "Risk: lost edits" "Score reflects moderate reach.".

Definition syncSlow : Clusterer64.ScoredItem :=
  scored (syncReport "Sync is slow on mobile." (Some "Sync is slow"%string) None)
    2.7 "Risk: slow sync" "Score based on standard engagement metrics.".

Definition syncOffline : Clusterer64.ScoredItem :=
  scored (syncReport "Sync fails when offline." (Some "Fails offline"%string) None)
    2.1 "Risk: offline" "Score based on standard engagement metrics.".

Definition editorPraise : Clusterer64.ScoredItem :=
  scored Samples.praiseRequestItem 9.7 "Upside: editor" "Score reflects high visibility.".

Definition area (title category : string) (frequency : Z) (impactScore : float)
  : Comparison64.AreaRec :=
  {| Comparison64.ar_title := title;
     Comparison64.ar_category := category;
     Comparison64.ar_frequency := frequency;
     Comparison64.ar_impactScore := Some impactScore;
     Comparison64.ar_severityLabel := None |}.

(** [{title: 'Sync', category: 'bug', frequency: 10, impactScore: 6}] and
    the current area with frequency 6. *)
Definition previousSync : Comparison64.AreaRec := area "Sync" "bug" 10 6.
Definition currentSync : Comparison64.AreaRec := area "Sync" "bug" 6 6.

(** An area whose impact fell from 2.2 to 1.2 and one whose impact fell
    from 2.0 to 1.0, at equal frequency. *)
Definition previousExport : Comparison64.AreaRec := area "Export" "bug" 5 2.2.
Definition currentExport : Comparison64.AreaRec := area "Export" "bug" 5 1.2.
Definition previousSearch : Comparison64.AreaRec := area "Search" "bug" 5 2.
Definition currentSearch : Comparison64.AreaRec := area "Search" "bug" 5 1.

(** An area that matches the improved and the worsened test: fewer
    mentions, higher impact. *)
Definition previousLogin : Comparison64.AreaRec := area "Login" "bug" 9 3.
Definition currentLogin : Comparison64.AreaRec := area "Login" "bug" 4 8.

(** [{upvotes: 5, numComments: 10, type: 'Constructive',
      problemMetadata: {impactScore: 9}, createdAt: 4h ago}] *)
Definition quietItem : Item :=
  Samples.item "Constructive" "Bug" None (Some 5%Z) (Some 10%Z)
    (Some (Samples.now - Samples.hours 4)%Z)
    (Some {| pm_featureArea := None;
             pm_impactScore := Some 9;
             pm_userSegmentGuess := None |})
    None None.



(** A new issue labelled [label]. *)
Definition newIssue (label : string) : Change :=
  {| ch_area := {| ar_title := "Crash"; ar_category := "bug";
                   ar_frequency := 3; ar_impactScore := Some 8;
                   ar_severityLabel := Some label |};
     ch_changeType := New;
     ch_previousFrequency := None;
     ch_frequencyDelta := None;
     ch_impactDelta := None;
     ch_insight := None |}.

(** Two new issues, one of them Critical, and nothing else. *)
Definition oneCritical : Changes :=
  {| newIssues := [newIssue "Critical"; newIssue "Medium"];
     improvedIssues := []; worsenedIssues := [];
     resolvedIssues := []; stableIssues := [] |}.


End Samples64.

(** * Properties *)

(** ** Rounding *)

Lemma Math_round_integer (z : Z) : JS.Math_round (inject_Z z) = z.
Proof.
  unfold JS.Math_round.
  assert (Hlo : inject_Z z <= inject_Z z + (1 # 2)).
  { rewrite <- (Qplus_0_r (inject_Z z)) at 1. apply Qplus_le_r. discriminate. }
  assert (Hhi : inject_Z z + (1 # 2) < inject_Z (z + 1)).
  { rewrite inject_Z_plus. apply Qplus_lt_r. reflexivity. }
  apply Qfloor_resp_le in Hlo. rewrite Qfloor_Z in Hlo.
  pose proof (Qfloor_le (inject_Z z + (1 # 2))) as Hfl.
  assert (Hlt : inject_Z (Qfloor (inject_Z z + (1 # 2))) < inject_Z (z + 1)).
  { eapply Qle_lt_trans; eauto. }
  rewrite <- Zlt_Qlt in Hlt. lia.
Qed.

(** ** Binary64 evaluation *)

Example Math_round_ties_up :
  Binary64.Math_round 2.5%float = 3%float
  /\ Binary64.Math_round (-2.5)%float = (-2)%float
  /\ Binary64.Math_round 0.49999999999999994%float = 0%float
  /\ Binary64.Math_round 96.999999999999986%float = 97%float.
Proof. repeat split; vm_compute; reflexivity. Qed.

(** The short rant of the specification: 0.5 - 0.2 - 0.2 is below the
    threshold. *)
Example rant_is_noise :
  calculateSignalScore Samples.rantItem = (0.5 - 0.2 - 0.2)%float
  /\ passes Samples.rantItem = false.
Proof. split; vm_compute; reflexivity. Qed.

(** In binary64 0.5 + 0.2 - 0.2 is 0.49999999999999994, below the
    threshold. *)
Example borderline_is_noise :
  calculateSignalScore Samples.borderlineItem = 0.49999999999999994%float
  /\ passes Samples.borderlineItem = false.
Proof. split; vm_compute; reflexivity. Qed.

(** ** Impact scorer *)


(** ** Sorting by a descending numeric key *)

Section SortFacts.
Context {A : Type} (key : A -> Q).

Lemma insert_perm (x : A) (l : list A) :
  Permutation (JS.insert (fun a b => key b - key a) x l) (x :: l).
Proof.
  induction l as [|y l IH]; cbn.
  - apply Permutation_refl.
  - destruct (Qlt_le_dec 0 (key y - key x)).
    + eapply perm_trans; [apply perm_skip, IH | apply perm_swap].
    + apply Permutation_refl.
Qed.

Lemma sort_perm (l : list A) :
  Permutation (JS.sort (fun a b => key b - key a) l) l.
Proof.
  induction l as [|x l IH]; cbn.
  - apply perm_nil.
  - eapply perm_trans; [apply insert_perm | apply perm_skip, IH].
Qed.



End SortFacts.

(** ** The subtraction comparator in binary64 *)

Lemma binary_round_aux_sign (s : bool) (m e : Z) (l : SpecFloat.location) :
  signedAs s (SpecFloat.binary_round_aux prec emax s m e l).
Proof.
  unfold SpecFloat.binary_round_aux.
  destruct (SpecFloat.shr_fexp prec emax m e l) as [mrs' e'].
  destruct (SpecFloat.shr_fexp prec emax _ e' SpecFloat.loc_Exact) as [mrs'' e''].
  destruct (SpecFloat.shr_m mrs'') as [|p|p]; [constructor | | constructor].
  destruct (Z.leb e'' (emax - prec)); constructor.
Qed.

Lemma binary_round_sign (s : bool) (m : positive) (e : Z) :
  signedAs s (SpecFloat.binary_round prec emax s m e).
Proof.
  unfold SpecFloat.binary_round.
  destruct (SpecFloat.shl_align m e _) as [mz ez].
  apply binary_round_aux_sign.
Qed.

Lemma negative_not_above_zero (r : spec_float) :
  signedAs true r -> SFltb (S754_zero false) r = false.
Proof. intros H. destruct H; reflexivity. Qed.

Lemma normalize_sign (m e : Z) :
  match m with
  | Z0 => SpecFloat.binary_normalize prec emax m e false = S754_zero false
  | Zpos _ => signedAs false (SpecFloat.binary_normalize prec emax m e false)
  | Zneg _ => signedAs true (SpecFloat.binary_normalize prec emax m e false)
  end.
Proof. destruct m; cbn; [reflexivity | apply binary_round_sign ..]. Qed.

Lemma SFsub_antisym (x y : spec_float) :
  SFltb (S754_zero false) (SF64sub y x) = true ->
  SFltb (S754_zero false) (SF64sub x y) = false.
Proof.
  unfold SF64sub.
  destruct x as [sx|sx| |sx mx ex], y as [sy|sy| |sy my ey];
    try (destruct sx, sy; cbn; (discriminate || reflexivity));
    try (destruct sx; cbn; (discriminate || reflexivity));
    try (destruct sy; cbn; (discriminate || reflexivity)).
  all: try (unfold SpecFloat.SFsub; cbn; intros H; discriminate H).
  unfold SpecFloat.SFsub. rewrite (Z.min_comm ex ey).
  set (ez := Z.min ey ex).
  set (X := SpecFloat.cond_Zopp sx (Zpos (fst (SpecFloat.shl_align mx ex ez)))).
  set (Y := SpecFloat.cond_Zopp sy (Zpos (fst (SpecFloat.shl_align my ey ez)))).
  intros H.
  pose proof (normalize_sign (Y - X) ez) as HY.
  pose proof (normalize_sign (X - Y) ez) as HX.
  destruct (Y - X)%Z as [|p|p] eqn:E.
  - rewrite HY in H. discriminate H.
  - assert (E' : (X - Y = Zneg p)%Z) by lia. rewrite E' in HX.
    rewrite E'. apply negative_not_above_zero, HX.
  - apply negative_not_above_zero in HY. rewrite HY in H. discriminate H.
Qed.

(** When the comparator [b - a] is positive, the comparator [a - b] is
    not. *)
Lemma comparator_antisym (a b : float) :
  PrimFloat.ltb 0 (b - a) = true -> PrimFloat.ltb 0 (a - b) = false.
Proof. rewrite !ltb_spec, !sub_spec. apply SFsub_antisym. Qed.

(** ** Sorting by a descending binary64 key *)

Section SortFacts64.
Context {A : Type} (key : A -> float).

Lemma insert64_perm (x : A) (l : list A) :
  Permutation (JS64.insert (fun a b => (key b - key a)%float) x l) (x :: l).
Proof.
  induction l as [|y l IH]; cbn.
  - apply Permutation_refl.
  - destruct (PrimFloat.ltb 0 (key y - key x)).
    + eapply perm_trans; [apply perm_skip, IH | apply perm_swap].
    + apply Permutation_refl.
Qed.

Lemma sort64_perm (l : list A) :
  Permutation (JS64.sort (fun a b => (key b - key a)%float) l) l.
Proof.
  induction l as [|x l IH]; cbn.
  - apply perm_nil.
  - eapply perm_trans; [apply insert64_perm | apply perm_skip, IH].
Qed.

Lemma insert64_head (x : A) (l : list A) :
  exists rest,
    JS64.insert (fun a b => (key b - key a)%float) x l = x :: rest
    \/ exists y l',
         l = y :: l'
         /\ PrimFloat.ltb 0 (key y - key x) = true
         /\ JS64.insert (fun a b => (key b - key a)%float) x l = y :: rest.
Proof.
  destruct l as [|y l']; cbn.
  - exists []. now left.
  - destruct (PrimFloat.ltb 0 (key y - key x)) eqn:E.
    + eexists. right. exists y, l'. repeat split. exact E.
    + eexists. now left.
Qed.

Lemma insert64_sorted (x : A) (l : list A) :
  Sorted (fun a b => PrimFloat.ltb 0 (key b - key a) = false) l ->
  Sorted (fun a b => PrimFloat.ltb 0 (key b - key a) = false)
    (JS64.insert (fun a b => (key b - key a)%float) x l).
Proof.
  induction l as [|y l IH]; intros Hs; cbn.
  - repeat constructor.
  - destruct (PrimFloat.ltb 0 (key y - key x)) eqn:E.
    + inversion Hs as [|? ? Hs' Hhd]; subst.
      constructor; [apply IH, Hs'|].
      destruct (insert64_head x l) as (rest & [->|(z & l' & -> & Hz & ->)]).
      * constructor. apply comparator_antisym, E.
      * constructor. now inversion Hhd.
    + constructor; [exact Hs|]. constructor. exact E.
Qed.

Lemma sort64_sorted (l : list A) :
  Sorted (fun a b => PrimFloat.ltb 0 (key b - key a) = false)
    (JS64.sort (fun a b => (key b - key a)%float) l).
Proof.
  induction l as [|x l IH]; cbn.
  - constructor.
  - apply insert64_sorted, IH.
Qed.

End SortFacts64.

(** ** Signal filter *)

Lemma filter_loop (totalItems : nat) (now : Z) (items : list Item) :
  forall high low : list ScoredItem,
    fold_left (filterStep totalItems now) items (high, low)
    = (high ++ map (asHighSignal totalItems now) (filter passes items),
       low ++ map asNoise (filter (fun i => negb (passes i)) items)).
Proof.
  induction items as [|item items IH]; intros high low; cbn [fold_left].
  - cbn. now rewrite !app_nil_r.
  - unfold filterStep at 2. cbn [fst snd filter].
    fold (passes item). destruct (passes item); cbn [negb map].
    + rewrite IH. fold (asHighSignal totalItems now item).
      now rewrite <- app_assoc.
    + rewrite IH. fold (asNoise item). now rewrite <- app_assoc.
Qed.

Lemma highSignal_perm (items : list Item) (now : Z) :
  Permutation (highSignal (filterSignalFromNoise items now))
    (map (asHighSignal (List.length items) now) (filter passes items)).
Proof.
  unfold filterSignalFromNoise. cbn [highSignal].
  rewrite filter_loop. cbn [fst app].
  apply (sort_perm impactScore_of).
Qed.

Lemma noise_eq (items : list Item) (now : Z) :
  noise (filterSignalFromNoise items now)
  = map asNoise (filter (fun i => negb (passes i)) items).
Proof.
  unfold filterSignalFromNoise. cbn [noise].
  rewrite filter_loop. reflexivity.
Qed.

Lemma filter_split_perm {A : Type} (p : A -> bool) (l : list A) :
  Permutation (filter p l ++ filter (fun a => negb (p a)) l) l.
Proof.
  induction l as [|a l IH]; cbn.
  - apply perm_nil.
  - destruct (p a); cbn.
    + apply perm_skip, IH.
    + eapply perm_trans; [apply Permutation_sym, Permutation_middle|].
      apply perm_skip, IH.
Qed.

Lemma filter64_loop (now : Z) (items : list Item) :
  forall high low : list Filter64.ScoredItem,
    fold_left (Filter64.filterStep now) items (high, low)
    = (high ++ map (Filter64.asHighSignal now)
                 (filter (fun i => PrimFloat.leb 0.5 (calculateSignalScore i))
                    items),
       low ++ map Filter64.asNoise
                (filter (fun i => negb (PrimFloat.leb 0.5 (calculateSignalScore i)))
                   items)).
Proof.
  induction items as [|item items IH]; intros high low; cbn [fold_left].
  - cbn. now rewrite !app_nil_r.
  - unfold Filter64.filterStep at 2. cbn [fst snd filter].
    destruct (PrimFloat.leb 0.5 (calculateSignalScore item)); cbn [negb map].
    + rewrite IH. fold (Filter64.asHighSignal now item).
      now rewrite <- app_assoc.
    + rewrite IH. fold (Filter64.asNoise item). now rewrite <- app_assoc.
Qed.

Lemma highSignal64_perm (items : list Item) (now : Z) :
  Permutation (Filter64.highSignal (Filter64.filterSignalFromNoise items now))
    (map (Filter64.asHighSignal now)
       (filter (fun i => PrimFloat.leb 0.5 (calculateSignalScore i)) items)).
Proof.
  unfold Filter64.filterSignalFromNoise. cbn [Filter64.highSignal].
  rewrite filter64_loop. cbn [fst app].
  apply (sort64_perm Filter64.impactScore_of).
Qed.

Lemma noise64_eq (items : list Item) (now : Z) :
  Filter64.noise (Filter64.filterSignalFromNoise items now)
  = map Filter64.asNoise
      (filter (fun i => negb (PrimFloat.leb 0.5 (calculateSignalScore i))) items).
Proof.
  unfold Filter64.filterSignalFromNoise. cbn [Filter64.noise].
  rewrite filter64_loop. reflexivity.
Qed.

Lemma map_sc_item_high64 (now : Z) (l : list Item) :
  map Filter64.sc_item (map (Filter64.asHighSignal now) l) = l.
Proof. rewrite map_map. cbn. apply map_id. Qed.

Lemma map_sc_item_noise64 (l : list Item) :
  map Filter64.sc_item (map Filter64.asNoise l) = l.
Proof. rewrite map_map. cbn. apply map_id. Qed.

(** C9: the two buckets together hold every input item once (the lengths
    add up, the items and hence their source ids are a permutation of the
    input); the high-signal bucket holds the items with signalScore >= 0.5,
    each with its signal score and its impact score, and the noise bucket
    the others, in input order; and in the high-signal bucket no element
    is followed by one with a greater impact score (the difference the
    comparator computes is not above 0).  Of a short rant, an item with
    impact 5.4, a praise with impact 5.8 and the sync item with impact
    9.7, in this order, the rant with signal score 0.09999999999999998 is
    the noise and the others come back as sync, praise, quiet item. *)
Theorem filterSignalFromNoise_partition :
  (forall (items : list Item) (now : Z),
     let r := Filter64.filterSignalFromNoise items now in
     (List.length (Filter64.highSignal r) + List.length (Filter64.noise r)
      = List.length items)%nat
     /\ Permutation
          (map Filter64.sc_item (Filter64.highSignal r ++ Filter64.noise r))
          items
     /\ Permutation
          (map (fun x => sourceId_of (Filter64.sc_item x))
             (Filter64.highSignal r ++ Filter64.noise r))
          (map sourceId_of items)
     /\ Permutation (map Filter64.sc_item (Filter64.highSignal r))
          (filter (fun i => PrimFloat.leb 0.5 (calculateSignalScore i)) items)
     /\ map Filter64.sc_item (Filter64.noise r)
        = filter (fun i => negb (PrimFloat.leb 0.5 (calculateSignalScore i)))
            items
     /\ (forall x, In x (Filter64.highSignal r) ->
           Filter64.sc_signalScore x = calculateSignalScore (Filter64.sc_item x)
           /\ PrimFloat.leb 0.5 (Filter64.sc_signalScore x) = true
           /\ Filter64.sc_impactScore x
              = Some (Engine64.calculateImpactScore (Filter64.sc_item x) now))
     /\ (forall x, In x (Filter64.noise r) ->
           Filter64.sc_signalScore x = calculateSignalScore (Filter64.sc_item x)
           /\ PrimFloat.leb 0.5 (Filter64.sc_signalScore x) = false)
     /\ Sorted
          (fun a b =>
             PrimFloat.ltb 0
               (Filter64.impactScore_of b - Filter64.impactScore_of a)
             = false)
          (Filter64.highSignal r))
  /\ Filter64.filterSignalFromNoise
       [Samples.rantItem; Samples64.quietItem; Samples.praiseRequestItem;
        Samples.syncItem] Samples.now
     = {| Filter64.highSignal :=
            [ {| Filter64.sc_item := Samples.syncItem;
                 Filter64.sc_signalScore := 1;
                 Filter64.sc_impactScore := Some 9.7%float |};
              {| Filter64.sc_item := Samples.praiseRequestItem;
                 Filter64.sc_signalScore := 0.65;
                 Filter64.sc_impactScore := Some 5.8%float |};
              {| Filter64.sc_item := Samples64.quietItem;
                 Filter64.sc_signalScore := 0.7;
                 Filter64.sc_impactScore := Some 5.4%float |} ];
          Filter64.noise :=
            [ {| Filter64.sc_item := Samples.rantItem;
                 Filter64.sc_signalScore := 0.09999999999999998;
                 Filter64.sc_impactScore := None |} ] |}.
Proof.
  split; [|vm_compute; reflexivity].
  intros items now r.
  pose proof (highSignal64_perm items now) as Hhigh. fold r in Hhigh.
  pose proof (noise64_eq items now) as Hnoise. fold r in Hnoise.
  assert (Hh : Permutation (map Filter64.sc_item (Filter64.highSignal r))
                 (filter (fun i => PrimFloat.leb 0.5 (calculateSignalScore i))
                    items)).
  { rewrite <- (map_sc_item_high64 now
                  (filter (fun i => PrimFloat.leb 0.5 (calculateSignalScore i))
                     items)).
    apply Permutation_map, Hhigh. }
  assert (Hn : map Filter64.sc_item (Filter64.noise r)
               = filter (fun i => negb (PrimFloat.leb 0.5 (calculateSignalScore i)))
                   items).
  { rewrite Hnoise. apply map_sc_item_noise64. }
  assert (Hall : Permutation
                   (map Filter64.sc_item
                      (Filter64.highSignal r ++ Filter64.noise r)) items).
  { rewrite map_app, Hn.
    eapply perm_trans; [apply Permutation_app_tail, Hh|].
    apply (filter_split_perm
             (fun i => PrimFloat.leb 0.5 (calculateSignalScore i))). }
  split; [|split; [|split; [|split; [|split; [|split; [|split]]]]]].
  - apply Permutation_length in Hall.
    rewrite length_map, length_app in Hall. exact Hall.
  - exact Hall.
  - rewrite <- (map_map Filter64.sc_item sourceId_of).
    apply Permutation_map, Hall.
  - exact Hh.
  - exact Hn.
  - intros x Hx.
    apply (Permutation_in _ Hhigh) in Hx. apply in_map_iff in Hx.
    destruct Hx as (item & <- & Hitem). apply filter_In in Hitem.
    split; [reflexivity|]. split; [apply Hitem | reflexivity].
  - intros x Hx. rewrite Hnoise in Hx. apply in_map_iff in Hx.
    destruct Hx as (item & <- & Hitem). apply filter_In in Hitem.
    destruct Hitem as [_ Hneg]. apply negb_true_iff in Hneg.
    split; [reflexivity | exact Hneg].
  - unfold r, Filter64.filterSignalFromNoise. cbn [Filter64.highSignal].
    apply (sort64_sorted Filter64.impactScore_of).
Qed.

(** The theorem at the list of the short rant and the sync item: the two
    buckets hold one element each, the sync item above the threshold and
    the rant below it. *)
Lemma filterSignalFromNoise_partition_witness :
  let r :=
    Filter64.filterSignalFromNoise [Samples.rantItem; Samples.syncItem]
      Samples.now in
  map Filter64.sc_item (Filter64.highSignal r) = [Samples.syncItem]
  /\ map Filter64.sc_item (Filter64.noise r) = [Samples.rantItem]
  /\ Forall (fun x => PrimFloat.leb 0.5 (Filter64.sc_signalScore x) = true)
       (Filter64.highSignal r)
  /\ Forall (fun x => PrimFloat.leb 0.5 (Filter64.sc_signalScore x) = false)
       (Filter64.noise r).
Proof.
  intros r.
  pose proof (proj1 filterSignalFromNoise_partition
                [Samples.rantItem; Samples.syncItem] Samples.now) as H.
  cbv zeta in H. fold r in H.
  destruct H as (_ & _ & _ & Hhigh & Hnoise & Hin & Hout & _).
  split; [|split; [|split]].
  - vm_compute. reflexivity.
  - rewrite Hnoise. vm_compute. reflexivity.
  - apply Forall_forall. intros x Hx. apply (Hin x Hx).
  - apply Forall_forall. intros x Hx. apply (Hout x Hx).
Defined.

(** C3 as stated fails: the element that the short rant leaves in the
    noise bucket carries no impact data. *)
Lemma noise_without_impactData_counterexample :
  ~ (forall (items : list Item) (now : Z) (x : ScoredItem),
       In x (highSignal (filterSignalFromNoise items now)
             ++ noise (filterSignalFromNoise items now)) ->
       sc_impactData x
       = Some (calculateImpactScore (sc_item x) (List.length items) now)).
Proof.
  intros H.
  specialize (H [Samples.rantItem] Samples.now (asNoise Samples.rantItem)).
  assert (Hin : In (asNoise Samples.rantItem)
                  (highSignal (filterSignalFromNoise [Samples.rantItem] Samples.now)
                   ++ noise (filterSignalFromNoise [Samples.rantItem] Samples.now))).
  { vm_compute. left. reflexivity. }
  specialize (H Hin). discriminate H.
Qed.

(** C3, amended: the impact data is computed for every item, and every
    element of the high-signal bucket carries the impact data computed for
    its item with the input length as corpus size; an element of the noise
    bucket carries its signal score and no impact data. *)
Theorem filterSignalFromNoise_impactData :
  forall (items : list Item) (now : Z) (x : ScoredItem),
    (In x (highSignal (filterSignalFromNoise items now)) ->
       sc_impactData x
       = Some (calculateImpactScore (sc_item x) (List.length items) now))
    /\ (In x (noise (filterSignalFromNoise items now)) ->
          sc_impactData x = None
          /\ sc_signalScore x = calculateSignalScore (sc_item x)).
Proof.
  intros items now x. split; intros Hx.
  - apply (Permutation_in _ (highSignal_perm items now)) in Hx.
    apply in_map_iff in Hx. destruct Hx as (item & <- & _). reflexivity.
  - rewrite noise_eq in Hx. apply in_map_iff in Hx.
    destruct Hx as (item & <- & _). split; reflexivity.
Qed.

(** The amended statement at the list of a short rant and the sync item. *)
Lemma filterSignalFromNoise_impactData_witness :
  sc_impactData (asHighSignal 2 Samples.now Samples.syncItem)
  = Some (calculateImpactScore Samples.syncItem 2 Samples.now)
  /\ sc_impactData (asNoise Samples.rantItem) = None.
Proof.
  split.
  - apply (proj1 (filterSignalFromNoise_impactData
                    [Samples.rantItem; Samples.syncItem] Samples.now
                    (asHighSignal 2 Samples.now Samples.syncItem))).
    vm_compute. left. reflexivity.
  - apply (proj2 (filterSignalFromNoise_impactData
                    [Samples.rantItem; Samples.syncItem] Samples.now
                    (asNoise Samples.rantItem))).
    vm_compute. left. reflexivity.
Defined.

(** ** Maps in insertion order *)

Lemma map_get_in {V : Type} (key : string) (m : JsMap V) (v : V) :
  map_get key m = Some v -> In (key, v) m.
Proof.
  induction m as [|[k w] m IH]; cbn; [discriminate|].
  destruct (String.eqb_spec key k) as [->|Hne].
  - intros [= ->]. now left.
  - intros H. right. now apply IH.
Qed.

Lemma map_get_none {V : Type} (key : string) (m : JsMap V) :
  map_get key m = None <-> ~ In key (map fst m).
Proof.
  induction m as [|[k w] m IH]; cbn.
  - split; [intros _ [] | reflexivity].
  - destruct (String.eqb_spec key k) as [->|Hne].
    + split; [discriminate | intros H; exfalso; apply H; now left].
    + rewrite IH. split; [intros H [E|Hin]; [now subst | now apply H]
                         | intros H Hin; apply H; now right].
Qed.

Lemma map_get_nodup {V : Type} (key : string) (m : JsMap V) (v : V) :
  NoDup (map fst m) -> In (key, v) m -> map_get key m = Some v.
Proof.
  induction m as [|[k w] m IH]; cbn; [intros _ []|].
  intros Hnd Hin. inversion Hnd as [|? ? Hk Hnd']; subst.
  destruct Hin as [[= -> ->]|Hin].
  - now rewrite String.eqb_refl.
  - destruct (String.eqb_spec key k) as [->|Hne].
    + exfalso. apply Hk. apply in_map_iff. now exists (k, v).
    + now apply IH.
Qed.

Lemma map_set_keys {V : Type} (key : string) (v : V) (m : JsMap V) :
  In key (map fst m) -> map fst (map_set key v m) = map fst m.
Proof.
  induction m as [|[k w] m IH]; cbn; [intros []|].
  destruct (String.eqb_spec key k) as [->|Hne]; cbn; [reflexivity|].
  intros [E|Hin]; [now contradiction Hne|]. now rewrite IH.
Qed.

Lemma map_set_fresh {V : Type} (key : string) (v : V) (m : JsMap V) :
  ~ In key (map fst m) -> map_set key v m = m ++ [(key, v)].
Proof.
  induction m as [|[k w] m IH]; cbn; [reflexivity|].
  intros Hnot. destruct (String.eqb_spec key k) as [->|Hne].
  - exfalso. apply Hnot. now left.
  - f_equal. apply IH. intros Hin. apply Hnot. now right.
Qed.

Lemma map_set_in {V : Type} (key : string) (v : V) (m : JsMap V) (e : string * V) :
  In e (map_set key v m) -> e = (key, v) \/ In e m.
Proof.
  induction m as [|[k w] m IH]; cbn.
  - intros [<-|[]]. now left.
  - destruct (String.eqb_spec key k) as [->|Hne]; cbn.
    + intros [<-|Hin]; [now left | right; now right].
    + intros [<-|Hin]; [right; now left|].
      destruct (IH Hin) as [->|H]; [now left | right; now right].
Qed.

Lemma map_set_wf (fa : AreaRec) (m : JsMap AreaRec) :
  wfMap m -> wfMap (map_set (areaKey fa) fa m).
Proof.
  intros [Hnd Hall]. split.
  - destruct (in_dec string_dec (areaKey fa) (map fst m)) as [Hin|Hnot].
    + now rewrite map_set_keys.
    + rewrite map_set_fresh, map_app by exact Hnot. cbn.
      apply NoDup_app; [exact Hnd | repeat constructor; intros [] |].
      intros k Hk [<-|[]]. now apply Hnot.
  - apply Forall_forall. intros e He.
    destruct (map_set_in _ _ _ _ He) as [->|Hin]; [reflexivity|].
    rewrite Forall_forall in Hall. now apply Hall.
Qed.

Lemma areaMap_loop (l : list AreaRec) :
  forall m : JsMap AreaRec,
    wfMap m ->
    let m' := fold_left (fun m kv => map_set (fst kv) (snd kv) m)
                (map (fun fa => (areaKey fa, fa)) l) m in
    wfMap m'
    /\ (forall k, In k (map fst m') <-> In k (map fst m) \/ In k (map areaKey l))
    /\ (forall e, In e m' -> In e m \/ In (snd e) l).
Proof.
  induction l as [|fa l IH]; intros m Hwf; cbn.
  - split; [exact Hwf|]. split; [intros k; tauto | intros e; tauto].
  - destruct (IH (map_set (areaKey fa) fa m) (map_set_wf fa m Hwf))
      as (Hwf' & Hkeys & Hin).
    split; [exact Hwf'|]. split.
    + intros k. rewrite Hkeys.
      destruct (in_dec string_dec (areaKey fa) (map fst m)) as [Hfa|Hfa].
      * rewrite map_set_keys by exact Hfa.
        split; [tauto|]. intros [H|[<-|H]]; tauto.
      * rewrite map_set_fresh, map_app, in_app_iff by exact Hfa. cbn. tauto.
    + intros e He. destruct (Hin e He) as [H|H]; [|right; now right].
      destruct (map_set_in _ _ _ _ H) as [->|H']; [right; now left | now left].
Qed.

Lemma wfMap_nil : wfMap [].
Proof. split; constructor. Qed.

Lemma areaMap_wf (l : list AreaRec) : wfMap (areaMap l).
Proof. apply (areaMap_loop l [] wfMap_nil). Qed.

Lemma areaMap_keys (l : list AreaRec) (k : string) :
  In k (map fst (areaMap l)) <-> In k (map areaKey l).
Proof.
  destruct (areaMap_loop l [] wfMap_nil) as (_ & Hkeys & _).
  rewrite (Hkeys k). cbn. tauto.
Qed.


(** ** The two loops of the comparison *)

Lemma bucketKeys_app (a b : list Change) :
  bucketKeys (a ++ b) = bucketKeys a ++ bucketKeys b.
Proof. apply map_app. Qed.

Lemma compareStep_keys (pm : JsMap AreaRec) (ch : Changes)
  (e : string * AreaRec) (t : ChangeType) :
  areaKey (snd e) = fst e ->
  bucketKeys (bucket t (compareStep pm ch e))
  = bucketKeys (bucket t ch)
    ++ (if changeType_eqb t (bucketOfEntry pm e) then [fst e] else []).
Proof.
  intros Hkey. unfold compareStep, bucketOfEntry, Spec.classify.
  fold (freqDelta_of (snd e)). fold (impactDelta_of (snd e)).
  destruct (map_get (fst e) pm) as [p|].
  - fold (freqDelta_of (snd e) p). fold (impactDelta_of (snd e) p).
    destruct ((freqDelta_of (snd e) p <? -2)%Z
              || Qltb (impactDelta_of (snd e) p) (-1));
      [|destruct ((2 <? freqDelta_of (snd e) p)%Z
                  || Qltb 1 (impactDelta_of (snd e) p))];
      destruct t; cbn [bucket changeType_eqb newIssues improvedIssues
                         worsenedIssues resolvedIssues stableIssues];
      rewrite ?bucketKeys_app, ?app_nil_r; cbn; rewrite ?Hkey; reflexivity.
  - destruct t; cbn [bucket changeType_eqb newIssues improvedIssues
                       worsenedIssues resolvedIssues stableIssues];
      rewrite ?bucketKeys_app, ?app_nil_r; cbn; rewrite ?Hkey; reflexivity.
Qed.

Lemma compareLoop_keys (pm : JsMap AreaRec) (t : ChangeType)
  (l : list (string * AreaRec)) :
  Forall (fun e => areaKey (snd e) = fst e) l ->
  forall ch : Changes,
    bucketKeys (bucket t (fold_left (compareStep pm) l ch))
    = bucketKeys (bucket t ch)
      ++ map fst (filter (fun e => changeType_eqb t (bucketOfEntry pm e)) l).
Proof.
  induction 1 as [|e l He Hl IH]; intros ch; cbn [fold_left filter map].
  - now rewrite app_nil_r.
  - rewrite IH, (compareStep_keys pm ch e t He), <- app_assoc.
    now destruct (changeType_eqb t (bucketOfEntry pm e)).
Qed.

Lemma resolveStep_keys (cm : JsMap AreaRec) (ch : Changes)
  (e : string * AreaRec) (t : ChangeType) :
  areaKey (snd e) = fst e ->
  bucketKeys (bucket t (resolveStep cm ch e))
  = bucketKeys (bucket t ch)
    ++ (if changeType_eqb t Resolved && negb (map_has (fst e) cm)
        then [fst e] else []).
Proof.
  intros Hkey. unfold resolveStep.
  destruct (negb (map_has (fst e) cm));
    destruct t; cbn [bucket changeType_eqb andb newIssues improvedIssues
                       worsenedIssues resolvedIssues stableIssues];
    rewrite ?bucketKeys_app, ?app_nil_r; cbn; rewrite ?Hkey; reflexivity.
Qed.

Lemma resolveLoop_keys (cm : JsMap AreaRec) (t : ChangeType)
  (l : list (string * AreaRec)) :
  Forall (fun e => areaKey (snd e) = fst e) l ->
  forall ch : Changes,
    bucketKeys (bucket t (fold_left (resolveStep cm) l ch))
    = bucketKeys (bucket t ch)
      ++ map fst (filter (fun e => changeType_eqb t Resolved
                                   && negb (map_has (fst e) cm)) l).
Proof.
  induction 1 as [|e l He Hl IH]; intros ch; cbn [fold_left filter map].
  - now rewrite app_nil_r.
  - rewrite IH, (resolveStep_keys cm ch e t He), <- app_assoc.
    now destruct (changeType_eqb t Resolved && negb (map_has (fst e) cm)).
Qed.

(** The keys of every bucket of a comparison. *)
Lemma computeChanges_keys (cur prev : list AreaRec) (t : ChangeType) :
  bucketKeys (bucket t (computeChanges cur prev))
  = map fst (filter (fun e => changeType_eqb t (bucketOfEntry (areaMap prev) e))
               (areaMap cur))
    ++ map fst (filter (fun e => changeType_eqb t Resolved
                                 && negb (map_has (fst e) (areaMap cur)))
                  (areaMap prev)).
Proof.
  unfold computeChanges.
  rewrite resolveLoop_keys by apply areaMap_wf.
  rewrite compareLoop_keys by apply areaMap_wf.
  destruct t; reflexivity.
Qed.

Lemma bucketOfEntry_not_resolved (pm : JsMap AreaRec) (e : string * AreaRec) :
  bucketOfEntry pm e <> Resolved.
Proof.
  unfold bucketOfEntry, Spec.classify.
  destruct (map_get (fst e) pm) as [p|]; [|discriminate].
  destruct (_ || _); [discriminate|]. destruct (_ || _); discriminate.
Qed.

Lemma count_filter_by_key {V : Type} (q : string -> bool) (k : string)
  (l : list (string * V)) :
  count_occ string_dec (map fst (filter (fun e => q (fst e)) l)) k
  = if q k then count_occ string_dec (map fst l) k else 0%nat.
Proof.
  induction l as [|[k' v] l IH]; cbn [filter map fst].
  - cbn. now destruct (q k).
  - destruct (string_dec k' k) as [->|Hne].
    + destruct (q k) eqn:Hq.
      * cbn [map fst]. rewrite !count_occ_cons_eq by reflexivity.
        now rewrite IH.
      * exact IH.
    + rewrite (count_occ_cons_neq _ (map fst l) Hne).
      destruct (q k'); [|exact IH].
      cbn [map fst]. now rewrite (count_occ_cons_neq _ _ Hne).
Qed.

Lemma count_first_loop (pm : JsMap AreaRec) (k : string)
  (l : list (string * AreaRec)) :
  (count_occ string_dec
     (map fst (filter (fun e => changeType_eqb New (bucketOfEntry pm e)) l)) k
   + count_occ string_dec
       (map fst (filter (fun e => changeType_eqb Improved (bucketOfEntry pm e)) l)) k
   + count_occ string_dec
       (map fst (filter (fun e => changeType_eqb Worsened (bucketOfEntry pm e)) l)) k
   + count_occ string_dec
       (map fst (filter (fun e => changeType_eqb Stable (bucketOfEntry pm e)) l)) k
   = count_occ string_dec (map fst l) k)%nat.
Proof.
  induction l as [|e l IH]; [reflexivity|].
  cbn [filter map]. pose proof (bucketOfEntry_not_resolved pm e) as Hnr.
  cbn [changeType_eqb] in IH.
  destruct (string_dec (fst e) k) as [E|Hne].
  - rewrite (count_occ_cons_eq _ (map fst l) E).
    destruct (bucketOfEntry pm e); cbn [changeType_eqb map];
      [| | |now contradiction Hnr|];
      rewrite (count_occ_cons_eq _ _ E); lia.
  - rewrite (count_occ_cons_neq _ (map fst l) Hne).
    destruct (bucketOfEntry pm e); cbn [changeType_eqb map];
      [| | |now contradiction Hnr|];
      rewrite (count_occ_cons_neq _ _ Hne); lia.
Qed.

Lemma filter_false {A : Type} (l : list A) : filter (fun _ => false) l = [].
Proof. induction l; cbn; auto. Qed.

Lemma filter_none {A : Type} (f : A -> bool) (l : list A) :
  (forall a, In a l -> f a = false) -> filter f l = [].
Proof.
  intros H. induction l as [|a l IH]; cbn; [reflexivity|].
  rewrite (H a (or_introl eq_refl)). apply IH. intros b Hb. apply H. now right.
Qed.

Lemma filter_not_resolved (pm : JsMap AreaRec) (l : list (string * AreaRec)) :
  filter (fun e => changeType_eqb Resolved (bucketOfEntry pm e)) l = [].
Proof.
  induction l as [|e l IH]; [reflexivity|]. cbn [filter].
  pose proof (bucketOfEntry_not_resolved pm e).
  destruct (bucketOfEntry pm e); cbn; auto. contradiction.
Qed.

Lemma map_has_true {V : Type} (k : string) (m : JsMap V) :
  map_has k m = true <-> In k (map fst m).
Proof.
  unfold map_has. destruct (map_get k m) eqn:E.
  - split; [intros _|reflexivity]. apply map_get_in in E.
    apply in_map_iff. now exists (k, v).
  - split; [discriminate|]. intros Hin. now apply map_get_none in E.
Qed.

Lemma firstLoop_keys (cur prev : list AreaRec) (t : ChangeType) :
  t <> Resolved ->
  bucketKeys (bucket t (computeChanges cur prev))
  = map fst (filter (fun e => changeType_eqb t (bucketOfEntry (areaMap prev) e))
               (areaMap cur)).
Proof.
  intros Ht. rewrite computeChanges_keys.
  rewrite (filter_ext
             (fun e => changeType_eqb t Resolved
                       && negb (map_has (fst e) (areaMap cur)))
             (fun _ => false)), filter_false;
    [cbn [map]; now rewrite app_nil_r|].
  intros e. destruct t; try reflexivity. now contradiction Ht.
Qed.

Lemma secondLoop_keys (cur prev : list AreaRec) :
  bucketKeys (resolvedIssues (computeChanges cur prev))
  = map fst (filter (fun e => negb (map_has (fst e) (areaMap cur)))
               (areaMap prev)).
Proof.
  change (resolvedIssues (computeChanges cur prev))
    with (bucket Resolved (computeChanges cur prev)).
  rewrite computeChanges_keys, filter_not_resolved. reflexivity.
Qed.

(** Every key is counted once over the five buckets. *)
Lemma occurrences_computeChanges (cur prev : list AreaRec) (k : string) :
  occurrences k (computeChanges cur prev)
  = (count_occ string_dec (map fst (areaMap cur)) k
     + (if map_has k (areaMap cur) then 0
        else count_occ string_dec (map fst (areaMap prev)) k))%nat.
Proof.
  unfold occurrences.
  rewrite secondLoop_keys.
  change (newIssues (computeChanges cur prev))
    with (bucket New (computeChanges cur prev)).
  change (improvedIssues (computeChanges cur prev))
    with (bucket Improved (computeChanges cur prev)).
  change (worsenedIssues (computeChanges cur prev))
    with (bucket Worsened (computeChanges cur prev)).
  change (stableIssues (computeChanges cur prev))
    with (bucket Stable (computeChanges cur prev)).
  rewrite (firstLoop_keys cur prev New) by discriminate.
  rewrite (firstLoop_keys cur prev Improved) by discriminate.
  rewrite (firstLoop_keys cur prev Worsened) by discriminate.
  rewrite (firstLoop_keys cur prev Stable) by discriminate.
  rewrite (count_filter_by_key (fun key => negb (map_has key (areaMap cur)))).
  pose proof (count_first_loop (areaMap prev) k (areaMap cur)) as H.
  destruct (map_has k (areaMap cur)); cbn [negb]; lia.
Qed.

Lemma Qltb_lt (x y : Q) : Qltb x y = true <-> x < y.
Proof.
  unfold Qltb. rewrite negb_true_iff. split.
  - intros H. apply Qnot_le_lt. intros Hle.
    apply Qle_bool_iff in Hle. congruence.
  - intros H. destruct (Qle_bool y x) eqn:E; [|reflexivity].
    apply Qle_bool_iff in E. lra.
Qed.

Lemma classify_improved (fd : Z) (id : Q) :
  Spec.classify fd id = Improved <-> (fd < -2)%Z \/ id < -1.
Proof.
  unfold Spec.classify.
  destruct ((fd <? -2)%Z || Qltb id (-1)) eqn:E.
  - split; [intros _|reflexivity].
    apply orb_true_iff in E. rewrite Z.ltb_lt, Qltb_lt in E. exact E.
  - split.
    + destruct ((2 <? fd)%Z || Qltb 1 id); discriminate.
    + intros H. rewrite <- Z.ltb_lt, <- Qltb_lt, <- orb_true_iff in H. congruence.
Qed.

Lemma changeType_eqb_eq (a b : ChangeType) : changeType_eqb a b = true <-> a = b.
Proof. destruct a, b; cbn; split; congruence. Qed.

Lemma compareSyntheses_returns (current previous : Synthesis) (nowIso : string)
  (cur prev : list AreaRec) :
  syn_focusAreas current = Some cur ->
  syn_focusAreas previous = Some prev ->
  exists cmp : Comparison,
    compareSyntheses current (Some previous) nowIso = Returned cmp
    /\ isFirstRun cmp = false
    /\ changes cmp = Some (computeChanges cur prev)
    /\ trends cmp
       = Some (calculateOverallTrends current previous (computeChanges cur prev)).
Proof.
  intros Hc Hp. unfold compareSyntheses. rewrite Hc, Hp.
  eexists. repeat split.
Qed.

Lemma occurrences_unique (k : string) (ch : Changes) :
  occurrences k ch = 1%nat ->
  exists t : ChangeType,
    In k (bucketKeys (bucket t ch))
    /\ forall t', In k (bucketKeys (bucket t' ch)) -> t' = t.
Proof.
  unfold occurrences. intros H.
  pose proof (count_occ_In string_dec (bucketKeys (newIssues ch)) k) as Hn.
  pose proof (count_occ_In string_dec (bucketKeys (improvedIssues ch)) k) as Hi.
  pose proof (count_occ_In string_dec (bucketKeys (worsenedIssues ch)) k) as Hw.
  pose proof (count_occ_In string_dec (bucketKeys (resolvedIssues ch)) k) as Hr.
  pose proof (count_occ_In string_dec (bucketKeys (stableIssues ch)) k) as Hs.
  destruct (count_occ string_dec (bucketKeys (newIssues ch)) k) as [|n] eqn:En;
  destruct (count_occ string_dec (bucketKeys (improvedIssues ch)) k) as [|i] eqn:Ei;
  destruct (count_occ string_dec (bucketKeys (worsenedIssues ch)) k) as [|w] eqn:Ew;
  destruct (count_occ string_dec (bucketKeys (resolvedIssues ch)) k) as [|r] eqn:Er;
  destruct (count_occ string_dec (bucketKeys (stableIssues ch)) k) as [|s] eqn:Es;
    try lia.
  - exists Stable. split; [apply Hs; lia|].
    intros [] Hin; cbn [bucket] in Hin; try reflexivity;
      [apply Hn in Hin | apply Hi in Hin | apply Hw in Hin | apply Hr in Hin]; lia.
  - exists Resolved. split; [apply Hr; lia|].
    intros [] Hin; cbn [bucket] in Hin; try reflexivity;
      [apply Hn in Hin | apply Hi in Hin | apply Hw in Hin | apply Hs in Hin]; lia.
  - exists Worsened. split; [apply Hw; lia|].
    intros [] Hin; cbn [bucket] in Hin; try reflexivity;
      [apply Hn in Hin | apply Hi in Hin | apply Hr in Hin | apply Hs in Hin]; lia.
  - exists Improved. split; [apply Hi; lia|].
    intros [] Hin; cbn [bucket] in Hin; try reflexivity;
      [apply Hn in Hin | apply Hw in Hin | apply Hr in Hin | apply Hs in Hin]; lia.
  - exists New. split; [apply Hn; lia|].
    intros [] Hin; cbn [bucket] in Hin; try reflexivity;
      [apply Hi in Hin | apply Hw in Hin | apply Hr in Hin | apply Hs in Hin]; lia.
Qed.

(** C7: the comparison of a current set of focus areas with a previous
    snapshot returns, and every key (category:title) of a current or of a
    previous focus area is the key of exactly one entry of the five buckets
    together, hence appears in exactly one bucket. *)
Theorem compareSyntheses_buckets_partition :
  forall (current previous : Synthesis) (nowIso : string)
         (cur prev : list AreaRec),
    syn_focusAreas current = Some cur ->
    syn_focusAreas previous = Some prev ->
    exists (cmp : Comparison) (ch : Changes),
      compareSyntheses current (Some previous) nowIso = Returned cmp
      /\ changes cmp = Some ch
      /\ forall k : string,
           In k (map areaKey cur) \/ In k (map areaKey prev) ->
           occurrences k ch = 1%nat
           /\ exists t : ChangeType,
                In k (bucketKeys (bucket t ch))
                /\ forall t', In k (bucketKeys (bucket t' ch)) -> t' = t.
Proof.
  intros current previous nowIso cur prev Hc Hp.
  destruct (compareSyntheses_returns current previous nowIso cur prev Hc Hp)
    as (cmp & Hret & _ & Hch & _).
  exists cmp, (computeChanges cur prev). split; [exact Hret|].
  split; [exact Hch|]. intros k Hk.
  assert (Hone : occurrences k (computeChanges cur prev) = 1%nat).
  { rewrite occurrences_computeChanges.
    destruct (map_has k (areaMap cur)) eqn:Hhas.
    - apply map_has_true in Hhas.
      rewrite (proj1 (NoDup_count_occ' string_dec _) (proj1 (areaMap_wf cur)) k Hhas).
      reflexivity.
    - assert (Hnot : ~ In k (map fst (areaMap cur))).
      { rewrite <- map_has_true. congruence. }
      rewrite (proj1 (count_occ_not_In string_dec _ k) Hnot).
      destruct Hk as [Hk|Hk]; [now apply areaMap_keys in Hk|].
      apply areaMap_keys in Hk.
      apply (proj1 (NoDup_count_occ' string_dec _) (proj1 (areaMap_wf prev)) k Hk). }
  split; [exact Hone | now apply occurrences_unique].
Qed.

(** The theorem at the sync area of the current and of the previous run. *)
Lemma compareSyntheses_buckets_partition_witness :
  exists (cmp : Comparison) (ch : Changes),
    compareSyntheses (Samples.snapshot [Samples.currentSync])
      (Some (Samples.snapshot [Samples.previousSync])) "now"%string = Returned cmp
    /\ changes cmp = Some ch
    /\ occurrences "bug:Sync" ch = 1%nat.
Proof.
  destruct (compareSyntheses_buckets_partition
              (Samples.snapshot [Samples.currentSync])
              (Samples.snapshot [Samples.previousSync]) "now"%string
              [Samples.currentSync] [Samples.previousSync] eq_refl eq_refl)
    as (cmp & ch & Hret & Hch & Hk).
  exists cmp, ch. split; [exact Hret|]. split; [exact Hch|].
  apply Hk. left. cbn. left. reflexivity.
Defined.

(** ** The comparison in binary64 *)

Lemma map_set_wf64 (fa : Comparison64.AreaRec) (m : JsMap Comparison64.AreaRec) :
  Comparison64.wfMap m ->
  Comparison64.wfMap (map_set (Comparison64.areaKey fa) fa m).
Proof.
  intros [Hnd Hall]. split.
  - destruct (in_dec string_dec (Comparison64.areaKey fa) (map fst m))
      as [Hin|Hnot].
    + now rewrite map_set_keys.
    + rewrite map_set_fresh, map_app by exact Hnot. cbn.
      apply NoDup_app; [exact Hnd | repeat constructor; intros [] |].
      intros k Hk [<-|[]]. now apply Hnot.
  - apply Forall_forall. intros e He.
    destruct (map_set_in _ _ _ _ He) as [->|Hin]; [reflexivity|].
    rewrite Forall_forall in Hall. now apply Hall.
Qed.

Lemma areaMap64_loop (l : list Comparison64.AreaRec) :
  forall m : JsMap Comparison64.AreaRec,
    Comparison64.wfMap m ->
    let m' := fold_left (fun m kv => map_set (fst kv) (snd kv) m)
                (map (fun fa => (Comparison64.areaKey fa, fa)) l) m in
    Comparison64.wfMap m'
    /\ (forall k, In k (map fst m')
                  <-> In k (map fst m) \/ In k (map Comparison64.areaKey l))
    /\ (forall e, In e m' -> In e m \/ In (snd e) l).
Proof.
  induction l as [|fa l IH]; intros m Hwf; cbn.
  - split; [exact Hwf|]. split; [intros k; tauto | intros e; tauto].
  - destruct (IH (map_set (Comparison64.areaKey fa) fa m) (map_set_wf64 fa m Hwf))
      as (Hwf' & Hkeys & Hin).
    split; [exact Hwf'|]. split.
    + intros k. rewrite Hkeys.
      destruct (in_dec string_dec (Comparison64.areaKey fa) (map fst m))
        as [Hfa|Hfa].
      * rewrite map_set_keys by exact Hfa.
        split; [tauto|]. intros [H|[<-|H]]; tauto.
      * rewrite map_set_fresh, map_app, in_app_iff by exact Hfa. cbn. tauto.
    + intros e He. destruct (Hin e He) as [H|H]; [|right; now right].
      destruct (map_set_in _ _ _ _ H) as [->|H']; [right; now left | now left].
Qed.

Lemma wfMap64_nil : Comparison64.wfMap [].
Proof. split; constructor. Qed.

Lemma areaMap64_wf (l : list Comparison64.AreaRec) :
  Comparison64.wfMap (Comparison64.areaMap l).
Proof. apply (areaMap64_loop l [] wfMap64_nil). Qed.

Lemma areaMap64_keys (l : list Comparison64.AreaRec) (k : string) :
  In k (map fst (Comparison64.areaMap l)) <-> In k (map Comparison64.areaKey l).
Proof.
  destruct (areaMap64_loop l [] wfMap64_nil) as (_ & Hkeys & _).
  rewrite (Hkeys k). cbn. tauto.
Qed.


Lemma areaMap64_entry (l : list Comparison64.AreaRec)
  (e : string * Comparison64.AreaRec) :
  In e (Comparison64.areaMap l) ->
  Comparison64.areaKey (snd e) = fst e
  /\ map_get (fst e) (Comparison64.areaMap l) = Some (snd e).
Proof.
  intros He. destruct (areaMap64_wf l) as [Hnd Hall].
  rewrite Forall_forall in Hall. split; [now apply Hall|].
  apply map_get_nodup; [exact Hnd|]. now destruct e.
Qed.


(** The entry pushed for an entry of the current map, by cases. *)
Lemma pushed_spec (pm : JsMap Comparison64.AreaRec)
  (e : string * Comparison64.AreaRec) :
  Comparison64.ch_area (Comparison64.pushed pm e) = snd e
  /\ match map_get (fst e) pm with
     | None =>
         Comparison64.ch_changeType (Comparison64.pushed pm e) = New
         /\ Comparison64.ch_previousFrequency (Comparison64.pushed pm e) = None
         /\ Comparison64.ch_frequencyDelta (Comparison64.pushed pm e) = None
         /\ Comparison64.ch_impactDelta (Comparison64.pushed pm e) = None
         /\ Comparison64.ch_insight (Comparison64.pushed pm e) <> None
     | Some p =>
         let freqDelta :=
           (Comparison64.ar_frequency (snd e) - Comparison64.ar_frequency p)%Z in
         let impactDelta :=
           (orNumber (Comparison64.ar_impactScore (snd e)) 0
            - orNumber (Comparison64.ar_impactScore p) 0)%float in
         Comparison64.ch_changeType (Comparison64.pushed pm e)
         = (if (freqDelta <? -2)%Z || PrimFloat.ltb impactDelta (-1) then Improved
            else if (2 <? freqDelta)%Z || PrimFloat.ltb 1 impactDelta then Worsened
            else Stable)
         /\ Comparison64.ch_previousFrequency (Comparison64.pushed pm e)
            = Some (Comparison64.ar_frequency p)
         /\ Comparison64.ch_frequencyDelta (Comparison64.pushed pm e)
            = Some freqDelta
         /\ Comparison64.ch_impactDelta (Comparison64.pushed pm e)
            = Some impactDelta
         /\ (Comparison64.ch_insight (Comparison64.pushed pm e) = None
             <-> (freqDelta <? -2)%Z || PrimFloat.ltb impactDelta (-1) = false
                 /\ (2 <? freqDelta)%Z || PrimFloat.ltb 1 impactDelta = false)
     end.
Proof.
  unfold Comparison64.pushed, Comparison64.compareStep.
  destruct (map_get (fst e) pm) as [p|]; cbv zeta.
  - destruct ((_ <? -2)%Z || PrimFloat.ltb _ (-1)) eqn:E1;
      [|destruct ((2 <? _)%Z || PrimFloat.ltb 1 _) eqn:E2]; cbn;
      repeat split; try reflexivity; try discriminate; try tauto;
      intros [? ?]; discriminate.
  - cbn. repeat split; discriminate.
Qed.

Lemma compareStep64_bucket (pm : JsMap Comparison64.AreaRec)
  (ch : Comparison64.Changes) (e : string * Comparison64.AreaRec)
  (t : ChangeType) :
  Comparison64.bucket t (Comparison64.compareStep pm ch e)
  = Comparison64.bucket t ch
    ++ (if changeType_eqb t
             (Comparison64.ch_changeType (Comparison64.pushed pm e))
        then [Comparison64.pushed pm e] else []).
Proof.
  unfold Comparison64.pushed, Comparison64.compareStep.
  destruct (map_get (fst e) pm) as [p|]; cbv zeta.
  - destruct ((_ <? -2)%Z || PrimFloat.ltb _ (-1));
      [|destruct ((2 <? _)%Z || PrimFloat.ltb 1 _)];
      destruct t; cbn; now rewrite ?app_nil_r.
  - destruct t; cbn; now rewrite ?app_nil_r.
Qed.

Lemma compareLoop64_bucket (pm : JsMap Comparison64.AreaRec)
  (entries : list (string * Comparison64.AreaRec)) (t : ChangeType) :
  forall ch : Comparison64.Changes,
    Comparison64.bucket t (fold_left (Comparison64.compareStep pm) entries ch)
    = Comparison64.bucket t ch
      ++ filter (fun i => changeType_eqb t (Comparison64.ch_changeType i))
           (map (Comparison64.pushed pm) entries).
Proof.
  induction entries as [|e entries IH]; intros ch; cbn [fold_left map filter].
  - now rewrite app_nil_r.
  - rewrite IH, compareStep64_bucket, <- app_assoc.
    now destruct (changeType_eqb t _).
Qed.

Lemma resolveStep64_bucket (cm : JsMap Comparison64.AreaRec)
  (ch : Comparison64.Changes) (e : string * Comparison64.AreaRec)
  (t : ChangeType) :
  Comparison64.bucket t (Comparison64.resolveStep cm ch e)
  = Comparison64.bucket t ch
    ++ (if changeType_eqb t Resolved && negb (map_has (fst e) cm)
        then [Comparison64.resolvedEntry e] else []).
Proof.
  unfold Comparison64.resolveStep, Comparison64.resolvedEntry.
  destruct (negb (map_has (fst e) cm));
    destruct t; cbn; now rewrite ?app_nil_r.
Qed.

Lemma resolveLoop64_bucket (cm : JsMap Comparison64.AreaRec)
  (entries : list (string * Comparison64.AreaRec)) (t : ChangeType) :
  forall ch : Comparison64.Changes,
    Comparison64.bucket t (fold_left (Comparison64.resolveStep cm) entries ch)
    = Comparison64.bucket t ch
      ++ map Comparison64.resolvedEntry
           (filter (fun e => changeType_eqb t Resolved
                             && negb (map_has (fst e) cm)) entries).
Proof.
  induction entries as [|e entries IH]; intros ch; cbn [fold_left map filter].
  - now rewrite app_nil_r.
  - rewrite IH, resolveStep64_bucket, <- app_assoc.
    now destruct (changeType_eqb t Resolved && negb (map_has (fst e) cm)).
Qed.

(** The buckets of a comparison, entry by entry and in order. *)
Lemma computeChanges64_bucket (cur prev : list Comparison64.AreaRec)
  (t : ChangeType) :
  Comparison64.bucket t (Comparison64.computeChanges cur prev)
  = filter (fun i => changeType_eqb t (Comparison64.ch_changeType i))
      (map (Comparison64.pushed (Comparison64.areaMap prev))
         (Comparison64.areaMap cur))
    ++ map Comparison64.resolvedEntry
         (filter (fun e => changeType_eqb t Resolved
                           && negb (map_has (fst e) (Comparison64.areaMap cur)))
            (Comparison64.areaMap prev)).
Proof.
  unfold Comparison64.computeChanges.
  rewrite resolveLoop64_bucket, compareLoop64_bucket.
  now destruct t.
Qed.

Lemma pushed_not_resolved (pm : JsMap Comparison64.AreaRec)
  (e : string * Comparison64.AreaRec) :
  Comparison64.ch_changeType (Comparison64.pushed pm e) <> Resolved.
Proof.
  destruct (pushed_spec pm e) as [_ H].
  destruct (map_get (fst e) pm) as [p|].
  - cbv zeta in H. destruct H as [-> _].
    destruct (_ || _); [discriminate|]. destruct (_ || _); discriminate.
  - destruct H as [-> _]. discriminate.
Qed.

(** An entry of a bucket of the first loop comes from one entry of the
    current map. *)
Lemma firstLoop64_in (cur prev : list Comparison64.AreaRec) (t : ChangeType)
  (i : Comparison64.Change) :
  t <> Resolved ->
  In i (Comparison64.bucket t (Comparison64.computeChanges cur prev))
  <-> exists e, In e (Comparison64.areaMap cur)
                /\ i = Comparison64.pushed (Comparison64.areaMap prev) e
                /\ Comparison64.ch_changeType i = t.
Proof.
  intros Ht. rewrite computeChanges64_bucket.
  rewrite (filter_ext
             (fun e => changeType_eqb t Resolved
                       && negb (map_has (fst e) (Comparison64.areaMap cur)))
             (fun _ => false)), filter_false;
    [|intros e; destruct t; try reflexivity; now contradiction Ht].
  cbn [map]. rewrite app_nil_r, filter_In, in_map_iff. split.
  - intros [(e & <- & He) Hi]. apply changeType_eqb_eq in Hi.
    exists e. auto.
  - intros (e & He & -> & Hi). split; [now exists e|].
    apply changeType_eqb_eq. now symmetry.
Qed.

Lemma secondLoop64_in (cur prev : list Comparison64.AreaRec)
  (i : Comparison64.Change) :
  In i (Comparison64.resolvedIssues (Comparison64.computeChanges cur prev))
  <-> exists e, In e (Comparison64.areaMap prev)
                /\ map_has (fst e) (Comparison64.areaMap cur) = false
                /\ i = Comparison64.resolvedEntry e.
Proof.
  change (Comparison64.resolvedIssues (Comparison64.computeChanges cur prev))
    with (Comparison64.bucket Resolved (Comparison64.computeChanges cur prev)).
  rewrite computeChanges64_bucket.
  rewrite filter_none by
    (intros j Hj; apply in_map_iff in Hj; destruct Hj as (e & <- & _);
     pose proof (pushed_not_resolved (Comparison64.areaMap prev) e) as H;
     destruct (Comparison64.ch_changeType _); try reflexivity;
     now contradiction H).
  cbn [app]. rewrite in_map_iff. split.
  - intros (e & <- & He). apply filter_In in He. destruct He as [He Hh].
    cbn in Hh. apply negb_true_iff in Hh. now exists e.
  - intros (e & He & Hh & ->). exists e. split; [reflexivity|].
    apply filter_In. split; [exact He|]. cbn. now rewrite Hh.
Qed.

Lemma areaMap64_unique (l : list Comparison64.AreaRec)
  (e : string * Comparison64.AreaRec) (k : string) (c : Comparison64.AreaRec) :
  In e (Comparison64.areaMap l) ->
  Comparison64.areaKey (snd e) = k ->
  map_get k (Comparison64.areaMap l) = Some c ->
  e = (k, c).
Proof.
  intros He Hk Hc. destruct (areaMap64_entry l e He) as [Hkey Hget].
  destruct e as [k' c']. cbn in *. subst k'. rewrite Hk in Hget. congruence.
Qed.

(** The key of an area of the current map is in the bucket of the change
    type of the entry pushed for it, and in no other bucket of the first
    loop. *)
Lemma firstLoop64_key (cur prev : list Comparison64.AreaRec) (t : ChangeType)
  (k : string) (c : Comparison64.AreaRec) :
  t <> Resolved ->
  map_get k (Comparison64.areaMap cur) = Some c ->
  In k (map (fun i => Comparison64.areaKey (Comparison64.ch_area i))
          (Comparison64.bucket t (Comparison64.computeChanges cur prev)))
  <-> Comparison64.ch_changeType
        (Comparison64.pushed (Comparison64.areaMap prev) (k, c)) = t.
Proof.
  intros Ht Hc. rewrite in_map_iff. split.
  - intros (i & Hk & Hi). apply (firstLoop64_in cur prev t i Ht) in Hi.
    destruct Hi as (e & He & -> & Hi).
    rewrite (proj1 (pushed_spec _ e)) in Hk.
    now rewrite (areaMap64_unique cur e k c He Hk Hc) in Hi.
  - intros Hi. exists (Comparison64.pushed (Comparison64.areaMap prev) (k, c)).
    split.
    + rewrite (proj1 (pushed_spec _ (k, c))). cbn.
      apply map_get_in in Hc. now apply (areaMap64_entry cur (k, c)).
    + apply (firstLoop64_in cur prev t _ Ht). exists (k, c).
      split; [now apply map_get_in | now split].
Qed.

Lemma resolved64_key (cur prev : list Comparison64.AreaRec) (k : string) :
  In k (map (fun i => Comparison64.areaKey (Comparison64.ch_area i))
          (Comparison64.resolvedIssues (Comparison64.computeChanges cur prev)))
  <-> In k (map fst (Comparison64.areaMap prev))
      /\ map_get k (Comparison64.areaMap cur) = None.
Proof.
  rewrite in_map_iff. split.
  - intros (i & Hk & Hi). apply secondLoop64_in in Hi.
    destruct Hi as (e & He & Hh & ->). cbn in Hk.
    destruct (areaMap64_entry prev e He) as [Hkey _]. rewrite Hkey in Hk.
    subst k. split; [now apply in_map|].
    unfold map_has in Hh. now destruct (map_get (fst e) _).
  - intros [Hk Hnone]. apply in_map_iff in Hk. destruct Hk as (e & <- & He).
    exists (Comparison64.resolvedEntry e). split.
    + cbn. now apply (areaMap64_entry prev e).
    + apply secondLoop64_in. exists e. split; [exact He|].
      split; [|reflexivity]. unfold map_has. now rewrite Hnone.
Qed.

(** C5: for a key held by the current and by the previous map, with
    freqDelta the difference of the two frequencies and impactDelta the
    binary64 difference of the two impact scores (an absent score counts
    as 0), the key is in the improved bucket iff freqDelta < -2 or
    impactDelta < -1, in the worsened bucket iff it is not improved and
    freqDelta > 2 or impactDelta > 1, in the stable bucket otherwise, and
    in no other bucket.  The area Sync/bug with frequency 10 and impact 6
    before and frequency 6 and impact 6 now lands in the improved bucket
    with frequency delta -4; an area that passes the improved and the
    worsened test is improved; at equal frequency a fall of the impact
    from 2.2 to 1.2 is improved, as the binary64 difference is below -1,
    and a fall from 2 to 1 is stable. *)
Theorem compareSyntheses_classification :
  (forall (cur prev : list Comparison64.AreaRec) (k : string)
          (c p : Comparison64.AreaRec),
     map_get k (Comparison64.areaMap cur) = Some c ->
     map_get k (Comparison64.areaMap prev) = Some p ->
     let ch := Comparison64.computeChanges cur prev in
     let keys :=
       map (fun i => Comparison64.areaKey (Comparison64.ch_area i)) in
     let freqDelta :=
       (Comparison64.ar_frequency c - Comparison64.ar_frequency p)%Z in
     let impactDelta :=
       (orNumber (Comparison64.ar_impactScore c) 0
        - orNumber (Comparison64.ar_impactScore p) 0)%float in
     let improved :=
       (freqDelta < -2)%Z \/ PrimFloat.ltb impactDelta (-1) = true in
     let worsened :=
       (2 < freqDelta)%Z \/ PrimFloat.ltb 1 impactDelta = true in
     (In k (keys (Comparison64.improvedIssues ch)) <-> improved)
     /\ (In k (keys (Comparison64.worsenedIssues ch))
         <-> ~ improved /\ worsened)
     /\ (In k (keys (Comparison64.stableIssues ch))
         <-> ~ improved /\ ~ worsened)
     /\ ~ In k (keys (Comparison64.newIssues ch))
     /\ ~ In k (keys (Comparison64.resolvedIssues ch)))
  /\ (let ch :=
        Comparison64.computeChanges [Samples64.currentSync]
          [Samples64.previousSync] in
      map Comparison64.ch_area (Comparison64.improvedIssues ch)
      = [Samples64.currentSync]
      /\ map Comparison64.ch_changeType (Comparison64.improvedIssues ch)
         = [Improved]
      /\ map Comparison64.ch_frequencyDelta (Comparison64.improvedIssues ch)
         = [Some (-4)%Z]
      /\ Comparison64.newIssues ch = []
      /\ Comparison64.worsenedIssues ch = []
      /\ Comparison64.resolvedIssues ch = []
      /\ Comparison64.stableIssues ch = [])
  /\ (let ch :=
        Comparison64.computeChanges
          [Samples64.currentLogin; Samples64.currentExport;
           Samples64.currentSearch]
          [Samples64.previousLogin; Samples64.previousExport;
           Samples64.previousSearch] in
      map Comparison64.ch_area (Comparison64.improvedIssues ch)
      = [Samples64.currentLogin; Samples64.currentExport]
      /\ map Comparison64.ch_impactDelta (Comparison64.improvedIssues ch)
         = [Some 5%float; Some (-1.0000000000000002)%float]
      /\ map Comparison64.ch_area (Comparison64.stableIssues ch)
         = [Samples64.currentSearch]
      /\ map Comparison64.ch_impactDelta (Comparison64.stableIssues ch)
         = [Some (-1)%float]
      /\ Comparison64.worsenedIssues ch = []).
Proof.
  split; [|split; vm_compute; repeat split].
  intros cur prev k c p Hc Hp ch keys freqDelta impactDelta improved worsened.
  pose proof (fun t Ht => firstLoop64_key cur prev t k c Ht Hc) as Hm.
  destruct (pushed_spec (Comparison64.areaMap prev) (k, c)) as [_ Hs].
  cbn [fst snd] in Hs. rewrite Hp in Hs. cbv zeta in Hs.
  destruct Hs as (Ht & _). fold freqDelta impactDelta in Ht.
  assert (Hi : (freqDelta <? -2)%Z || PrimFloat.ltb impactDelta (-1) = true
               <-> improved).
  { unfold improved. rewrite orb_true_iff, Z.ltb_lt. tauto. }
  assert (Hw : (2 <? freqDelta)%Z || PrimFloat.ltb 1 impactDelta = true
               <-> worsened).
  { unfold worsened. rewrite orb_true_iff, Z.ltb_lt. tauto. }
  unfold keys, ch.
  change (Comparison64.improvedIssues (Comparison64.computeChanges cur prev))
    with (Comparison64.bucket Improved (Comparison64.computeChanges cur prev)).
  change (Comparison64.worsenedIssues (Comparison64.computeChanges cur prev))
    with (Comparison64.bucket Worsened (Comparison64.computeChanges cur prev)).
  change (Comparison64.stableIssues (Comparison64.computeChanges cur prev))
    with (Comparison64.bucket Stable (Comparison64.computeChanges cur prev)).
  change (Comparison64.newIssues (Comparison64.computeChanges cur prev))
    with (Comparison64.bucket New (Comparison64.computeChanges cur prev)).
  rewrite !Hm by discriminate. rewrite Ht, <- Hi, <- Hw.
  assert (Hres : ~ In k (map (fun i => Comparison64.areaKey (Comparison64.ch_area i))
                          (Comparison64.resolvedIssues
                             (Comparison64.computeChanges cur prev)))).
  { rewrite resolved64_key. intros [_ Hnone]. congruence. }
  destruct ((freqDelta <? -2)%Z || PrimFloat.ltb impactDelta (-1));
    destruct ((2 <? freqDelta)%Z || PrimFloat.ltb 1 impactDelta);
    repeat split; try exact Hres; try discriminate; try reflexivity;
    try (intros [H _]; (discriminate H || now contradiction H));
    try (intros [_ H]; (discriminate H || now contradiction H)).
Qed.

(** The theorem at the sync area, present in both runs. *)
Lemma compareSyntheses_classification_witness :
  In "bug:Sync"%string
    (map (fun i => Comparison64.areaKey (Comparison64.ch_area i))
       (Comparison64.improvedIssues
          (Comparison64.computeChanges [Samples64.currentSync]
             [Samples64.previousSync]))).
Proof.
  apply (proj1 compareSyntheses_classification
           [Samples64.currentSync] [Samples64.previousSync] "bug:Sync"%string
           Samples64.currentSync Samples64.previousSync eq_refl eq_refl).
  left. reflexivity.
Defined.

(** ** Health score and first run *)

(** C6: the health score is 50, plus 15 when the sentiment improves, minus
    15 when it declines, plus 5 per resolved issue, minus 10 per new issue
    whose severity label is the string Critical, minus 3 per worsened and
    plus 3 per improved issue, clamped to [0,100]; it lies in [0,100] for
    every input, is 100 for 1000 resolved issues, and is 40 for two new
    issues of which one is labelled Critical and one Medium. *)
Theorem calculateHealthScore_clamped :
  (forall (sentimentTrend : option SentimentTrend) (ch : Changes),
     let count := fun l : list Change => Z.of_nat (List.length l) in
     let labelledCritical := fun i : Change =>
       match ar_severityLabel (ch_area i) with
       | Some label => String.eqb label "Critical"
       | None => false
       end in
     let sentiment :=
       match sentimentTrend with
       | Some t =>
           match strend_direction t with
           | improving => 15
           | declining => -15
           | _ => 0
           end
       | None => 0
       end%Z in
     calculateHealthScore sentimentTrend ch
     = Z.max 0
         (Z.min 100
            (50 + sentiment
             + 5 * count (resolvedIssues ch)
             - 10 * count (filter labelledCritical (newIssues ch))
             - 3 * count (worsenedIssues ch)
             + 3 * count (improvedIssues ch)))%Z
     /\ (0 <= calculateHealthScore sentimentTrend ch <= 100)%Z)
  /\ (forall (current previous : Synthesis) (ch : Changes),
        (0 <= tr_overallHealth (calculateOverallTrends current previous ch)
         <= 100)%Z)
  /\ calculateHealthScore None Samples.manyResolved = 100%Z
  /\ calculateHealthScore None Samples64.oneCritical = 40%Z
  /\ calculateHealthScore None
       {| newIssues := [Samples64.newIssue "critical"; Samples64.newIssue "High"];
          improvedIssues := []; worsenedIssues := [];
          resolvedIssues := []; stableIssues := [] |} = 50%Z.
Proof.
  assert (Hrange : forall st ch, (0 <= calculateHealthScore st ch <= 100)%Z).
  { intros st ch. unfold calculateHealthScore. lia. }
  split; [|split; [|split; [|split]]].
  - intros st ch. split; [|apply Hrange].
    unfold calculateHealthScore, lengthZ.
    rewrite Math_round_integer.
    change (filter isCritical (newIssues ch))
      with (filter (fun i : Change =>
                      match ar_severityLabel (ch_area i) with
                      | Some label => String.eqb label "Critical"
                      | None => false
                      end) (newIssues ch)).
    destruct st as [t|]; cbn [option_map];
      [destruct (strend_direction t)|]; f_equal; f_equal; lia.
  - intros current previous ch. apply Hrange.
  - vm_compute. reflexivity.
  - vm_compute. reflexivity.
  - vm_compute. reflexivity.
Qed.

(** C8: without a previous snapshot the comparison returns the first-run
    object, with [isFirstRun] true, [changes] and [trends] null and no
    other property, whatever the current synthesis is; it does not throw. *)
Theorem compareSyntheses_first_run :
  forall (current : Synthesis) (nowIso : string),
    compareSyntheses current None nowIso
    = Returned {| isFirstRun := true;
                  comparedAt := None;
                  previousSnapshotDate := None;
                  changes := None;
                  trends := None;
                  summary := None |}.
Proof. intros current nowIso. reflexivity. Qed.

(** ** Focus-area clusterer *)

Lemma clusterKey_inj (c1 c2 : FocusCategory) (t1 t2 : string) :
  clusterKey c1 t1 = clusterKey c2 t2 -> c1 = c2 /\ t1 = t2.
Proof.
  unfold clusterKey. destruct c1, c2; cbn; intros H;
    try discriminate H; injection H as ->; split; reflexivity.
Qed.

Lemma map_update_keys {V : Type} (key : string) (f : V -> V) (m : JsMap V) :
  map fst (map_update key f m) = map fst m.
Proof.
  induction m as [|[k v] m IH]; cbn; [reflexivity|].
  destruct (String.eqb key k); cbn; [reflexivity | now rewrite IH].
Qed.

Lemma map_update_in {V : Type} (key : string) (f : V -> V) (m : JsMap V)
  (k : string) (a : V) :
  NoDup (map fst m) ->
  In (k, a) (map_update key f m)
  <-> (k <> key /\ In (k, a) m) \/ (k = key /\ exists a0, In (key, a0) m /\ a = f a0).
Proof.
  induction m as [|[k' v] m IH]; cbn; intros Hnd.
  - split; [intros [] | intros [[_ []]|[_ (a0 & [] & _)]]].
  - inversion Hnd as [|? ? Hk' Hnd']; subst.
    destruct (String.eqb_spec key k') as [->|Hne]; cbn.
    + split.
      * intros [[= <- <-]|Hin].
        -- right. split; [reflexivity|]. exists v. split; [now left | reflexivity].
        -- left. split; [|now right]. intros ->. apply Hk'.
           apply in_map_iff. now exists (k', a).
      * intros [[Hk [[= <- <-]|Hin]]|[-> (a0 & [[= <-]|Hin] & ->)]].
        -- now contradiction Hk.
        -- now right.
        -- now left.
        -- exfalso. apply Hk'. apply in_map_iff. now exists (k', a0).
    + rewrite (IH Hnd'). split.
      * intros [[= <- <-]|[[Hk Hin]|[-> (a0 & Hin & ->)]]].
        -- left. split; [congruence | now left].
        -- left. split; [exact Hk | now right].
        -- right. split; [reflexivity|]. exists a0. split; [now right | reflexivity].
      * intros [[Hk [[= <- <-]|Hin]]|[-> (a0 & [[= <- <-]|Hin] & ->)]].
        -- now left.
        -- right. left. now split.
        -- now contradiction Hne.
        -- right. right. split; [reflexivity|]. now exists a0.
Qed.

Lemma membersOf_snoc (k : string) (processed : list ScoredItem) (x : ScoredItem) :
  membersOf k (processed ++ [x])
  = membersOf k processed ++ (if String.eqb (keyOfItem x) k then [x] else []).
Proof. unfold membersOf. now rewrite filter_app. Qed.

Lemma sumScores_snoc (members : list ScoredItem) (x : ScoredItem) :
  sumScores (members ++ [x]) = sumScores members + scoreOrZero x.
Proof. unfold sumScores. now rewrite fold_left_app. Qed.

Lemma quotesOf_snoc (members : list ScoredItem) (x : ScoredItem) :
  quotesOf (members ++ [x])
  = quotesOf members
    ++ match summary_keyQuote (sc_item x) with
       | Some (String _ _ as q) => [q]
       | _ => []
       end.
Proof. unfold quotesOf. rewrite flat_map_app. cbn. now rewrite app_nil_r. Qed.

Lemma membersOf_absent (k : string) (processed : list ScoredItem) :
  (forall x, In x processed -> keyOfItem x <> k) -> membersOf k processed = [].
Proof.
  intros H. unfold membersOf. induction processed as [|x l IH]; cbn; [reflexivity|].
  destruct (String.eqb_spec (keyOfItem x) k) as [E|_].
  - exfalso. apply (H x); [now left | exact E].
  - apply IH. intros y Hy. apply H. now right.
Qed.

Lemma addToArea_inv (x : ScoredItem) (processed : list ScoredItem) (a0 : Area) :
  area_id a0 = keyOfItem x ->
  keyOfItem x = clusterKey (area_category a0) (area_title a0) ->
  area_items a0 = membersOf (keyOfItem x) processed ->
  area_totalScore a0 = sumScores (area_items a0) ->
  area_quotes a0 = quotesOf (area_items a0) ->
  let a := addToArea x a0 in
  area_id a = keyOfItem x
  /\ keyOfItem x = clusterKey (area_category a) (area_title a)
  /\ area_items a = membersOf (keyOfItem x) (processed ++ [x])
  /\ area_items a <> []
  /\ area_totalScore a = sumScores (area_items a)
  /\ area_quotes a = quotesOf (area_items a).
Proof.
  intros Hid Hkey Hitems Htotal Hquotes. cbv zeta. unfold addToArea.
  cbn [area_id area_title area_category area_items area_totalScore area_quotes].
  split; [exact Hid|]. split; [exact Hkey|]. split; [|split; [|split]].
  - rewrite membersOf_snoc, String.eqb_refl. now rewrite Hitems.
  - intros H. now apply app_eq_nil in H.
  - now rewrite sumScores_snoc, Htotal.
  - rewrite quotesOf_snoc, Hquotes.
    destruct (summary_keyQuote (sc_item x)) as [[|c q]|]; now rewrite ?app_nil_r.
Qed.

Lemma clusterStep_inv (processed : list ScoredItem) (areas : JsMap Area)
  (x : ScoredItem) :
  clusterInv processed areas ->
  clusterInv (processed ++ [x]) (clusterStep areas x).
Proof.
  intros (Hnd & Hkeys & Hentries).
  unfold clusterStep. fold (keyOfItem x).
  set (key := keyOfItem x).
  set (fresh := {| area_id := key;
                   area_title := featureArea_of (sc_item x);
                   area_category := focusCategory (sc_item x);
                   area_items := [];
                   area_totalScore := 0;
                   area_quotes := [];
                   area_segments := [] |}).
  set (areas' := match map_get key areas with
                 | Some _ => areas
                 | None => areas ++ [(key, fresh)]
                 end).
  assert (Hnd' : NoDup (map fst areas')).
  { unfold areas'. destruct (map_get key areas) eqn:E; [exact Hnd|].
    apply map_get_none in E. rewrite map_app. cbn.
    apply NoDup_app; [exact Hnd | repeat constructor; intros [] |].
    intros k Hk [<-|[]]. now apply E. }
  assert (Hkey' : In key (map fst areas')).
  { unfold areas'. destruct (map_get key areas) eqn:E.
    - apply map_get_in in E. apply in_map_iff. now exists (key, a).
    - rewrite map_app. apply in_or_app. right. now left. }
  assert (Hsub : forall k, In k (map fst areas) -> In k (map fst areas')).
  { intros k Hk. unfold areas'. destruct (map_get key areas); [exact Hk|].
    rewrite map_app. apply in_or_app. now left. }
  assert (Hentries' : forall k a, In (k, a) areas' ->
            (In (k, a) areas)
            \/ (k = key /\ a = fresh /\ map_get key areas = None)).
  { intros k a Hin. unfold areas' in Hin.
    destruct (map_get key areas) eqn:E; [now left|].
    apply in_app_or in Hin. destruct Hin as [Hin|[[= <- <-]|[]]];
      [now left | right; auto]. }
  split; [now rewrite map_update_keys|]. split.
  - intros y Hy. rewrite map_update_keys.
    apply in_app_or in Hy. destruct Hy as [Hy|[<-|[]]];
      [apply Hsub, Hkeys, Hy | exact Hkey'].
  - intros k a Hin. apply (map_update_in _ _ _ _ _ Hnd') in Hin.
    destruct Hin as [[Hk Hin]|[-> (a0 & Hin & ->)]].
    + destruct (Hentries' k a Hin) as [Hold|[Hk' _]]; [|now contradiction Hk].
      destruct (Hentries k a Hold) as (H1 & H2 & H3 & H4 & H5 & H6).
      repeat split; auto.
      rewrite membersOf_snoc. fold key.
      destruct (String.eqb_spec key k) as [E|_]; [now contradiction Hk|].
      now rewrite app_nil_r.
    + destruct (Hentries' key a0 Hin) as [Hold|(_ & -> & Hnone)].
      * destruct (Hentries key a0 Hold) as (H1 & H2 & H3 & _ & H5 & H6).
        apply (addToArea_inv x processed a0); auto.
      * apply (addToArea_inv x processed fresh); cbn; auto.
        symmetry. apply membersOf_absent. intros y Hy E.
        apply map_get_none in Hnone. apply Hnone.
        unfold key. rewrite <- E. now apply Hkeys.
Qed.

Lemma clusterLoop_inv (items : list ScoredItem) :
  forall (processed : list ScoredItem) (areas : JsMap Area),
    clusterInv processed areas ->
    clusterInv (processed ++ items) (fold_left clusterStep items areas).
Proof.
  induction items as [|x items IH]; intros processed areas Hinv; cbn.
  - now rewrite app_nil_r.
  - replace (processed ++ x :: items) with ((processed ++ [x]) ++ items)
      by now rewrite <- app_assoc.
    apply IH, clusterStep_inv, Hinv.
Qed.

Lemma clusterInv_final (items : list ScoredItem) :
  clusterInv items (fold_left clusterStep items []).
Proof.
  apply (clusterLoop_inv items [] []).
  split; [constructor|]. split; [intros x []|intros k a []].
Qed.

Lemma scoreOrZero_impactScore (x : ScoredItem) : scoreOrZero x == impactScore_of x.
Proof.
  unfold scoreOrZero, impactScore_of, JS.orQ.
  destruct (sc_impactData x) as [d|]; cbn; [|reflexivity].
  destruct (Qeq_bool (id_score d) 0) eqn:E; [|reflexivity].
  apply Qeq_bool_eq in E. now rewrite E.
Qed.

Lemma sumScores_fold (members : list ScoredItem) :
  forall total : Q,
    fold_left (fun total x => total + scoreOrZero x) members total
    == total + fold_right Qplus 0 (map impactScore_of members).
Proof.
  induction members as [|x l IH]; intros total; cbn.
  - ring.
  - rewrite IH, scoreOrZero_impactScore. ring.
Qed.

Lemma cluster_output (items : list ScoredItem) (fa : FocusArea) :
  In fa (clusterIntoFocusAreas items)
  <-> exists k a, In (k, a) (fold_left clusterStep items []) /\ fa = finalizeArea a.
Proof.
  unfold clusterIntoFocusAreas, map_values. split.
  - intros Hin. apply (Permutation_in _ (sort_perm fa_avgImpact _)) in Hin.
    apply in_map_iff in Hin. destruct Hin as (a & <- & Ha).
    apply in_map_iff in Ha. destruct Ha as ([k a'] & <- & Hka).
    now exists k, a'.
  - intros (k & a & Hin & ->).
    apply (Permutation_in _ (Permutation_sym (sort_perm fa_avgImpact _))).
    apply in_map. apply in_map_iff. now exists (k, a).
Qed.

(** Every item is a member of the focus area of its category and feature
    area. *)
Lemma cluster_member (items : list ScoredItem) (x : ScoredItem) :
  In x items ->
  exists fa,
    In fa (clusterIntoFocusAreas items)
    /\ fa_id fa = keyOfItem x
    /\ fa_category fa = focusCategory (sc_item x)
    /\ fa_title fa = featureArea_of (sc_item x)
    /\ fa_items fa = membersOf (keyOfItem x) items
    /\ In x (fa_items fa).
Proof.
  intros Hx. destruct (clusterInv_final items) as (_ & Hkeys & Hentries).
  specialize (Hkeys x Hx). apply in_map_iff in Hkeys.
  destruct Hkeys as ([k a] & Hk & Hin). cbn in Hk. subst k.
  destruct (Hentries _ _ Hin) as (Hid & Hkey & Hitems & _).
  apply clusterKey_inj in Hkey. destruct Hkey as [Hc Ht].
  exists (finalizeArea a).
  split; [apply cluster_output; now exists (keyOfItem x), a|].
  cbn. repeat split; auto.
  rewrite Hitems. apply filter_In. split; [exact Hx | apply String.eqb_refl].
Qed.

(** The members and the aggregates of every focus area of the output. *)
Lemma cluster_area (items : list ScoredItem) (fa : FocusArea) :
  In fa (clusterIntoFocusAreas items) ->
  fa_id fa = clusterKey (fa_category fa) (fa_title fa)
  /\ fa_items fa = membersOf (fa_id fa) items
  /\ fa_frequency fa = List.length (fa_items fa)
  /\ fa_avgImpact fa == Spec.mean (map impactScore_of (fa_items fa))
  /\ fa_topQuote fa = hd EmptyString (quotesOf (fa_items fa))
  /\ exists first rest,
       fa_items fa = first :: rest
       /\ forall d, sc_impactData first = Some d ->
            fa_stakes fa = id_stakes d /\ fa_scoreRationale fa = id_rationale d.
Proof.
  intros Hfa. apply cluster_output in Hfa. destruct Hfa as (k & a & Hin & ->).
  destruct (clusterInv_final items) as (_ & _ & Hentries).
  destruct (Hentries _ _ Hin) as (Hid & Hkey & Hitems & Hne & Htotal & Hquotes).
  unfold finalizeArea.
  cbn [fa_id fa_title fa_category fa_items fa_frequency fa_avgImpact fa_topQuote
       fa_stakes fa_scoreRationale].
  split; [congruence|]. split; [congruence|]. split; [reflexivity|].
  destruct (area_items a) as [|first rest] eqn:Eitems; [now contradiction Hne|].
  split; [|split].
  - cbn [List.length Nat.ltb Nat.leb]. unfold Spec.mean.
    rewrite Htotal. unfold sumScores. rewrite sumScores_fold, length_map.
    rewrite Qplus_0_l. reflexivity.
  - rewrite Hquotes. now destruct (quotesOf (first :: rest)) as [|[|c q] qs].
  - exists first, rest. split; [reflexivity|]. intros d Hd.
    cbn [hd_error]. rewrite Hd. cbn [option_map].
    split; [reflexivity|]. now destruct (id_rationale d).
Qed.

Lemma members_of_area (items : list ScoredItem) (fa : FocusArea) (x : ScoredItem) :
  fa_id fa = clusterKey (fa_category fa) (fa_title fa) ->
  fa_items fa = membersOf (fa_id fa) items ->
  In x (fa_items fa)
  <-> In x items
      /\ focusCategory (sc_item x) = fa_category fa
      /\ featureArea_of (sc_item x) = fa_title fa.
Proof.
  intros Hid Hitems. rewrite Hitems. unfold membersOf.
  rewrite filter_In, String.eqb_eq, Hid. unfold keyOfItem. split.
  - intros [Hin Hkey]. apply clusterKey_inj in Hkey. tauto.
  - intros (Hin & -> & ->). tauto.
Qed.

(** ** The clusterer in binary64 *)

Lemma membersOf64_snoc (k : string) (processed : list Clusterer64.ScoredItem)
  (x : Clusterer64.ScoredItem) :
  Clusterer64.membersOf k (processed ++ [x])
  = Clusterer64.membersOf k processed
    ++ (if String.eqb (Clusterer64.keyOfItem x) k then [x] else []).
Proof. unfold Clusterer64.membersOf. now rewrite filter_app. Qed.

Lemma quotesOf64_snoc (members : list Clusterer64.ScoredItem)
  (x : Clusterer64.ScoredItem) :
  Clusterer64.quotesOf (members ++ [x])
  = Clusterer64.quotesOf members
    ++ match summary_keyQuote (Clusterer64.sc_item x) with
       | Some (String _ _ as q) => [q]
       | _ => []
       end.
Proof.
  unfold Clusterer64.quotesOf. rewrite flat_map_app. cbn. now rewrite app_nil_r.
Qed.

Lemma membersOf64_absent (k : string) (processed : list Clusterer64.ScoredItem) :
  (forall x, In x processed -> Clusterer64.keyOfItem x <> k) ->
  Clusterer64.membersOf k processed = [].
Proof.
  intros H. unfold Clusterer64.membersOf.
  induction processed as [|x l IH]; cbn; [reflexivity|].
  destruct (String.eqb_spec (Clusterer64.keyOfItem x) k) as [E|_].
  - exfalso. apply (H x); [now left | exact E].
  - apply IH. intros y Hy. apply H. now right.
Qed.

Lemma addToArea64_inv (x : Clusterer64.ScoredItem)
  (processed : list Clusterer64.ScoredItem) (a0 : Clusterer64.Area) :
  Clusterer64.area_id a0 = Clusterer64.keyOfItem x ->
  Clusterer64.keyOfItem x
  = clusterKey (Clusterer64.area_category a0) (Clusterer64.area_title a0) ->
  Clusterer64.area_items a0
  = Clusterer64.membersOf (Clusterer64.keyOfItem x) processed ->
  Clusterer64.area_totalScore a0
  = fold_left (fun total y => (total + Clusterer64.scoreOrZero y)%float)
      (Clusterer64.area_items a0) 0%float ->
  Clusterer64.area_quotes a0 = Clusterer64.quotesOf (Clusterer64.area_items a0) ->
  let a := Clusterer64.addToArea x a0 in
  Clusterer64.area_id a = Clusterer64.keyOfItem x
  /\ Clusterer64.keyOfItem x
     = clusterKey (Clusterer64.area_category a) (Clusterer64.area_title a)
  /\ Clusterer64.area_items a
     = Clusterer64.membersOf (Clusterer64.keyOfItem x) (processed ++ [x])
  /\ Clusterer64.area_items a <> []
  /\ Clusterer64.area_totalScore a
     = fold_left (fun total y => (total + Clusterer64.scoreOrZero y)%float)
         (Clusterer64.area_items a) 0%float
  /\ Clusterer64.area_quotes a = Clusterer64.quotesOf (Clusterer64.area_items a).
Proof.
  intros Hid Hkey Hitems Htotal Hquotes. cbv zeta. unfold Clusterer64.addToArea.
  cbn [Clusterer64.area_id Clusterer64.area_title Clusterer64.area_category
       Clusterer64.area_items Clusterer64.area_totalScore
       Clusterer64.area_quotes].
  split; [exact Hid|]. split; [exact Hkey|]. split; [|split; [|split]].
  - rewrite membersOf64_snoc, String.eqb_refl. now rewrite Hitems.
  - intros H. now apply app_eq_nil in H.
  - rewrite fold_left_app. cbn [fold_left]. now rewrite <- Htotal.
  - rewrite quotesOf64_snoc, Hquotes.
    destruct (summary_keyQuote (Clusterer64.sc_item x)) as [[|c q]|];
      now rewrite ?app_nil_r.
Qed.

Lemma clusterStep64_inv (processed : list Clusterer64.ScoredItem)
  (areas : JsMap Clusterer64.Area) (x : Clusterer64.ScoredItem) :
  Clusterer64.clusterInv processed areas ->
  Clusterer64.clusterInv (processed ++ [x]) (Clusterer64.clusterStep areas x).
Proof.
  intros (Hnd & Hkeys & Hentries).
  unfold Clusterer64.clusterStep. fold (Clusterer64.keyOfItem x).
  set (key := Clusterer64.keyOfItem x).
  set (fresh := {| Clusterer64.area_id := key;
                   Clusterer64.area_title := featureArea_of (Clusterer64.sc_item x);
                   Clusterer64.area_category := focusCategory (Clusterer64.sc_item x);
                   Clusterer64.area_items := [];
                   Clusterer64.area_totalScore := 0%float;
                   Clusterer64.area_quotes := [];
                   Clusterer64.area_segments := [] |}).
  set (areas' := match map_get key areas with
                 | Some _ => areas
                 | None => areas ++ [(key, fresh)]
                 end).
  assert (Hnd' : NoDup (map fst areas')).
  { unfold areas'. destruct (map_get key areas) eqn:E; [exact Hnd|].
    apply map_get_none in E. rewrite map_app. cbn.
    apply NoDup_app; [exact Hnd | repeat constructor; intros [] |].
    intros k Hk [<-|[]]. now apply E. }
  assert (Hkey' : In key (map fst areas')).
  { unfold areas'. destruct (map_get key areas) eqn:E.
    - apply map_get_in in E. apply in_map_iff. now exists (key, a).
    - rewrite map_app. apply in_or_app. right. now left. }
  assert (Hsub : forall k, In k (map fst areas) -> In k (map fst areas')).
  { intros k Hk. unfold areas'. destruct (map_get key areas); [exact Hk|].
    rewrite map_app. apply in_or_app. now left. }
  assert (Hentries' : forall k a, In (k, a) areas' ->
            (In (k, a) areas)
            \/ (k = key /\ a = fresh /\ map_get key areas = None)).
  { intros k a Hin. unfold areas' in Hin.
    destruct (map_get key areas) eqn:E; [now left|].
    apply in_app_or in Hin. destruct Hin as [Hin|[[= <- <-]|[]]];
      [now left | right; auto]. }
  split; [now rewrite map_update_keys|]. split.
  - intros y Hy. rewrite map_update_keys.
    apply in_app_or in Hy. destruct Hy as [Hy|[<-|[]]];
      [apply Hsub, Hkeys, Hy | exact Hkey'].
  - intros k a Hin. apply (map_update_in _ _ _ _ _ Hnd') in Hin.
    destruct Hin as [[Hk Hin]|[-> (a0 & Hin & ->)]].
    + destruct (Hentries' k a Hin) as [Hold|[Hk' _]]; [|now contradiction Hk].
      destruct (Hentries k a Hold) as (H1 & H2 & H3 & H4 & H5 & H6).
      repeat split; auto.
      rewrite membersOf64_snoc. fold key.
      destruct (String.eqb_spec key k) as [E|_]; [now contradiction Hk|].
      now rewrite app_nil_r.
    + destruct (Hentries' key a0 Hin) as [Hold|(_ & -> & Hnone)].
      * destruct (Hentries key a0 Hold) as (H1 & H2 & H3 & _ & H5 & H6).
        apply (addToArea64_inv x processed a0); auto.
      * apply (addToArea64_inv x processed fresh); cbn; auto.
        symmetry. apply membersOf64_absent. intros y Hy E.
        apply map_get_none in Hnone. apply Hnone.
        unfold key. rewrite <- E. now apply Hkeys.
Qed.

Lemma clusterLoop64_inv (items : list Clusterer64.ScoredItem) :
  forall (processed : list Clusterer64.ScoredItem)
         (areas : JsMap Clusterer64.Area),
    Clusterer64.clusterInv processed areas ->
    Clusterer64.clusterInv (processed ++ items)
      (fold_left Clusterer64.clusterStep items areas).
Proof.
  induction items as [|x items IH]; intros processed areas Hinv; cbn.
  - now rewrite app_nil_r.
  - replace (processed ++ x :: items) with ((processed ++ [x]) ++ items)
      by now rewrite <- app_assoc.
    apply IH, clusterStep64_inv, Hinv.
Qed.

Lemma clusterInv64_final (items : list Clusterer64.ScoredItem) :
  Clusterer64.clusterInv items (fold_left Clusterer64.clusterStep items []).
Proof.
  apply (clusterLoop64_inv items [] []).
  split; [constructor|]. split; [intros x []|intros k a []].
Qed.

Lemma cluster64_output (items : list Clusterer64.ScoredItem)
  (fa : Clusterer64.FocusArea) :
  In fa (Clusterer64.clusterIntoFocusAreas items)
  <-> exists k a,
        In (k, a) (fold_left Clusterer64.clusterStep items [])
        /\ fa = Clusterer64.finalizeArea a.
Proof.
  unfold Clusterer64.clusterIntoFocusAreas, map_values. split.
  - intros Hin.
    apply (Permutation_in _ (sort64_perm Clusterer64.fa_avgImpact _)) in Hin.
    apply in_map_iff in Hin. destruct Hin as (a & <- & Ha).
    apply in_map_iff in Ha. destruct Ha as ([k a'] & <- & Hka).
    now exists k, a'.
  - intros (k & a & Hin & ->).
    apply (Permutation_in _
             (Permutation_sym (sort64_perm Clusterer64.fa_avgImpact _))).
    apply in_map. apply in_map_iff. now exists (k, a).
Qed.

(** Every item is a member of the focus area of its category and feature
    area. *)
Lemma cluster64_member (items : list Clusterer64.ScoredItem)
  (x : Clusterer64.ScoredItem) :
  In x items ->
  exists fa,
    In fa (Clusterer64.clusterIntoFocusAreas items)
    /\ Clusterer64.fa_id fa = Clusterer64.keyOfItem x
    /\ Clusterer64.fa_items fa
       = Clusterer64.membersOf (Clusterer64.keyOfItem x) items
    /\ In x (Clusterer64.fa_items fa).
Proof.
  intros Hx. destruct (clusterInv64_final items) as (_ & Hkeys & Hentries).
  specialize (Hkeys x Hx). apply in_map_iff in Hkeys.
  destruct Hkeys as ([k a] & Hk & Hin). cbn in Hk. subst k.
  destruct (Hentries _ _ Hin) as (Hid & Hkey & Hitems & _).
  exists (Clusterer64.finalizeArea a).
  split; [apply cluster64_output; now exists (Clusterer64.keyOfItem x), a|].
  cbn. repeat split; auto.
  rewrite Hitems. apply filter_In. split; [exact Hx | apply String.eqb_refl].
Qed.

(** The members and the aggregates of every focus area of the output. *)
Lemma cluster64_area (items : list Clusterer64.ScoredItem)
  (fa : Clusterer64.FocusArea) :
  In fa (Clusterer64.clusterIntoFocusAreas items) ->
  Clusterer64.fa_id fa
  = clusterKey (Clusterer64.fa_category fa) (Clusterer64.fa_title fa)
  /\ Clusterer64.fa_items fa
     = Clusterer64.membersOf (Clusterer64.fa_id fa) items
  /\ Clusterer64.fa_frequency fa = List.length (Clusterer64.fa_items fa)
  /\ Clusterer64.fa_avgImpact fa
     = (fold_left (fun total x => total + Clusterer64.scoreOrZero x)
          (Clusterer64.fa_items fa) 0
        / Binary64.of_Z (Z.of_nat (List.length (Clusterer64.fa_items fa))))%float
  /\ Clusterer64.fa_topQuote fa
     = hd EmptyString (Clusterer64.quotesOf (Clusterer64.fa_items fa))
  /\ exists first rest,
       Clusterer64.fa_items fa = first :: rest
       /\ Clusterer64.fa_stakes fa
          = match Clusterer64.sc_impactData first with
            | Some d => Clusterer64.id_stakes d
            | None => {| stakes_type := neutral; stakes_message := EmptyString |}
            end
       /\ Clusterer64.fa_scoreRationale fa
          = JS.orS (option_map Clusterer64.id_rationale
                      (Clusterer64.sc_impactData first)) EmptyString.
Proof.
  intros Hfa. apply cluster64_output in Hfa. destruct Hfa as (k & a & Hin & ->).
  destruct (clusterInv64_final items) as (_ & _ & Hentries).
  destruct (Hentries _ _ Hin) as (Hid & Hkey & Hitems & Hne & Htotal & Hquotes).
  unfold Clusterer64.finalizeArea.
  cbn [Clusterer64.fa_id Clusterer64.fa_title Clusterer64.fa_category
       Clusterer64.fa_items Clusterer64.fa_frequency Clusterer64.fa_avgImpact
       Clusterer64.fa_topQuote Clusterer64.fa_stakes
       Clusterer64.fa_scoreRationale].
  split; [congruence|]. split; [congruence|]. split; [reflexivity|].
  destruct (Clusterer64.area_items a) as [|first rest] eqn:Eitems;
    [now contradiction Hne|].
  split; [|split].
  - cbn [List.length Nat.ltb Nat.leb]. now rewrite Htotal.
  - rewrite Hquotes.
    now destruct (Clusterer64.quotesOf (first :: rest)) as [|[|c q] qs].
  - exists first, rest. split; [reflexivity|]. cbn [hd_error]. split; reflexivity.
Qed.

Lemma cluster64_ids_nodup (items : list Clusterer64.ScoredItem) :
  NoDup (map Clusterer64.fa_id (Clusterer64.clusterIntoFocusAreas items)).
Proof.
  unfold Clusterer64.clusterIntoFocusAreas, map_values.
  apply (Permutation_NoDup
           (Permutation_sym
              (Permutation_map Clusterer64.fa_id
                 (sort64_perm Clusterer64.fa_avgImpact _)))).
  destruct (clusterInv64_final items) as (Hnd & _ & Hentries).
  rewrite !map_map.
  rewrite (map_ext_in _ fst); [exact Hnd|].
  intros [k a] Hin. cbn. apply (Hentries _ _ Hin).
Qed.

(** C10: two items with the same category and feature area are members of
    one focus area; the members of a focus area are the input items of
    its category and feature area, in input order; its frequency is their
    number; its avgImpact is the binary64 mean of their impact scores, the
    scores added in member order from 0 and the total divided by the
    number; its topQuote is the first non-empty quote collected from
    them, its stakes and scoreRationale are those of its first member;
    the ids of the output are distinct and the output is sorted
    descending by avgImpact: no area is followed by one whose avgImpact
    minus its own is positive.  Three different sync reports with the
    scores 3.3, 2.7 and 2.1 form one area of frequency 3 and avgImpact
    2.6999999999999997 with the stakes and the rationale of the first,
    behind the area of the praise with 9.7. *)
Theorem clusterIntoFocusAreas_groups :
  (forall items : list Clusterer64.ScoredItem,
     let out := Clusterer64.clusterIntoFocusAreas items in
     (forall x y, In x items -> In y items ->
        focusCategory (Clusterer64.sc_item x)
        = focusCategory (Clusterer64.sc_item y) ->
        featureArea_of (Clusterer64.sc_item x)
        = featureArea_of (Clusterer64.sc_item y) ->
        exists fa, In fa out
                   /\ In x (Clusterer64.fa_items fa)
                   /\ In y (Clusterer64.fa_items fa))
     /\ (forall fa, In fa out ->
           (forall x, In x (Clusterer64.fa_items fa)
                      <-> In x items
                          /\ focusCategory (Clusterer64.sc_item x)
                             = Clusterer64.fa_category fa
                          /\ featureArea_of (Clusterer64.sc_item x)
                             = Clusterer64.fa_title fa)
           /\ Clusterer64.fa_items fa
              = filter
                  (fun x =>
                     String.eqb
                       (clusterKey (focusCategory (Clusterer64.sc_item x))
                          (featureArea_of (Clusterer64.sc_item x)))
                       (clusterKey (Clusterer64.fa_category fa)
                          (Clusterer64.fa_title fa)))
                  items
           /\ Clusterer64.fa_frequency fa
              = List.length (Clusterer64.fa_items fa)
           /\ Clusterer64.fa_avgImpact fa
              = (fold_left
                   (fun total x =>
                      total
                      + orNumber (option_map Clusterer64.id_score
                                    (Clusterer64.sc_impactData x)) 0)
                   (Clusterer64.fa_items fa) 0
                 / Binary64.of_Z
                     (Z.of_nat (List.length (Clusterer64.fa_items fa))))%float
           /\ Clusterer64.fa_topQuote fa
              = hd EmptyString
                  (flat_map
                     (fun x =>
                        match summary_keyQuote (Clusterer64.sc_item x) with
                        | Some (String _ _ as q) => [q]
                        | _ => []
                        end) (Clusterer64.fa_items fa))
           /\ exists first rest,
                Clusterer64.fa_items fa = first :: rest
                /\ forall d, Clusterer64.sc_impactData first = Some d ->
                     Clusterer64.fa_stakes fa = Clusterer64.id_stakes d
                     /\ Clusterer64.fa_scoreRationale fa
                        = Clusterer64.id_rationale d)
     /\ NoDup (map Clusterer64.fa_id out)
     /\ Sorted
          (fun a b =>
             PrimFloat.ltb 0
               (Clusterer64.fa_avgImpact b - Clusterer64.fa_avgImpact a)
             = false) out)
  /\ map (fun fa =>
            (Clusterer64.fa_id fa, Clusterer64.fa_items fa,
             Clusterer64.fa_frequency fa, Clusterer64.fa_avgImpact fa,
             Clusterer64.fa_topQuote fa,
             stakes_message (Clusterer64.fa_stakes fa),
             Clusterer64.fa_scoreRationale fa))
       (Clusterer64.clusterIntoFocusAreas
          [Samples64.syncLost; Samples64.editorPraise; Samples64.syncSlow;
           Samples64.syncOffline])
     = [("feature_request:Editor"%string, [Samples64.editorPraise], 1%nat,
         9.7%float, "Love the new editor"%string, "Upside: editor"%string,
         "Score reflects high visibility."%string);
        ("usability_friction:Sync"%string,
         [Samples64.syncLost; Samples64.syncSlow; Samples64.syncOffline],
         3%nat, 2.6999999999999997%float, "Sync is slow"%string,
         "Risk: lost edits"%string, "Score reflects moderate reach."%string)].
Proof.
  split; [|vm_compute; reflexivity].
  intros items out. split; [|split; [|split]].
  - intros x y Hx Hy Hc Ht.
    destruct (cluster64_member items x Hx) as (fa & Hfa & _ & Hitems & Hin).
    exists fa. split; [exact Hfa|]. split; [exact Hin|].
    rewrite Hitems. apply filter_In. split; [exact Hy|].
    apply String.eqb_eq. unfold Clusterer64.keyOfItem. now rewrite Hc, Ht.
  - intros fa Hfa.
    destruct (cluster64_area items fa Hfa)
      as (Hid & Hitems & Hfreq & Havg & Hq & first & rest & Hfirst & Hst & Hra).
    assert (Hmem : Clusterer64.fa_items fa
                   = filter
                       (fun x =>
                          String.eqb
                            (clusterKey (focusCategory (Clusterer64.sc_item x))
                               (featureArea_of (Clusterer64.sc_item x)))
                            (clusterKey (Clusterer64.fa_category fa)
                               (Clusterer64.fa_title fa)))
                       items).
    { rewrite Hitems at 1. rewrite Hid. reflexivity. }
    split; [|split; [exact Hmem|]].
    + intros x. rewrite Hmem at 1. rewrite filter_In, String.eqb_eq. split.
      * intros [Hin Hkey]. apply clusterKey_inj in Hkey. tauto.
      * intros (Hin & -> & ->). tauto.
    + split; [exact Hfreq|]. split; [exact Havg|]. split; [exact Hq|].
      exists first, rest. split; [exact Hfirst|]. intros d Hd.
      rewrite Hst, Hra, Hd. cbn [option_map]. split; [reflexivity|].
      now destruct (Clusterer64.id_rationale d).
  - apply cluster64_ids_nodup.
  - apply (sort64_sorted Clusterer64.fa_avgImpact).
Qed.

(** The theorem at two different sync reports: they share one focus area. *)
Lemma clusterIntoFocusAreas_groups_witness :
  exists fa,
    In fa (Clusterer64.clusterIntoFocusAreas
             [Samples64.syncLost; Samples64.editorPraise; Samples64.syncSlow])
    /\ In Samples64.syncLost (Clusterer64.fa_items fa)
    /\ In Samples64.syncSlow (Clusterer64.fa_items fa).
Proof.
  apply (proj1 (proj1 clusterIntoFocusAreas_groups
                  [Samples64.syncLost; Samples64.editorPraise;
                   Samples64.syncSlow])
           Samples64.syncLost Samples64.syncSlow);
    [left; reflexivity | right; right; left; reflexivity
     | reflexivity | reflexivity].
Defined.

(** C1 as stated fails: a Praise item filed under Feature Request is a
    member of a feature_request area, not of a praise area. *)
Lemma praise_checked_last_counterexample :
  ~ (forall (items : list ScoredItem) (fa : FocusArea) (x : ScoredItem),
       In fa (clusterIntoFocusAreas items) ->
       In x (fa_items fa) ->
       fa_category fa = Spec.praiseFirstCategory (sc_item x)).
Proof.
  intros H.
  set (x := asHighSignal 1 Samples.now Samples.praiseRequestItem).
  destruct (cluster_member [x] x (or_introl eq_refl))
    as (fa & Hfa & _ & Hcat & _ & _ & Hin).
  specialize (H [x] fa x Hfa Hin). rewrite Hcat in H. discriminate H.
Qed.

(** C1, amended: the category of the focus area of an item is
    feature_request when the item's category is Feature Request, else bug
    when it is Bug, else praise when the item's type is Praise, else
    usability_friction: the type is looked at after the category. *)
Theorem clusterIntoFocusAreas_category :
  forall (items : list ScoredItem) (x : ScoredItem),
    In x items ->
    (exists fa, In fa (clusterIntoFocusAreas items) /\ In x (fa_items fa))
    /\ forall fa,
         In fa (clusterIntoFocusAreas items) ->
         In x (fa_items fa) ->
         let category := item_category (sc_item x) in
         let type := item_type (sc_item x) in
         (category = "Feature Request"%string -> fa_category fa = feature_request)
         /\ (category <> "Feature Request"%string -> category = "Bug"%string ->
             fa_category fa = bug)
         /\ (category <> "Feature Request"%string -> category <> "Bug"%string ->
             type = "Praise"%string -> fa_category fa = praise)
         /\ (category <> "Feature Request"%string -> category <> "Bug"%string ->
             type <> "Praise"%string -> fa_category fa = usability_friction).
Proof.
  intros items x Hx. split.
  - destruct (cluster_member items x Hx) as (fa & Hfa & _ & _ & _ & _ & Hin).
    now exists fa.
  - intros fa Hfa Hin.
    destruct (cluster_area items fa Hfa) as (Hid & Hitems & _).
    apply (members_of_area items fa x Hid Hitems) in Hin.
    destruct Hin as (_ & Hcat & _). rewrite <- Hcat. unfold focusCategory.
    cbv zeta.
    destruct (String.eqb_spec (item_category (sc_item x)) "Feature Request");
      [repeat split; congruence|].
    destruct (String.eqb_spec (item_category (sc_item x)) "Bug");
      [repeat split; congruence|].
    destruct (String.eqb_spec (item_type (sc_item x)) "Praise");
      repeat split; congruence.
Qed.

(** The amended statement at the Praise item filed under Feature Request. *)
Lemma clusterIntoFocusAreas_category_witness :
  let x := asHighSignal 1 Samples.now Samples.praiseRequestItem in
  exists fa, In fa (clusterIntoFocusAreas [x]) /\ In x (fa_items fa)
             /\ fa_category fa = feature_request.
Proof.
  intros x.
  destruct (clusterIntoFocusAreas_category [x] x (or_introl eq_refl))
    as ((fa & Hfa & Hin) & Hcat).
  exists fa. split; [exact Hfa|]. split; [exact Hin|].
  apply (Hcat fa Hfa Hin). reflexivity.
Defined.

(** ** Trend tags of the orchestrator and of the differential engine *)

Lemma mapi_from_in {A B : Type} (f : nat -> A -> B) (l : list A) :
  forall (idx : nat) (b : B),
    In b (mapi_from f idx l) -> exists i a, In a l /\ b = f i a.
Proof.
  induction l as [|a l IH]; intros idx b; cbn; [intros []|].
  intros [<-|Hin].
  - exists idx, a. split; [now left | reflexivity].
  - destruct (IH _ _ Hin) as (i & a' & Ha & ->). exists i, a'.
    split; [now right | reflexivity].
Qed.

Lemma sameArea_key (a p : AreaRec) : sameArea a p = true -> areaKey p = areaKey a.
Proof.
  unfold sameArea, areaKey. rewrite andb_true_iff, !String.eqb_eq.
  now intros [-> ->].
Qed.


Lemma find_unique_key (a p : AreaRec) (ps : list AreaRec) :
  NoDup (map areaKey ps) ->
  In p ps ->
  sameArea a p = true ->
  JS.find (sameArea a) ps = Some p.
Proof.
  unfold JS.find. induction ps as [|q ps IH]; cbn; [intros _ []|].
  intros Hnd Hin Hsame. inversion Hnd as [|? ? Hq Hnd']; subst.
  destruct (sameArea a q) eqn:Eq.
  - destruct Hin as [->|Hin]; [reflexivity|].
    exfalso. apply Hq. apply sameArea_key in Eq. apply sameArea_key in Hsame.
    rewrite Eq, <- Hsame. now apply in_map.
  - destruct Hin as [->|Hin]; [congruence | now apply IH].
Qed.




Lemma enhanced_trend (fas : list FocusArea) (llm : list LlmArea)
  (previousSnapshot : option Synthesis) (e : EnhancedArea) :
  In e (enhanceFocusAreas fas llm previousSnapshot) ->
  ea_trend e
  = match previousSnapshot with
    | Some prev => calculateTrend (areaView (ea_focusArea e)) prev
    | None => trend_new
    end
  /\ ea_impactScore e = fa_avgImpact (ea_focusArea e).
Proof.
  unfold enhanceFocusAreas. intros Hin.
  apply mapi_from_in in Hin. destruct Hin as (idx & fa & _ & ->).
  split; reflexivity.
Qed.


(** ** Tags attached from the comparison in binary64 *)

Lemma findIssue64_absent (pm : JsMap Comparison64.AreaRec)
  (m : list (string * Comparison64.AreaRec)) (k : string)
  (P : Comparison64.Change -> bool) :
  Forall (fun e => Comparison64.areaKey (snd e) = fst e) m ->
  ~ In k (map fst m) ->
  Comparison64.findIssue k (filter P (map (Comparison64.pushed pm) m)) = None.
Proof.
  unfold Comparison64.findIssue, JS.find.
  induction m as [|e m IH]; intros Hall Hnot; cbn; [reflexivity|].
  inversion Hall as [|? ? He Hall']; subst.
  assert (IH' := IH Hall' (fun H => Hnot (or_intror H))).
  destruct (P (Comparison64.pushed pm e)); [|exact IH'].
  cbn. rewrite (proj1 (pushed_spec pm e)), He.
  destruct (String.eqb_spec (fst e) k) as [E|_]; [|exact IH'].
  exfalso. apply Hnot. now left.
Qed.

Lemma findIssue64_present (pm : JsMap Comparison64.AreaRec)
  (m : list (string * Comparison64.AreaRec)) (k : string)
  (c : Comparison64.AreaRec) (P : Comparison64.Change -> bool) :
  NoDup (map fst m) ->
  Forall (fun e => Comparison64.areaKey (snd e) = fst e) m ->
  In (k, c) m ->
  Comparison64.findIssue k (filter P (map (Comparison64.pushed pm) m))
  = if P (Comparison64.pushed pm (k, c))
    then Some (Comparison64.pushed pm (k, c)) else None.
Proof.
  induction m as [|e m IH]; intros Hnd Hall Hin; [destruct Hin|].
  inversion Hnd as [|? ? Hfresh Hnd']; subst.
  inversion Hall as [|? ? He Hall']; subst.
  destruct Hin as [->|Hin].
  - cbn [map filter]. destruct (P (Comparison64.pushed pm (k, c))).
    + unfold Comparison64.findIssue, JS.find. cbn [List.find].
      rewrite (proj1 (pushed_spec pm (k, c))). cbn in He |- *.
      now rewrite He, String.eqb_refl.
    + apply findIssue64_absent; assumption.
  - cbn [map filter].
    assert (Hne : fst e <> k).
    { intros E. apply Hfresh. rewrite E. apply in_map_iff. now exists (k, c). }
    destruct (P (Comparison64.pushed pm e)); [|now apply IH].
    unfold Comparison64.findIssue, JS.find. cbn [List.find].
    rewrite (proj1 (pushed_spec pm e)), He.
    destruct (String.eqb_spec (fst e) k) as [E|_]; [now contradiction Hne|].
    now apply IH.
Qed.

(** The entry that [attachTrendData] finds for a key, in a bucket of the
    first loop. *)
Lemma findIssue64_bucket (cur prev : list Comparison64.AreaRec) (t : ChangeType)
  (k : string) :
  t <> Resolved ->
  Comparison64.findIssue k
    (Comparison64.bucket t (Comparison64.computeChanges cur prev))
  = match map_get k (Comparison64.areaMap cur) with
    | Some c =>
        if changeType_eqb t
             (Comparison64.ch_changeType
                (Comparison64.pushed (Comparison64.areaMap prev) (k, c)))
        then Some (Comparison64.pushed (Comparison64.areaMap prev) (k, c))
        else None
    | None => None
    end.
Proof.
  intros Ht. rewrite computeChanges64_bucket.
  rewrite (filter_ext
             (fun e => changeType_eqb t Resolved
                       && negb (map_has (fst e) (Comparison64.areaMap cur)))
             (fun _ => false)), filter_false;
    [|intros e; destruct t; try reflexivity; now contradiction Ht].
  cbn [map]. rewrite app_nil_r.
  destruct (areaMap64_wf cur) as [Hnd Hall].
  destruct (map_get k (Comparison64.areaMap cur)) as [c|] eqn:E.
  - apply map_get_in in E.
    apply (findIssue64_present _ _ k c
             (fun i => changeType_eqb t (Comparison64.ch_changeType i))
             Hnd Hall E).
  - apply map_get_none in E. now apply findIssue64_absent.
Qed.

(** The tag of an area whose key is in the current map, by the entry
    pushed for the key. *)
Lemma attachOne64_found (cur prev : list Comparison64.AreaRec)
  (fa c : Comparison64.AreaRec) :
  map_get (Comparison64.areaKey fa) (Comparison64.areaMap cur) = Some c ->
  let i :=
    Comparison64.pushed (Comparison64.areaMap prev)
      (Comparison64.areaKey fa, c) in
  Comparison64.attachOne (Comparison64.computeChanges cur prev) fa
  = match Comparison64.ch_changeType i with
    | New =>
        {| Comparison64.ta_area := fa; Comparison64.ta_trend := trend_new;
           Comparison64.ta_trendDelta := Comparison64.ar_frequency fa |}
    | Improved =>
        {| Comparison64.ta_area := fa; Comparison64.ta_trend := trend_down;
           Comparison64.ta_trendDelta := Comparison64.frequencyDelta_of i |}
    | Worsened =>
        {| Comparison64.ta_area := fa; Comparison64.ta_trend := trend_up;
           Comparison64.ta_trendDelta := Comparison64.frequencyDelta_of i |}
    | _ =>
        {| Comparison64.ta_area := fa; Comparison64.ta_trend := trend_stable;
           Comparison64.ta_trendDelta := Comparison64.frequencyDelta_of i |}
    end.
Proof.
  intros Hc i. unfold Comparison64.attachOne.
  change (Comparison64.newIssues (Comparison64.computeChanges cur prev))
    with (Comparison64.bucket New (Comparison64.computeChanges cur prev)).
  change (Comparison64.improvedIssues (Comparison64.computeChanges cur prev))
    with (Comparison64.bucket Improved (Comparison64.computeChanges cur prev)).
  change (Comparison64.worsenedIssues (Comparison64.computeChanges cur prev))
    with (Comparison64.bucket Worsened (Comparison64.computeChanges cur prev)).
  change (Comparison64.stableIssues (Comparison64.computeChanges cur prev))
    with (Comparison64.bucket Stable (Comparison64.computeChanges cur prev)).
  rewrite !findIssue64_bucket by discriminate. rewrite Hc. fold i.
  pose proof (pushed_not_resolved (Comparison64.areaMap prev)
                (Comparison64.areaKey fa, c)) as Hr. fold i in Hr.
  destruct (Comparison64.ch_changeType i); try reflexivity.
  now contradiction Hr.
Qed.

Lemma attachOne64_missing (cur prev : list Comparison64.AreaRec)
  (fa : Comparison64.AreaRec) :
  map_get (Comparison64.areaKey fa) (Comparison64.areaMap cur) = None ->
  Comparison64.attachOne (Comparison64.computeChanges cur prev) fa
  = {| Comparison64.ta_area := fa; Comparison64.ta_trend := trend_stable;
       Comparison64.ta_trendDelta := 0 |}.
Proof.
  intros Hc. unfold Comparison64.attachOne.
  change (Comparison64.newIssues (Comparison64.computeChanges cur prev))
    with (Comparison64.bucket New (Comparison64.computeChanges cur prev)).
  change (Comparison64.improvedIssues (Comparison64.computeChanges cur prev))
    with (Comparison64.bucket Improved (Comparison64.computeChanges cur prev)).
  change (Comparison64.worsenedIssues (Comparison64.computeChanges cur prev))
    with (Comparison64.bucket Worsened (Comparison64.computeChanges cur prev)).
  change (Comparison64.stableIssues (Comparison64.computeChanges cur prev))
    with (Comparison64.bucket Stable (Comparison64.computeChanges cur prev)).
  rewrite !findIssue64_bucket by discriminate. now rewrite Hc.
Qed.





(** * Further properties *)

(** ** Bounds and monotonicity of the impact score *)

Lemma Qdiv10 (q : Q) : q / 10 == q * (1 # 10).
Proof. reflexivity. Qed.

Lemma round1_monotone (x y : Q) : x <= y -> round1 x <= round1 y.
Proof.
  intros H. unfold round1, JS.Math_round. rewrite !Qdiv10.
  assert (Hz : (Qfloor (x * 10 + (1 # 2)) <= Qfloor (y * 10 + (1 # 2)))%Z).
  { apply Qfloor_resp_le. lra. }
  rewrite Zle_Qle in Hz. lra.
Qed.

Lemma round1_range (x : Q) : 0 <= x -> x <= 10 -> 0 <= round1 x /\ round1 x <= 10.
Proof.
  intros Hlo Hhi.
  pose proof (round1_monotone 0 x Hlo) as H0.
  pose proof (round1_monotone x 10 Hhi) as H10.
  assert (E0 : round1 0 == 0) by reflexivity.
  assert (E10 : round1 10 == 10) by reflexivity.
  rewrite E0 in H0. rewrite E10 in H10. split; assumption.
Qed.

Lemma ageInHours_ge_1 (item : Item) (now : Z) : 1 <= ageInHours item now.
Proof. unfold ageInHours. apply Q.le_max_l. Qed.

Lemma Qdiv_monotone (a b c : Q) : 0 < c -> a <= b -> a / c <= b / c.
Proof.
  intros Hc Hab. unfold Qdiv. apply Qmult_le_compat_r; [exact Hab|].
  apply Qlt_le_weak, Qinv_lt_0_compat, Hc.
Qed.

Lemma Qdiv_nonneg (a c : Q) : 0 < c -> 0 <= a -> 0 <= a / c.
Proof.
  intros Hc Ha. pose proof (Qdiv_monotone 0 a c Hc Ha) as H.
  assert (E : 0 / c == 0) by (unfold Qdiv; ring).
  rewrite E in H. exact H.
Qed.

Lemma reach_of_le_10 (item : Item) : reach_of item <= 10.
Proof. unfold reach_of. apply Q.le_min_l. Qed.

Lemma velocity_of_le_10 (item : Item) (now : Z) : velocity_of item now <= 10.
Proof. unfold velocity_of. apply Q.le_min_l. Qed.

Lemma reach_of_nonneg (item : Item) :
  (0 <= upvotes_of item)%Z -> (0 <= comments_of item)%Z -> 0 <= reach_of item.
Proof.
  intros Hu Hc. unfold reach_of. apply Q.min_glb; [lra|].
  assert (H : (0 <= upvotes_of item + comments_of item * 2)%Z) by lia.
  rewrite Zle_Qle in H.
  apply Qdiv_nonneg; [reflexivity | exact H].
Qed.

Lemma velocity_of_nonneg (item : Item) (now : Z) :
  (0 <= upvotes_of item)%Z -> (0 <= comments_of item)%Z ->
  0 <= velocity_of item now.
Proof.
  intros Hu Hc. unfold velocity_of. apply Q.min_glb; [lra|].
  assert (H : (0 <= upvotes_of item + comments_of item)%Z) by lia.
  rewrite Zle_Qle in H.
  pose proof (ageInHours_ge_1 item now) as Hage.
  apply (Qdiv_nonneg _ (ageInHours item now)) in H; [|lra]. lra.
Qed.

(** X1: the reach and velocity sub-scores never exceed 10, and for an item
    with non-negative engagement counts and a sentiment value in [0,10] the
    impact score and its three sub-scores lie in [0,10]. *)
Theorem calculateImpactScore_range :
  forall (item : Item) (totalItems : nat) (now : Z),
    reach_of item <= 10
    /\ velocity_of item now <= 10
    /\ (wellFormedItem item ->
        let d := calculateImpactScore item totalItems now in
        0 <= id_score d /\ id_score d <= 10
        /\ 0 <= comp_value (bd_reach (id_breakdown d)) <= 10
        /\ 0 <= comp_value (bd_sentiment (id_breakdown d)) <= 10
        /\ 0 <= comp_value (bd_velocity (id_breakdown d)) <= 10).
Proof.
  intros item totalItems now.
  pose proof (reach_of_le_10 item) as Hr.
  pose proof (velocity_of_le_10 item now) as Hv.
  split; [exact Hr|]. split; [exact Hv|].
  intros (Hu & Hc & Hs0 & Hs1). cbv zeta.
  pose proof (reach_of_nonneg item Hu Hc) as Hr0.
  pose proof (velocity_of_nonneg item now Hu Hc) as Hv0.
  unfold calculateImpactScore.
  cbn [id_score id_breakdown bd_reach bd_sentiment bd_velocity comp_value].
  assert (Hsum : 0 <= reach_of item * (4 # 10) + sentiment_of item * (3 # 10)
                      + velocity_of item now * (3 # 10)
                 /\ reach_of item * (4 # 10) + sentiment_of item * (3 # 10)
                    + velocity_of item now * (3 # 10) <= 10) by lra.
  destruct Hsum as [Hlo Hhi].
  destruct (round1_range _ Hlo Hhi) as [H1 H2].
  destruct (round1_range _ Hr0 Hr) as [H3 H4].
  destruct (round1_range _ Hs0 Hs1) as [H5 H6].
  destruct (round1_range _ Hv0 Hv) as [H7 H8].
  repeat split; assumption.
Qed.

(** The theorem at the sync item. *)
Lemma calculateImpactScore_range_witness :
  0 <= id_score (calculateImpactScore Samples.syncItem 1 Samples.now)
  /\ id_score (calculateImpactScore Samples.syncItem 1 Samples.now) <= 10.
Proof.
  destruct (calculateImpactScore_range Samples.syncItem 1 Samples.now)
    as (_ & _ & H).
  assert (Hwf : wellFormedItem Samples.syncItem).
  { vm_compute. repeat split; discriminate. }
  destruct (H Hwf) as (H1 & H2 & _). split; assumption.
Defined.

(** X2: between two items that differ only by the upvote count they
    resolve to, the one with more upvotes has at least the reach, the
    velocity and the impact score of the other. *)
Theorem calculateImpactScore_monotone_upvotes :
  forall (a b : Item) (totalItems : nat) (now : Z),
    comments_of a = comments_of b ->
    sentiment_of a = sentiment_of b ->
    createdAt_of a now = createdAt_of b now ->
    (upvotes_of a <= upvotes_of b)%Z ->
    reach_of a <= reach_of b
    /\ velocity_of a now <= velocity_of b now
    /\ id_score (calculateImpactScore a totalItems now)
       <= id_score (calculateImpactScore b totalItems now).
Proof.
  intros a b totalItems now Hc Hs Ht Hu.
  assert (Hr : reach_of a <= reach_of b).
  { unfold reach_of. apply Q.min_le_compat_l. rewrite Hc.
    apply Qdiv_monotone; [reflexivity|]. rewrite <- Zle_Qle. lia. }
  assert (Hage : ageInHours a now = ageInHours b now).
  { unfold ageInHours. now rewrite Ht. }
  assert (Hv : velocity_of a now <= velocity_of b now).
  { unfold velocity_of. apply Q.min_le_compat_l. rewrite Hc, Hage.
    pose proof (ageInHours_ge_1 b now) as H1.
    apply Qmult_le_compat_r; [|discriminate].
    apply Qdiv_monotone; [lra|]. rewrite <- Zle_Qle. lia. }
  split; [exact Hr|]. split; [exact Hv|].
  unfold calculateImpactScore. cbn [id_score].
  apply round1_monotone. rewrite Hs. lra.
Qed.

(** The theorem at the sync item against a copy with no upvotes. *)
Lemma calculateImpactScore_monotone_upvotes_witness :
  id_score (calculateImpactScore
              (Samples.item "Constructive" "Usability Friction" None None
                 (Some 89%Z) (Some (Samples.now - Samples.hours 24)%Z)
                 (item_problemMetadata Samples.syncItem) None None)
              1 Samples.now)
  <= id_score (calculateImpactScore Samples.syncItem 1 Samples.now).
Proof.
  apply calculateImpactScore_monotone_upvotes;
    [reflexivity | reflexivity | reflexivity | vm_compute; discriminate].
Defined.

(** ** Bounds of the signal score *)

Lemma bothBool_all (f : bool -> bool) :
  bothBool f = true -> forall b : bool, f b = true.
Proof.
  unfold bothBool. intros H b. apply andb_true_iff in H.
  destruct b; tauto.
Qed.

Lemma calculateSignalScore_flags (item : Item) :
  exists hasProblem highImpact : bool,
    calculateSignalScore item
    = signalScoreOf
        (String.eqb (item_type item) "Constructive")
        (String.eqb (item_type item) "Praise")
        (200 <? bodyLength_of item)%nat
        (500 <? bodyLength_of item)%nat
        (10 <? upvotes_of item)%Z
        (50 <? upvotes_of item)%Z
        (100 <? upvotes_of item)%Z
        hasProblem highImpact
        (String.eqb (item_category item) "Rant/Opinion")
        (bodyLength_of item <? 50)%nat.
Proof.
  unfold calculateSignalScore, signalScoreOf.
  destruct (item_problemMetadata item) as [pm|].
  - destruct (pm_impactScore pm) as [v|].
    + exists true, (Qle_bool 7 v). reflexivity.
    + exists true, false. reflexivity.
  - exists false, false. reflexivity.
Qed.

(** X3: in binary64 arithmetic the signal score of every item lies in
    [0,1]: no sum of bonuses and penalties escapes the clamp or is not a
    number. *)
Theorem calculateSignalScore_range :
  forall item : Item,
    PrimFloat.leb 0%float (calculateSignalScore item) = true
    /\ PrimFloat.leb (calculateSignalScore item) 1%float = true.
Proof.
  intros item.
  destruct (calculateSignalScore_flags item) as (hasProblem & highImpact & ->).
  assert (Hall : signalScoresInRange = true) by (vm_compute; reflexivity).
  unfold signalScoresInRange in Hall.
  apply bothBool_all
    with (b := String.eqb (item_type item) "Constructive") in Hall.
  apply bothBool_all with (b := String.eqb (item_type item) "Praise") in Hall.
  apply bothBool_all with (b := (200 <? bodyLength_of item)%nat) in Hall.
  apply bothBool_all with (b := (500 <? bodyLength_of item)%nat) in Hall.
  apply bothBool_all with (b := (10 <? upvotes_of item)%Z) in Hall.
  apply bothBool_all with (b := (50 <? upvotes_of item)%Z) in Hall.
  apply bothBool_all with (b := (100 <? upvotes_of item)%Z) in Hall.
  apply bothBool_all with (b := hasProblem) in Hall.
  apply bothBool_all with (b := highImpact) in Hall.
  apply bothBool_all
    with (b := String.eqb (item_category item) "Rant/Opinion") in Hall.
  apply bothBool_all with (b := (bodyLength_of item <? 50)%nat) in Hall.
  apply andb_true_iff. exact Hall.
Qed.

(** ** Conservation of the items by the clusterer *)

Lemma membersOf_cons (k : string) (x : ScoredItem) (l : list ScoredItem) :
  membersOf k (x :: l)
  = if String.eqb (keyOfItem x) k then x :: membersOf k l else membersOf k l.
Proof. reflexivity. Qed.

Lemma flat_map_pointwise {A B : Type} (f g : A -> list B) (l : list A) :
  (forall a, In a l -> f a = g a) -> flat_map f l = flat_map g l.
Proof.
  induction l as [|a l IH]; intros H; cbn; [reflexivity|].
  rewrite (H a (or_introl eq_refl)), IH; [reflexivity|].
  intros b Hb. apply H. now right.
Qed.

Lemma members_add_one (x : ScoredItem) (l : list ScoredItem) (keys : list string) :
  NoDup keys ->
  In (keyOfItem x) keys ->
  Permutation (flat_map (fun k => membersOf k (x :: l)) keys)
    (x :: flat_map (fun k => membersOf k l) keys).
Proof.
  induction keys as [|k keys IH]; intros Hnd Hin; [destruct Hin|].
  inversion Hnd as [|? ? Hk Hnd']; subst. cbn [flat_map].
  rewrite membersOf_cons.
  destruct (String.eqb_spec (keyOfItem x) k) as [E|Hne].
  - cbn [app]. apply perm_skip. apply Permutation_app_head.
    rewrite (flat_map_pointwise (fun k0 => membersOf k0 (x :: l))
               (fun k0 => membersOf k0 l)); [apply Permutation_refl|].
    intros k' Hk'. rewrite membersOf_cons.
    destruct (String.eqb_spec (keyOfItem x) k') as [E'|_]; [|reflexivity].
    exfalso. apply Hk. congruence.
  - destruct Hin as [E|Hin]; [now contradiction Hne|].
    eapply perm_trans; [apply Permutation_app_head, (IH Hnd' Hin)|].
    apply Permutation_sym, Permutation_middle.
Qed.

Lemma members_partition (items : list ScoredItem) (keys : list string) :
  NoDup keys ->
  (forall x, In x items -> In (keyOfItem x) keys) ->
  Permutation (flat_map (fun k => membersOf k items) keys) items.
Proof.
  intros Hnd. induction items as [|x l IH]; intros Hcover.
  - assert (E : flat_map (fun k => membersOf k []) keys = []).
    { clear. induction keys as [|k keys IH]; cbn; auto. }
    rewrite E. apply perm_nil.
  - eapply perm_trans.
    + apply members_add_one; [exact Hnd | apply Hcover; now left].
    + apply perm_skip, IH. intros y Hy. apply Hcover. now right.
Qed.

Lemma cluster_items_perm (items : list ScoredItem) :
  Permutation (flat_map fa_items (clusterIntoFocusAreas items)) items.
Proof.
  unfold clusterIntoFocusAreas, map_values.
  eapply perm_trans.
  { apply Permutation_flat_map. apply (sort_perm fa_avgImpact). }
  destruct (clusterInv_final items) as (Hnd & Hkeys & Hentries).
  rewrite !flat_map_concat_map, !map_map, <- flat_map_concat_map.
  rewrite (flat_map_pointwise _ (fun e => membersOf (fst e) items)).
  - rewrite flat_map_concat_map, <- (map_map fst (fun k => membersOf k items)),
      <- flat_map_concat_map.
    now apply members_partition.
  - intros [k a] Hin. cbn. apply (Hentries _ _ Hin).
Qed.

Lemma cluster_frequency_sum (items : list ScoredItem) :
  list_sum (map fa_frequency (clusterIntoFocusAreas items)) = List.length items.
Proof.
  rewrite <- (Permutation_length (cluster_items_perm items)), length_flat_map.
  f_equal. apply map_ext_in. intros fa Hfa.
  apply (cluster_area items fa Hfa).
Qed.

(** X4: the clusterer loses and duplicates nothing: the members of the
    focus areas together are a permutation of the input, the frequencies
    add up to the number of input items, every focus area has a member,
    and two focus areas with a common member are the same. *)
Theorem clusterIntoFocusAreas_conserves :
  forall items : list ScoredItem,
    let out := clusterIntoFocusAreas items in
    Permutation (flat_map fa_items out) items
    /\ list_sum (map fa_frequency out) = List.length items
    /\ (forall fa, In fa out -> (1 <= fa_frequency fa)%nat)
    /\ (forall fa fb x, In fa out -> In fb out ->
          In x (fa_items fa) -> In x (fa_items fb) -> fa_id fa = fa_id fb)
    /\ (items = [] -> out = []).
Proof.
  intros items out. split; [apply cluster_items_perm|].
  split; [apply cluster_frequency_sum|]. split; [|split].
  - intros fa Hfa.
    destruct (cluster_area items fa Hfa)
      as (_ & _ & Hfreq & _ & _ & first & rest & Hitems & _).
    rewrite Hfreq, Hitems. cbn. lia.
  - intros fa fb x Hfa Hfb Hxa Hxb.
    destruct (cluster_area items fa Hfa) as (_ & Ha & _).
    destruct (cluster_area items fb Hfb) as (_ & Hb & _).
    rewrite Ha in Hxa. rewrite Hb in Hxb.
    apply filter_In in Hxa. apply filter_In in Hxb.
    destruct Hxa as [_ Hxa]. destruct Hxb as [_ Hxb].
    apply String.eqb_eq in Hxa. apply String.eqb_eq in Hxb. congruence.
  - intros ->. reflexivity.
Qed.

(** The theorem at two sync items and a Praise item. *)
Lemma clusterIntoFocusAreas_conserves_witness :
  let x := asHighSignal 3 Samples.now Samples.syncItem in
  let y := asHighSignal 3 Samples.now Samples.praiseRequestItem in
  Forall (fun fa => (1 <= fa_frequency fa)%nat) (clusterIntoFocusAreas [x; y; x]).
Proof.
  intros x y. apply Forall_forall.
  apply (proj1 (proj2 (proj2 (clusterIntoFocusAreas_conserves [x; y; x])))).
Defined.

(** ** Segments, averages and the pipeline into the clusterer *)

Lemma clusterStep_entries (areas : JsMap Area) (x : ScoredItem)
  (k : string) (a : Area) :
  NoDup (map fst areas) ->
  In (k, a) (clusterStep areas x) ->
  (k <> keyOfItem x /\ In (k, a) areas)
  \/ (k = keyOfItem x
      /\ exists a0, a = addToArea x a0
                    /\ (In (k, a0) areas
                        \/ (area_items a0 = [] /\ area_segments a0 = []))).
Proof.
  intros Hnd. unfold clusterStep. fold (keyOfItem x).
  destruct (map_get (keyOfItem x) areas) as [a1|] eqn:E.
  - intros Hin. apply (map_update_in _ _ _ _ _ Hnd) in Hin.
    destruct Hin as [[Hk Hin]|[-> (a0 & Hin & ->)]]; [now left|].
    right. split; [reflexivity|]. exists a0. split; [reflexivity | now left].
  - intros Hin. apply map_get_none in E.
    match type of Hin with
    | In _ (map_update _ _ ?m) => assert (Hnd' : NoDup (map fst m))
    end.
    { rewrite map_app. cbn.
      apply NoDup_app; [exact Hnd | repeat constructor; intros [] |].
      intros k' Hk' [<-|[]]. now apply E. }
    apply (map_update_in _ _ _ _ _ Hnd') in Hin.
    destruct Hin as [[Hk Hin]|[-> (a0 & Hin & ->)]].
    + apply in_app_or in Hin. destruct Hin as [Hin|[[= <- _]|[]]];
        [now left | now contradiction Hk].
    + right. split; [reflexivity|]. exists a0. split; [reflexivity|].
      apply in_app_or in Hin. destruct Hin as [Hin|[[= <-]|[]]];
        [now left | right; split; reflexivity].
Qed.

Lemma segmentsOf_snoc (members : list ScoredItem) (x : ScoredItem) :
  segmentsOf (members ++ [x])
  = match problem_userSegmentGuess (sc_item x) with
    | Some (String _ _ as segment) => set_add (segmentsOf members) segment
    | _ => segmentsOf members
    end.
Proof. unfold segmentsOf. now rewrite fold_left_app. Qed.

Lemma clusterLoop_segments (items : list ScoredItem) :
  forall (processed : list ScoredItem) (areas : JsMap Area),
    clusterInv processed areas ->
    (forall k a, In (k, a) areas -> area_segments a = segmentsOf (area_items a)) ->
    forall k a, In (k, a) (fold_left clusterStep items areas) ->
                area_segments a = segmentsOf (area_items a).
Proof.
  induction items as [|x items IH]; intros processed areas Hinv Hseg; cbn;
    [exact Hseg|].
  apply (IH (processed ++ [x])); [now apply clusterStep_inv|].
  intros k a Hin.
  apply clusterStep_entries in Hin; [|apply Hinv].
  destruct Hin as [[_ Hin]|[_ (a0 & -> & Ha0)]]; [now apply (Hseg k)|].
  unfold addToArea. cbn [area_segments area_items].
  rewrite segmentsOf_snoc.
  assert (E : area_segments a0 = segmentsOf (area_items a0)).
  { destruct Ha0 as [Hin|[E1 E2]]; [now apply (Hseg k)|].
    rewrite E1, E2. reflexivity. }
  now rewrite E.
Qed.

Lemma set_add_spec (s : list string) (x y : string) :
  In y (set_add s x) <-> In y s \/ y = x.
Proof.
  unfold set_add. destruct (existsb (String.eqb x) s) eqn:E.
  - split; [now left|]. intros [H| ->]; [exact H|].
    apply existsb_exists in E. destruct E as (z & Hz & Heq).
    apply String.eqb_eq in Heq. now subst.
  - rewrite in_app_iff. cbn. intuition congruence.
Qed.

Lemma set_add_nodup (s : list string) (x : string) :
  NoDup s -> NoDup (set_add s x).
Proof.
  intros Hnd. unfold set_add. destruct (existsb (String.eqb x) s) eqn:E;
    [exact Hnd|].
  apply NoDup_app; [exact Hnd | repeat constructor; intros [] |].
  intros y Hy [Hxy|[]]. subst y.
  assert (Hex : existsb (String.eqb x) s = true).
  { apply existsb_exists. exists x. split; [exact Hy | apply String.eqb_refl]. }
  congruence.
Qed.

Lemma segmentsOf_spec (members : list ScoredItem) :
  NoDup (segmentsOf members)
  /\ forall s, In s (segmentsOf members)
               <-> s <> EmptyString
                   /\ exists x, In x members
                                /\ problem_userSegmentGuess (sc_item x) = Some s.
Proof.
  induction members as [|x l IH] using rev_ind.
  - split; [constructor|]. intros s. split; [intros [] | intros (_ & x & [] & _)].
  - destruct IH as [Hnd Hin]. rewrite segmentsOf_snoc.
    destruct (problem_userSegmentGuess (sc_item x)) as [[|c g]|] eqn:E.
    + split; [exact Hnd|]. intros s. rewrite Hin. split.
      * intros (Hs & y & Hy & Hg). split; [exact Hs|]. exists y.
        split; [apply in_or_app; now left | exact Hg].
      * intros (Hs & y & Hy & Hg). split; [exact Hs|].
        apply in_app_or in Hy. destruct Hy as [Hy|[<-|[]]]; [now exists y|].
        congruence.
    + split; [now apply set_add_nodup|]. intros s.
      rewrite set_add_spec, Hin. split.
      * intros [(Hs & y & Hy & Hg)| ->].
        -- split; [exact Hs|]. exists y.
           split; [apply in_or_app; now left | exact Hg].
        -- split; [discriminate|]. exists x.
           split; [apply in_or_app; right; now left | exact E].
      * intros (Hs & y & Hy & Hg).
        apply in_app_or in Hy. destruct Hy as [Hy|[<-|[]]].
        -- left. split; [exact Hs|]. now exists y.
        -- right. congruence.
    + split; [exact Hnd|]. intros s. rewrite Hin. split.
      * intros (Hs & y & Hy & Hg). split; [exact Hs|]. exists y.
        split; [apply in_or_app; now left | exact Hg].
      * intros (Hs & y & Hy & Hg). split; [exact Hs|].
        apply in_app_or in Hy. destruct Hy as [Hy|[<-|[]]]; [now exists y|].
        congruence.
Qed.

(** X5: the affected segments of a focus area hold no segment twice, and
    they are exactly the non-empty segment guesses of its members. *)
Theorem clusterIntoFocusAreas_segments :
  forall (items : list ScoredItem) (fa : FocusArea),
    In fa (clusterIntoFocusAreas items) ->
    NoDup (fa_affectedSegments fa)
    /\ forall s, In s (fa_affectedSegments fa)
                 <-> s <> EmptyString
                     /\ exists x, In x (fa_items fa)
                                  /\ problem_userSegmentGuess (sc_item x) = Some s.
Proof.
  intros items fa Hfa. apply cluster_output in Hfa.
  destruct Hfa as (k & a & Hin & ->).
  assert (E : area_segments a = segmentsOf (area_items a)).
  { apply (clusterLoop_segments items [] [] ) with (k := k); [| |exact Hin].
    - split; [constructor|]. split; [intros x []|intros k' a' []].
    - intros k' a' []. }
  unfold finalizeArea. cbn [fa_affectedSegments fa_items]. rewrite E.
  apply segmentsOf_spec.
Qed.

(** The theorem at two sync items: one segment, Power Users. *)
Lemma clusterIntoFocusAreas_segments_witness :
  let x := asHighSignal 2 Samples.now Samples.syncItem in
  Forall (fun fa => NoDup (fa_affectedSegments fa)) (clusterIntoFocusAreas [x; x]).
Proof.
  intros x. apply Forall_forall. intros fa Hfa.
  apply (proj1 (clusterIntoFocusAreas_segments [x; x] fa Hfa)).
Defined.

Lemma mean_bounds (lo hi : Q) (scores : list Q) :
  scores <> [] ->
  (forall q, In q scores -> lo <= q /\ q <= hi) ->
  lo <= Spec.mean scores /\ Spec.mean scores <= hi.
Proof.
  intros Hne Hall. unfold Spec.mean.
  assert (Hsum : inject_Z (Z.of_nat (List.length scores)) * lo
                 <= fold_right Qplus 0 scores
                 /\ fold_right Qplus 0 scores
                    <= inject_Z (Z.of_nat (List.length scores)) * hi).
  { clear Hne. induction scores as [|q l IH].
    - change (inject_Z (Z.of_nat (@List.length Q []))) with 0.
      cbn [fold_right]. split; lra.
    - destruct IH as [IH1 IH2]; [intros r Hr; apply Hall; now right|].
      destruct (Hall q (or_introl eq_refl)) as [H1 H2].
      cbn [List.length fold_right]. rewrite Nat2Z.inj_succ, <- Z.add_1_r.
      rewrite inject_Z_plus. change (inject_Z 1) with 1. split; lra. }
  assert (Hn : 0 < inject_Z (Z.of_nat (List.length scores))).
  { destruct scores as [|q l]; [now contradiction Hne|].
    change 0 with (inject_Z 0). rewrite <- Zlt_Qlt. cbn [List.length]. lia. }
  destruct Hsum as [H1 H2]. split.
  - apply Qle_shift_div_l; [exact Hn|]. lra.
  - apply Qle_shift_div_r; [exact Hn|]. lra.
Qed.

(** ** From the signal filter to the report *)

Lemma id_score_range (item : Item) (totalItems : nat) (now : Z) :
  wellFormedItem item ->
  0 <= id_score (calculateImpactScore item totalItems now)
  /\ id_score (calculateImpactScore item totalItems now) <= 10.
Proof.
  intros (Hu & Hc & Hs0 & Hs1).
  pose proof (reach_of_le_10 item) as Hr.
  pose proof (velocity_of_le_10 item now) as Hv.
  pose proof (reach_of_nonneg item Hu Hc) as Hr0.
  pose proof (velocity_of_nonneg item now Hu Hc) as Hv0.
  unfold calculateImpactScore. cbn [id_score].
  apply round1_range; lra.
Qed.

Lemma highSignal_member (items : list Item) (now : Z) (x : ScoredItem) :
  In x (highSignal (filterSignalFromNoise items now))
  <-> exists item, In item items /\ passes item = true
                   /\ x = asHighSignal (List.length items) now item.
Proof.
  split.
  - intros Hx. apply (Permutation_in _ (highSignal_perm items now)) in Hx.
    apply in_map_iff in Hx. destruct Hx as (item & <- & Hitem).
    apply filter_In in Hitem. exists item. tauto.
  - intros (item & Hin & Hp & ->).
    apply (Permutation_in _ (Permutation_sym (highSignal_perm items now))).
    apply in_map, filter_In. tauto.
Qed.

(** X6: the focus areas of a run are built from the high-signal items
    only: every member of a focus area is an input item that passed the
    signal threshold and carries its impact data, no element of the noise
    bucket is a member, the frequencies add up to the number of
    high-signal items, and when the input items have non-negative
    engagement counts and sentiment values in [0,10] every avgImpact lies
    in [0,10]. *)
Theorem focusAreas_of_highSignal :
  forall (items : list Item) (now : Z),
    let signalData := filterSignalFromNoise items now in
    let out := clusterIntoFocusAreas (highSignal signalData) in
    (forall fa x, In fa out -> In x (fa_items fa) ->
       In (sc_item x) items
       /\ passes (sc_item x) = true
       /\ sc_impactData x
          = Some (calculateImpactScore (sc_item x) (List.length items) now)
       /\ ~ In x (noise signalData))
    /\ list_sum (map fa_frequency out) = List.length (highSignal signalData)
    /\ (list_sum (map fa_frequency out) <= List.length items)%nat
    /\ ((forall item, In item items -> wellFormedItem item) ->
        forall fa, In fa out -> 0 <= fa_avgImpact fa /\ fa_avgImpact fa <= 10).
Proof.
  intros items now signalData out.
  assert (Hmember : forall fa x, In fa out -> In x (fa_items fa) ->
            exists item, In item items /\ passes item = true
                         /\ x = asHighSignal (List.length items) now item).
  { intros fa x Hfa Hx. apply highSignal_member.
    destruct (cluster_area _ fa Hfa) as (_ & Hitems & _).
    rewrite Hitems in Hx. apply filter_In in Hx. apply Hx. }
  split; [|split; [|split]].
  - intros fa x Hfa Hx.
    destruct (Hmember fa x Hfa Hx) as (item & Hin & Hp & ->).
    cbn [asHighSignal sc_item sc_impactData].
    repeat split; auto.
    unfold signalData. rewrite noise_eq. intros Hn.
    apply in_map_iff in Hn. destruct Hn as (item' & E & _). discriminate E.
  - apply cluster_frequency_sum.
  - unfold out, signalData. rewrite cluster_frequency_sum.
    rewrite (Permutation_length (highSignal_perm items now)), length_map.
    apply filter_length_le.
  - intros Hwf fa Hfa.
    destruct (cluster_area _ fa Hfa)
      as (_ & _ & _ & Havg & _ & first & rest & Hitems & _).
    rewrite Havg. apply mean_bounds; [rewrite Hitems; discriminate|].
    intros q Hq. apply in_map_iff in Hq. destruct Hq as (x & <- & Hx).
    destruct (Hmember fa x Hfa Hx) as (item & Hin & _ & ->).
    unfold impactScore_of. cbn [asHighSignal sc_impactData].
    apply id_score_range, Hwf, Hin.
Qed.

(** The theorem at a run over a rant and two sync items. *)
Lemma focusAreas_of_highSignal_witness :
  let items := [Samples.rantItem; Samples.syncItem; Samples.syncItem] in
  Forall (fun fa => 0 <= fa_avgImpact fa /\ fa_avgImpact fa <= 10)
    (clusterIntoFocusAreas
       (highSignal (filterSignalFromNoise items Samples.now))).
Proof.
  intros items. apply Forall_forall.
  apply (proj2 (proj2 (proj2 (focusAreas_of_highSignal items Samples.now)))).
  intros item [<-|[<-|[<-|[]]]]; vm_compute; repeat split; discriminate.
Defined.

(** ** The merge of the orchestrator *)

Lemma mapi_from_nth {A B : Type} (f : nat -> A -> B) (l : list A) :
  forall idx i : nat,
    nth_error (mapi_from f idx l) i = option_map (f (idx + i)%nat) (nth_error l i).
Proof.
  induction l as [|a l IH]; intros idx i; destruct i; cbn;
    try reflexivity.
  - now rewrite Nat.add_0_r.
  - rewrite IH. now rewrite Nat.add_succ_r.
Qed.

Lemma mapi_from_map {A B C : Type} (f : nat -> A -> B) (g : B -> C)
  (h : A -> C) (l : list A) :
  (forall i a, g (f i a) = h a) ->
  forall idx, map g (mapi_from f idx l) = map h l.
Proof.
  intros H. induction l as [|a l IH]; intros idx; cbn; [reflexivity|].
  now rewrite H, IH.
Qed.

(** X7: the report keeps the ten first focus areas in their order; the
    area at index i is merged with the area the narrative collaborator
    returned at index i, or with none when it returned fewer; the impact
    score of a merged area is the computed avgImpact whatever the
    collaborator returned. *)
Theorem enhanceFocusAreas_zip :
  forall (fas : list FocusArea) (llm : list LlmArea)
         (previousSnapshot : option Synthesis),
    let report := enhanceFocusAreas fas llm previousSnapshot in
    map ea_focusArea report = firstn 10 fas
    /\ List.length report = Nat.min 10 (List.length fas)
    /\ (forall i e, nth_error report i = Some e ->
          ea_llmArea e = nth_error llm i
          /\ nth_error fas i = Some (ea_focusArea e)
          /\ ar_impactScore (enhancedView e)
             = Some (fa_avgImpact (ea_focusArea e)))
    /\ (forall i e, nth_error report i = Some e ->
          (List.length llm <= i)%nat ->
          ea_llmArea e = None
          /\ ar_title (enhancedView e) = fa_title (ea_focusArea e)
          /\ ar_frequency (enhancedView e)
             = Z.of_nat (fa_frequency (ea_focusArea e))).
Proof.
  intros fas llm previousSnapshot report.
  assert (Hmap : map ea_focusArea report = firstn 10 fas).
  { unfold report, enhanceFocusAreas.
    rewrite (mapi_from_map _ ea_focusArea (fun fa => fa)); [apply map_id|].
    reflexivity. }
  assert (Hnth : forall i e, nth_error report i = Some e ->
            ea_llmArea e = nth_error llm i
            /\ nth_error (firstn 10 fas) i = Some (ea_focusArea e)).
  { intros i e He. unfold report, enhanceFocusAreas in He.
    rewrite mapi_from_nth in He.
    destruct (nth_error (firstn 10 fas) i) as [fa|]; [|discriminate].
    cbn in He. injection He as <-. split; reflexivity. }
  split; [exact Hmap|]. split; [|split].
  - rewrite <- (length_map ea_focusArea), Hmap. apply length_firstn.
  - intros i e He. destruct (Hnth i e He) as [Hl Hf].
    split; [exact Hl|]. split.
    + rewrite nth_error_firstn in Hf.
      now destruct (i <? 10)%nat.
    + unfold enhancedView.
      assert (Hs : ea_impactScore e = fa_avgImpact (ea_focusArea e)).
      { apply nth_error_In in He. unfold report in He.
        apply (enhanced_trend _ _ _ _ He). }
      rewrite <- Hs. now destruct (ea_llmArea e).
  - intros i e He Hlen. destruct (Hnth i e He) as [Hl _].
    assert (Hnone : ea_llmArea e = None).
    { rewrite Hl. now apply nth_error_None. }
    split; [exact Hnone|]. unfold enhancedView. rewrite Hnone.
    split; reflexivity.
Qed.

(** The theorem at the report of the sync item, where the collaborator
    returned no area. *)
Lemma enhanceFocusAreas_zip_witness :
  let fas :=
    clusterIntoFocusAreas
      (highSignal (filterSignalFromNoise [Samples.syncItem] Samples.now)) in
  Forall (fun e => ea_llmArea e = None) (firstn 1 (enhanceFocusAreas fas [] None)).
Proof.
  intros fas. apply Forall_forall. intros e He.
  destruct (enhanceFocusAreas fas [] None) as [|e0 rest] eqn:E; [destruct He|].
  destruct He as [<-|[]].
  assert (H0 : nth_error (enhanceFocusAreas fas [] None) 0 = Some e0)
    by (rewrite E; reflexivity).
  apply (proj2 (proj2 (proj2 (enhanceFocusAreas_zip fas [] None))) 0%nat e0 H0).
  cbn. lia.
Defined.

(** X8: the trend tag and the trend delta of a merged area agree: a new
    area has delta 0 (snapshot without focus areas) or its own frequency;
    any other area is up iff its delta is above 2, down iff it is below
    -2 and stable iff it is between. *)
Theorem enhanceFocusAreas_trend_delta :
  forall (fas : list FocusArea) (llm : list LlmArea) (prev : Synthesis)
         (e : EnhancedArea),
    In e (enhanceFocusAreas fas llm (Some prev)) ->
    (ea_trend e = trend_new
     /\ (ea_trendDelta e = 0%Z
         \/ ea_trendDelta e = Z.of_nat (fa_frequency (ea_focusArea e))))
    \/ (ea_trend e <> trend_new
        /\ (ea_trend e = trend_up <-> (2 < ea_trendDelta e)%Z)
        /\ (ea_trend e = trend_down <-> (ea_trendDelta e < -2)%Z)
        /\ (ea_trend e = trend_stable <-> (-2 <= ea_trendDelta e <= 2)%Z)).
Proof.
  intros fas llm prev e He. unfold enhanceFocusAreas in He.
  apply mapi_from_in in He. destruct He as (idx & fa & _ & ->).
  unfold enhanceOne. cbn [ea_trend ea_trendDelta ea_focusArea].
  unfold calculateTrend, calculateTrendDelta.
  destruct (syn_focusAreas prev) as [ps|]; [|left; split; [reflexivity | now left]].
  destruct (JS.find (sameArea (areaView fa)) ps) as [p|];
    [|left; split; [reflexivity | now right]].
  right.
  destruct (2 <? ar_frequency (areaView fa) - ar_frequency p)%Z eqn:Ehi;
    [|destruct (ar_frequency (areaView fa) - ar_frequency p <? -2)%Z eqn:Elo];
    (split; [discriminate|]); (split; [|split]); (split; intros Hd);
    try discriminate Hd; try reflexivity; lia.
Qed.

(** The theorem at the report of the sync item against the calm snapshot. *)
Lemma enhanceFocusAreas_trend_delta_witness :
  let fas :=
    clusterIntoFocusAreas
      (highSignal (filterSignalFromNoise [Samples.syncItem] Samples.now)) in
  Forall (fun e => ea_trend e = trend_stable /\ ea_trendDelta e = 0%Z)
    (enhanceFocusAreas fas [] (Some Samples.calmSyncSnapshot)).
Proof.
  intros fas. apply Forall_forall. intros e He.
  pose proof (enhanceFocusAreas_trend_delta fas [] Samples.calmSyncSnapshot e He)
    as H.
  vm_compute in He. destruct He as [<-|[]].
  destruct H as [[Hn _]|(_ & _ & _ & Hs)]; [discriminate Hn|].
  split; [apply Hs; vm_compute; split; discriminate | reflexivity].
Defined.

(** ** The entries of the buckets *)

Lemma bucketsOk_empty (cm pm : JsMap AreaRec) : bucketsOk cm pm emptyChanges.
Proof. intros t i Hin. destruct t; destruct Hin. Qed.

Lemma compareStep_ok (cm pm : JsMap AreaRec) (ch : Changes)
  (e : string * AreaRec) :
  In e cm ->
  areaKey (snd e) = fst e ->
  bucketsOk cm pm ch ->
  bucketsOk cm pm (compareStep pm ch e).
Proof.
  intros He Hkey Hok. destruct e as [k c]. cbn [fst snd] in *. subst k.
  unfold compareStep. cbn [fst snd].
  destruct (map_get (areaKey c) pm) as [p|] eqn:Ep.
  - fold (freqDelta_of c p). fold (impactDelta_of c p).
    destruct ((freqDelta_of c p <? -2)%Z || Qltb (impactDelta_of c p) (-1))
      eqn:E1;
      [|destruct ((2 <? freqDelta_of c p)%Z || Qltb 1 (impactDelta_of c p))
          eqn:E2];
      intros t i Hin; destruct t;
        cbn [bucket newIssues improvedIssues worsenedIssues resolvedIssues
               stableIssues] in Hin;
        try (apply (Hok New), Hin); try (apply (Hok Improved), Hin);
        try (apply (Hok Worsened), Hin); try (apply (Hok Resolved), Hin);
        try (apply (Hok Stable), Hin);
        (apply in_app_or in Hin; destruct Hin as [Hin|[<-|[]]];
         [first [apply (Hok Improved), Hin | apply (Hok Worsened), Hin
                | apply (Hok Stable), Hin]|]);
        (split; [reflexivity|]); unfold entryOk;
        cbn [ch_changeType ch_area ch_previousFrequency ch_frequencyDelta
               ch_impactDelta ch_insight];
        (split; [exact He|]); exists p;
        (split; [exact Ep|]);
        (split; [unfold Spec.classify; rewrite E1; try rewrite E2; reflexivity|]);
        repeat (split; [reflexivity|]); split; intros H; discriminate H || reflexivity.
  - intros t i Hin; destruct t;
      cbn [bucket newIssues improvedIssues worsenedIssues resolvedIssues
             stableIssues] in Hin;
      try (apply (Hok Improved), Hin); try (apply (Hok Worsened), Hin);
      try (apply (Hok Resolved), Hin); try (apply (Hok Stable), Hin).
    apply in_app_or in Hin. destruct Hin as [Hin|[<-|[]]];
      [apply (Hok New), Hin|].
    split; [reflexivity|]. unfold entryOk.
    cbn [ch_changeType ch_area ch_previousFrequency ch_frequencyDelta
           ch_impactDelta ch_insight].
    repeat (split; [first [exact He | exact Ep | reflexivity]|]). discriminate.
Qed.

Lemma resolveStep_ok (cm pm : JsMap AreaRec) (ch : Changes)
  (e : string * AreaRec) :
  In e pm ->
  areaKey (snd e) = fst e ->
  bucketsOk cm pm ch ->
  bucketsOk cm pm (resolveStep cm ch e).
Proof.
  intros He Hkey Hok. destruct e as [k p]. cbn [fst snd] in *. subst k.
  unfold resolveStep. cbn [fst snd].
  destruct (map_has (areaKey p) cm) eqn:Ehas; cbn [negb]; [exact Hok|].
  intros t i Hin; destruct t;
    cbn [bucket newIssues improvedIssues worsenedIssues resolvedIssues
           stableIssues] in Hin;
    try (apply (Hok New), Hin); try (apply (Hok Improved), Hin);
    try (apply (Hok Worsened), Hin); try (apply (Hok Stable), Hin).
  apply in_app_or in Hin. destruct Hin as [Hin|[<-|[]]];
    [apply (Hok Resolved), Hin|].
  split; [reflexivity|]. unfold entryOk.
  cbn [ch_changeType ch_area ch_previousFrequency ch_frequencyDelta
         ch_impactDelta ch_insight].
  repeat (split; [first [exact He | exact Ehas | reflexivity]|]). discriminate.
Qed.

Lemma compareLoop_ok (cm pm : JsMap AreaRec) (l : list (string * AreaRec)) :
  (forall e, In e l -> In e cm /\ areaKey (snd e) = fst e) ->
  forall ch, bucketsOk cm pm ch -> bucketsOk cm pm (fold_left (compareStep pm) l ch).
Proof.
  induction l as [|e l IH]; intros Hl ch Hok; cbn [fold_left]; [exact Hok|].
  apply IH; [intros e' He'; apply Hl; now right|].
  destruct (Hl e (or_introl eq_refl)) as [He Hkey].
  now apply compareStep_ok.
Qed.

Lemma resolveLoop_ok (cm pm : JsMap AreaRec) (l : list (string * AreaRec)) :
  (forall e, In e l -> In e pm /\ areaKey (snd e) = fst e) ->
  forall ch, bucketsOk cm pm ch -> bucketsOk cm pm (fold_left (resolveStep cm) l ch).
Proof.
  induction l as [|e l IH]; intros Hl ch Hok; cbn [fold_left]; [exact Hok|].
  apply IH; [intros e' He'; apply Hl; now right|].
  destruct (Hl e (or_introl eq_refl)) as [He Hkey].
  now apply resolveStep_ok.
Qed.

Lemma wfMap_entry (m : JsMap AreaRec) (e : string * AreaRec) :
  wfMap m -> In e m -> In e m /\ areaKey (snd e) = fst e.
Proof.
  intros [_ Hall] He. split; [exact He|].
  rewrite Forall_forall in Hall. now apply Hall.
Qed.

Lemma computeChanges_ok (cur prev : list AreaRec) :
  bucketsOk (areaMap cur) (areaMap prev) (computeChanges cur prev).
Proof.
  unfold computeChanges.
  apply resolveLoop_ok; [intros e; apply wfMap_entry, areaMap_wf|].
  apply compareLoop_ok; [intros e; apply wfMap_entry, areaMap_wf|].
  apply bucketsOk_empty.
Qed.

(** X9: every entry of a bucket of a comparison has the change type of
    its bucket and comes from the map of its side: a new, improved,
    worsened or stable entry is an area of the current map, a resolved
    entry an area of the previous map whose key the current map lacks.
    An improved, worsened or stable entry records the frequency of the
    previous area of its key, the difference of the two frequencies and
    the binary64 difference of the two impact scores, and these
    differences satisfy the test of its bucket; new and resolved entries
    record no delta; every entry but the stable ones has an insight. *)
Theorem computeChanges_entries :
  forall (cur prev : list Comparison64.AreaRec) (t : ChangeType)
         (i : Comparison64.Change),
    In i (Comparison64.bucket t (Comparison64.computeChanges cur prev)) ->
    let key := Comparison64.areaKey (Comparison64.ch_area i) in
    Comparison64.ch_changeType i = t
    /\ match t with
       | New =>
           In (key, Comparison64.ch_area i) (Comparison64.areaMap cur)
           /\ map_get key (Comparison64.areaMap prev) = None
           /\ Comparison64.ch_previousFrequency i = None
           /\ Comparison64.ch_frequencyDelta i = None
           /\ Comparison64.ch_impactDelta i = None
           /\ Comparison64.ch_insight i <> None
       | Resolved =>
           In (key, Comparison64.ch_area i) (Comparison64.areaMap prev)
           /\ map_get key (Comparison64.areaMap cur) = None
           /\ Comparison64.ch_previousFrequency i = None
           /\ Comparison64.ch_frequencyDelta i = None
           /\ Comparison64.ch_impactDelta i = None
           /\ Comparison64.ch_insight i <> None
       | _ =>
           In (key, Comparison64.ch_area i) (Comparison64.areaMap cur)
           /\ exists p : Comparison64.AreaRec,
                map_get key (Comparison64.areaMap prev) = Some p
                /\ let freqDelta :=
                     (Comparison64.ar_frequency (Comparison64.ch_area i)
                      - Comparison64.ar_frequency p)%Z in
                   let impactDelta :=
                     (orNumber
                        (Comparison64.ar_impactScore (Comparison64.ch_area i)) 0
                      - orNumber (Comparison64.ar_impactScore p) 0)%float in
                   let improved :=
                     (freqDelta < -2)%Z
                     \/ PrimFloat.ltb impactDelta (-1) = true in
                   let worsened :=
                     (2 < freqDelta)%Z \/ PrimFloat.ltb 1 impactDelta = true in
                   Comparison64.ch_previousFrequency i
                   = Some (Comparison64.ar_frequency p)
                   /\ Comparison64.ch_frequencyDelta i = Some freqDelta
                   /\ Comparison64.ch_impactDelta i = Some impactDelta
                   /\ match t with
                      | Improved => improved
                      | Worsened => ~ improved /\ worsened
                      | _ => ~ improved /\ ~ worsened
                      end
                   /\ (Comparison64.ch_insight i = None <-> t = Stable)
       end.
Proof.
  intros cur prev t i Hin key.
  assert (Hfirst : t <> Resolved ->
            exists e, In e (Comparison64.areaMap cur)
                      /\ i = Comparison64.pushed (Comparison64.areaMap prev) e
                      /\ Comparison64.ch_changeType i = t).
  { intros Ht. now apply (firstLoop64_in cur prev t i Ht). }
  assert (Hcases :
            forall e, In e (Comparison64.areaMap cur) ->
              i = Comparison64.pushed (Comparison64.areaMap prev) e ->
              In (key, Comparison64.ch_area i) (Comparison64.areaMap cur)
              /\ fst e = key /\ snd e = Comparison64.ch_area i).
  { intros e He ->. unfold key. rewrite (proj1 (pushed_spec _ e)).
    destruct (areaMap64_entry cur e He) as [-> _]. now destruct e. }
  destruct t.
  - destruct (Hfirst ltac:(discriminate)) as (e & He & Hi & Ht).
    destruct (Hcases e He Hi) as (Hmem & Hk & Ha).
    split; [exact Ht|]. split; [exact Hmem|].
    destruct (pushed_spec (Comparison64.areaMap prev) e) as [_ Hs].
    rewrite <- Hi, Hk in Hs.
    destruct (map_get key (Comparison64.areaMap prev)) as [p|].
    + cbv zeta in Hs. destruct Hs as [Hs _]. rewrite Ht in Hs.
      match type of Hs with
      | _ = (if ?b1 then _ else if ?b2 then _ else _) =>
          destruct b1; [discriminate Hs|]; destruct b2; discriminate Hs
      end.
    + split; [reflexivity | tauto].
  - destruct (Hfirst ltac:(discriminate)) as (e & He & Hi & Ht).
    destruct (Hcases e He Hi) as (Hmem & Hk & Ha).
    split; [exact Ht|]. split; [exact Hmem|].
    destruct (pushed_spec (Comparison64.areaMap prev) e) as [_ Hs].
    rewrite <- Hi, Hk, Ha in Hs.
    destruct (map_get key (Comparison64.areaMap prev)) as [p|];
      [|destruct Hs as [Hs _]; congruence].
    exists p. split; [reflexivity|]. cbv zeta in Hs |- *.
    destruct Hs as (Hs & Hpf & Hfd & Hid & Hins).
    rewrite Ht in Hs.
    split; [exact Hpf|]. split; [exact Hfd|]. split; [exact Hid|].
    match type of Hs with
    | _ = (if ?b1 then _ else if ?b2 then _ else _) =>
        remember b1 as x1 eqn:E1; remember b2 as x2 eqn:E2
    end.
    symmetry in E1, E2.
    destruct x1; [|destruct x2; discriminate Hs].
    split.
    + apply orb_true_iff in E1. rewrite Z.ltb_lt in E1. exact E1.
    + rewrite Hins. split; [intros [H _]; discriminate | discriminate].
  - destruct (Hfirst ltac:(discriminate)) as (e & He & Hi & Ht).
    destruct (Hcases e He Hi) as (Hmem & Hk & Ha).
    split; [exact Ht|]. split; [exact Hmem|].
    destruct (pushed_spec (Comparison64.areaMap prev) e) as [_ Hs].
    rewrite <- Hi, Hk, Ha in Hs.
    destruct (map_get key (Comparison64.areaMap prev)) as [p|];
      [|destruct Hs as [Hs _]; congruence].
    exists p. split; [reflexivity|]. cbv zeta in Hs |- *.
    destruct Hs as (Hs & Hpf & Hfd & Hid & Hins).
    rewrite Ht in Hs.
    split; [exact Hpf|]. split; [exact Hfd|]. split; [exact Hid|].
    match type of Hs with
    | _ = (if ?b1 then _ else if ?b2 then _ else _) =>
        remember b1 as x1 eqn:E1; remember b2 as x2 eqn:E2
    end.
    symmetry in E1, E2.
    destruct x1; [discriminate Hs|]. destruct x2; [|discriminate Hs].
    split; [split|].
    + intros H. rewrite <- Z.ltb_lt, <- orb_true_iff in H. congruence.
    + apply orb_true_iff in E2. rewrite Z.ltb_lt in E2. exact E2.
    + rewrite Hins. split; [intros [_ H]; discriminate | discriminate].
  - change (Comparison64.bucket Resolved (Comparison64.computeChanges cur prev))
      with (Comparison64.resolvedIssues (Comparison64.computeChanges cur prev))
      in Hin.
    apply secondLoop64_in in Hin. destruct Hin as (e & He & Hh & ->).
    unfold key. cbn.
    destruct (areaMap64_entry prev e He) as [Hk _]. rewrite Hk.
    split; [reflexivity|]. split; [now destruct e|].
    split; [unfold map_has in Hh; now destruct (map_get (fst e) _)|].
    repeat split. discriminate.
  - destruct (Hfirst ltac:(discriminate)) as (e & He & Hi & Ht).
    destruct (Hcases e He Hi) as (Hmem & Hk & Ha).
    split; [exact Ht|]. split; [exact Hmem|].
    destruct (pushed_spec (Comparison64.areaMap prev) e) as [_ Hs].
    rewrite <- Hi, Hk, Ha in Hs.
    destruct (map_get key (Comparison64.areaMap prev)) as [p|];
      [|destruct Hs as [Hs _]; congruence].
    exists p. split; [reflexivity|]. cbv zeta in Hs |- *.
    destruct Hs as (Hs & Hpf & Hfd & Hid & Hins).
    rewrite Ht in Hs.
    split; [exact Hpf|]. split; [exact Hfd|]. split; [exact Hid|].
    match type of Hs with
    | _ = (if ?b1 then _ else if ?b2 then _ else _) =>
        remember b1 as x1 eqn:E1; remember b2 as x2 eqn:E2
    end.
    symmetry in E1, E2.
    destruct x1; [discriminate Hs|]. destruct x2; [discriminate Hs|].
    split; [split|].
    + intros H. rewrite <- Z.ltb_lt, <- orb_true_iff in H. congruence.
    + intros H. rewrite <- Z.ltb_lt, <- orb_true_iff in H. congruence.
    + rewrite Hins. split; [reflexivity | intros _; split; reflexivity].
Qed.

(** The theorem at the sync area of both runs. *)
Lemma computeChanges_entries_witness :
  Forall (fun i => Comparison64.ch_changeType i = Improved)
    (Comparison64.improvedIssues
       (Comparison64.computeChanges [Samples64.currentSync]
          [Samples64.previousSync])).
Proof.
  apply Forall_forall. intros i Hin.
  apply (computeChanges_entries [Samples64.currentSync] [Samples64.previousSync]
           Improved i Hin).
Defined.

(** ** Rates, directions and sentiment *)

Lemma map_set_length {V : Type} (key : string) (v : V) (m : JsMap V) :
  (List.length (map_set key v m) <= S (List.length m))%nat.
Proof.
  induction m as [|[k w] m IH]; cbn; [lia|].
  destruct (String.eqb key k); cbn; lia.
Qed.

Lemma map_of_entries_length {V : Type} (entries : list (string * V)) :
  forall m : JsMap V,
    (List.length (fold_left (fun m kv => map_set (fst kv) (snd kv) m) entries m)
     <= List.length m + List.length entries)%nat.
Proof.
  induction entries as [|e entries IH]; intros m; cbn [fold_left List.length];
    [lia|].
  specialize (IH (map_set (fst e) (snd e) m)).
  pose proof (map_set_length (fst e) (snd e) m). lia.
Qed.

Lemma areaMap_length (l : list AreaRec) :
  (List.length (areaMap l) <= List.length l)%nat.
Proof.
  unfold areaMap, map_of_entries.
  pose proof (map_of_entries_length (map (fun fa => (areaKey fa, fa)) l) []) as H.
  rewrite length_map in H. exact H.
Qed.

Lemma bucket_length_keys (b : list Change) :
  List.length (bucketKeys b) = List.length b.
Proof. apply length_map. Qed.

Lemma newIssues_length (cur prev : list AreaRec) :
  (List.length (newIssues (computeChanges cur prev)) <= List.length cur)%nat.
Proof.
  rewrite <- bucket_length_keys.
  change (newIssues (computeChanges cur prev))
    with (bucket New (computeChanges cur prev)).
  rewrite firstLoop_keys by discriminate. rewrite length_map.
  pose proof (filter_length_le
                (fun e => changeType_eqb New (bucketOfEntry (areaMap prev) e))
                (areaMap cur)).
  pose proof (areaMap_length cur). lia.
Qed.

Lemma resolvedIssues_length (cur prev : list AreaRec) :
  (List.length (resolvedIssues (computeChanges cur prev)) <= List.length prev)%nat.
Proof.
  rewrite <- bucket_length_keys, secondLoop_keys, length_map.
  pose proof (filter_length_le
                (fun e => negb (map_has (fst e) (areaMap cur))) (areaMap prev)).
  pose proof (areaMap_length prev). lia.
Qed.

Lemma percentage_range (r n : Z) :
  (0 <= r <= n)%Z ->
  (0 <= JS.Math_round (inject_Z r / inject_Z (JS.orZ (Some n) 1) * 100)
   <= 100)%Z.
Proof.
  intros Hrn. unfold JS.orZ, JS.Math_round.
  destruct (n =? 0)%Z eqn:En.
  - apply Z.eqb_eq in En. assert (r = 0)%Z by lia. subst r.
    vm_compute. split; discriminate.
  - apply Z.eqb_neq in En.
    assert (Hn : 0 < inject_Z n).
    { change 0 with (inject_Z 0). rewrite <- Zlt_Qlt. lia. }
    assert (Hr0 : 0 <= inject_Z r).
    { change 0 with (inject_Z 0). rewrite <- Zle_Qle. lia. }
    assert (Hrn' : inject_Z r <= inject_Z n).
    { rewrite <- Zle_Qle. lia. }
    assert (Hq0 : 0 <= inject_Z r / inject_Z n).
    { apply Qle_shift_div_l; [exact Hn | lra]. }
    assert (Hq1 : inject_Z r / inject_Z n <= 1).
    { apply Qle_shift_div_r; [exact Hn | lra]. }
    remember (inject_Z r / inject_Z n) as q.
    split.
    + apply (Z.le_trans _ (Qfloor 0)); [discriminate|].
      apply Qfloor_resp_le. lra.
    + apply (Z.le_trans _ (Qfloor (100 + (1 # 2)))); [|discriminate].
      apply Qfloor_resp_le. lra.
Qed.

(** X10: in the trends of a comparison the resolution rate and the
    new-issue rate are percentages between 0 and 100, also when the
    previous or the current list of focus areas is empty. *)
Theorem calculateOverallTrends_rates :
  forall (current previous : Synthesis) (cur prev : list AreaRec),
    syn_focusAreas current = Some cur ->
    syn_focusAreas previous = Some prev ->
    let t := calculateOverallTrends current previous (computeChanges cur prev) in
    (0 <= tr_resolutionRate t <= 100)%Z /\ (0 <= tr_newIssueRate t <= 100)%Z.
Proof.
  intros current previous cur prev Hc Hp t.
  unfold t, calculateOverallTrends, areaCountOrOne.
  cbn [tr_resolutionRate tr_newIssueRate]. rewrite Hc, Hp. cbn [option_map].
  split; apply percentage_range; unfold lengthZ.
  - pose proof (resolvedIssues_length cur prev). lia.
  - pose proof (newIssues_length cur prev). lia.
Qed.

(** The theorem at the sync area of both runs. *)
Lemma calculateOverallTrends_rates_witness :
  (0 <= tr_resolutionRate
          (calculateOverallTrends (Samples.snapshot [Samples.currentSync])
             (Samples.snapshot [Samples.previousSync])
             (computeChanges [Samples.currentSync] [Samples.previousSync]))
   <= 100)%Z.
Proof.
  apply (calculateOverallTrends_rates
           (Samples.snapshot [Samples.currentSync])
           (Samples.snapshot [Samples.previousSync])
           [Samples.currentSync] [Samples.previousSync] eq_refl eq_refl).
Defined.

(** X11: the volume direction is stable whenever the previous volume is
    zero or negative; for a positive previous volume it is up iff the
    current volume exceeds it by more than a tenth of it, and down iff it
    falls short of it by more than a tenth of it. *)
Theorem calculateDirection_threshold :
  forall current previous : Z,
    ((previous <= 0)%Z -> calculateDirection current previous = volume_stable)
    /\ ((0 < previous)%Z ->
        (calculateDirection current previous = volume_up
         <-> (previous < 10 * (current - previous))%Z)
        /\ (calculateDirection current previous = volume_down
            <-> (10 * (current - previous) < - previous)%Z)).
Proof.
  intros current previous. unfold calculateDirection. split.
  - intros Hp. assert (E : (0 <? previous)%Z = false) by lia. rewrite E.
    reflexivity.
  - intros Hp. assert (E : (0 <? previous)%Z = true) by lia. rewrite E.
    assert (Hq : 0 < inject_Z previous).
    { change 0 with (inject_Z 0). rewrite <- Zlt_Qlt. lia. }
    assert (Hup : 10 < inject_Z (current - previous) / inject_Z previous * 100
                  <-> (previous < 10 * (current - previous))%Z).
    { rewrite Zlt_Qlt, inject_Z_mult. change (inject_Z 10) with 10.
      split; intros H.
      - assert (H' : 10 * inject_Z previous
                     < inject_Z (current - previous) / inject_Z previous * 100
                       * inject_Z previous).
        { apply Qmult_lt_compat_r; assumption. }
        assert (E' : inject_Z (current - previous) / inject_Z previous * 100
                     * inject_Z previous
                     == 100 * inject_Z (current - previous)).
        { field. lra. }
        rewrite E' in H'. lra.
      - apply (Qmult_lt_r _ _ (inject_Z previous)); [exact Hq|].
        assert (E' : inject_Z (current - previous) / inject_Z previous * 100
                     * inject_Z previous
                     == 100 * inject_Z (current - previous)).
        { field. lra. }
        rewrite E'. lra. }
    assert (Hdown : inject_Z (current - previous) / inject_Z previous * 100 < -10
                    <-> (10 * (current - previous) < - previous)%Z).
    { rewrite Zlt_Qlt, inject_Z_mult, inject_Z_opp. change (inject_Z 10) with 10.
      assert (E' : inject_Z (current - previous) / inject_Z previous * 100
                   * inject_Z previous
                   == 100 * inject_Z (current - previous)).
      { field. lra. }
      split; intros H.
      - assert (H' : inject_Z (current - previous) / inject_Z previous * 100
                     * inject_Z previous < -10 * inject_Z previous).
        { apply Qmult_lt_compat_r; assumption. }
        rewrite E' in H'. lra.
      - apply (Qmult_lt_r _ _ (inject_Z previous)); [exact Hq|].
        rewrite E'. lra. }
    rewrite <- Hup, <- Hdown, <- !Qltb_lt.
    destruct (Qltb 10 (inject_Z (current - previous) / inject_Z previous * 100))
      eqn:E1.
    + split; split; intros H; try reflexivity; try discriminate H.
      apply Qltb_lt in E1. apply Qltb_lt in H. lra.
    + destruct (Qltb (inject_Z (current - previous) / inject_Z previous * 100)
                  (-10)) eqn:E2;
        split; split; intros H; try reflexivity; try discriminate H.
Qed.

(** The theorem at a volume that grows from 100 to 111 and at a first
    volume after none. *)
Lemma calculateDirection_threshold_witness :
  calculateDirection 111 100 = volume_up
  /\ calculateDirection 40 0 = volume_stable.
Proof.
  split.
  - apply (proj2 (calculateDirection_threshold 111 100)); lia.
  - apply (proj1 (calculateDirection_threshold 40 0)). lia.
Defined.

(** ** Monotonicity of the health score *)

(** X12: the health score never falls when the numbers of resolved and of
    improved issues grow and the numbers of worsened and of new Critical
    issues shrink, the sentiment trend being the same; stable issues and
    new issues that are not Critical do not enter it. *)
Theorem calculateHealthScore_monotone :
  forall (st : option SentimentTrend) (a b : Changes),
    (List.length (resolvedIssues a) <= List.length (resolvedIssues b))%nat ->
    (List.length (improvedIssues a) <= List.length (improvedIssues b))%nat ->
    (List.length (worsenedIssues b) <= List.length (worsenedIssues a))%nat ->
    (List.length (filter isCritical (newIssues b))
     <= List.length (filter isCritical (newIssues a)))%nat ->
    (calculateHealthScore st a <= calculateHealthScore st b)%Z.
Proof.
  intros st a b Hr Hi Hw Hc. unfold calculateHealthScore.
  rewrite !Math_round_integer. unfold lengthZ.
  destruct (option_map strend_direction st) as [[]|]; lia.
Qed.

(** The theorem at no change against a thousand resolved issues. *)
Lemma calculateHealthScore_monotone_witness :
  (calculateHealthScore None emptyChanges
   <= calculateHealthScore None Samples.manyResolved)%Z.
Proof.
  apply calculateHealthScore_monotone; cbn; lia.
Defined.

(** ** Attaching the comparison to focus areas *)

Lemma map_attach_area (ch : Changes) (fas : list AreaRec) :
  map ta_area (map (attachOne ch) fas) = fas.
Proof.
  rewrite map_map. rewrite <- (map_id fas) at 2. apply map_ext.
  intros fa. unfold attachOne.
  destruct (findIssue _ (newIssues ch)); [reflexivity|].
  destruct (findIssue _ (improvedIssues ch)); [reflexivity|].
  destruct (findIssue _ (worsenedIssues ch)); [reflexivity|].
  destruct (findIssue _ (stableIssues ch)); reflexivity.
Qed.

(** X13: the result of a comparison can always be attached: for every
    comparison that [compareSyntheses] returns, [attachTrendData] returns
    the given focus areas in their order, each with a tag; after a first
    run every tag is new with delta 0. *)
Theorem attachTrendData_after_compare :
  forall (current : Synthesis) (previous : option Synthesis) (nowIso : string)
         (cmp : Comparison) (fas : list AreaRec),
    compareSyntheses current previous nowIso = Returned cmp ->
    exists tagged : list TrendedArea,
      attachTrendData fas cmp = Returned tagged
      /\ map ta_area tagged = fas
      /\ (previous = None ->
          forall t, In t tagged -> ta_trend t = trend_new /\ ta_trendDelta t = 0%Z).
Proof.
  intros current previous nowIso cmp fas Hcmp.
  unfold compareSyntheses in Hcmp. destruct previous as [previous|].
  - destruct (syn_focusAreas current) as [cur|]; [|discriminate].
    destruct (syn_focusAreas previous) as [prev|]; [|discriminate].
    injection Hcmp as <-. unfold attachTrendData. cbn [isFirstRun changes].
    eexists. split; [reflexivity|]. split; [apply map_attach_area|].
    discriminate.
  - injection Hcmp as <-. unfold attachTrendData. cbn [isFirstRun].
    eexists. split; [reflexivity|]. split.
    + rewrite map_map. cbn. apply map_id.
    + intros _ t Ht. apply in_map_iff in Ht. destruct Ht as (fa & <- & _).
      split; reflexivity.
Qed.

(** The theorem at a first run. *)
Lemma attachTrendData_after_compare_witness :
  exists tagged,
    attachTrendData [Samples.currentSync]
      {| isFirstRun := true; comparedAt := None; previousSnapshotDate := None;
         changes := None; trends := None; summary := None |}
    = Returned tagged
    /\ map ta_area tagged = [Samples.currentSync].
Proof.
  destruct (attachTrendData_after_compare
              (Samples.snapshot [Samples.currentSync]) None "now"%string
              _ [Samples.currentSync] eq_refl)
    as (tagged & H1 & H2 & _).
  exists tagged. split; assumption.
Defined.

(** X14: [attachTrendData] tags a focus area by the entry the comparison
    pushed for its key: an area whose key is in the current map is tagged
    new with its own frequency as delta when the key has no previous
    area; otherwise, with freqDelta the difference of the frequencies of
    the current and the previous area of the key and impactDelta the
    binary64 difference of their impact scores, it is tagged down when
    freqDelta < -2 or impactDelta < -1, else up when freqDelta > 2 or
    impactDelta > 1, else stable, with freqDelta as delta.  An area whose
    key is not in the current map is tagged stable with delta 0, also
    when the key is resolved. *)
Theorem attachOne_by_bucket :
  forall (cur prev : list Comparison64.AreaRec) (fa : Comparison64.AreaRec),
    let tagged :=
      Comparison64.attachOne (Comparison64.computeChanges cur prev) fa in
    (forall c,
       map_get (Comparison64.areaKey fa) (Comparison64.areaMap cur) = Some c ->
       match map_get (Comparison64.areaKey fa) (Comparison64.areaMap prev) with
       | None =>
           Comparison64.ta_trend tagged = trend_new
           /\ Comparison64.ta_trendDelta tagged = Comparison64.ar_frequency fa
       | Some p =>
           let freqDelta :=
             (Comparison64.ar_frequency c - Comparison64.ar_frequency p)%Z in
           let impactDelta :=
             (orNumber (Comparison64.ar_impactScore c) 0
              - orNumber (Comparison64.ar_impactScore p) 0)%float in
           Comparison64.ta_trend tagged
           = (if (freqDelta <? -2)%Z || PrimFloat.ltb impactDelta (-1)
              then trend_down
              else if (2 <? freqDelta)%Z || PrimFloat.ltb 1 impactDelta
                   then trend_up
                   else trend_stable)
           /\ Comparison64.ta_trendDelta tagged = freqDelta
       end)
    /\ (~ In (Comparison64.areaKey fa) (map Comparison64.areaKey cur) ->
        Comparison64.ta_trend tagged = trend_stable
        /\ Comparison64.ta_trendDelta tagged = 0%Z).
Proof.
  intros cur prev fa tagged. unfold tagged. split.
  - intros c Hc. rewrite (attachOne64_found cur prev fa c Hc).
    destruct (pushed_spec (Comparison64.areaMap prev)
                (Comparison64.areaKey fa, c)) as [_ Hs].
    cbn [fst snd] in Hs.
    destruct (map_get (Comparison64.areaKey fa) (Comparison64.areaMap prev))
      as [p|].
    + cbv zeta in Hs |- *. destruct Hs as (Ht & _ & Hfd & _).
      rewrite Ht. unfold Comparison64.frequencyDelta_of. rewrite Hfd.
      match goal with
      | |- context [if ?b1 then Improved else if ?b2 then _ else _] =>
          destruct b1; [|destruct b2]
      end; split; reflexivity.
    + destruct Hs as (-> & _). split; reflexivity.
  - intros Hnot. rewrite <- areaMap64_keys in Hnot.
    apply map_get_none in Hnot. rewrite (attachOne64_missing cur prev fa Hnot).
    split; reflexivity.
Qed.

(** The theorem at the export area, whose impact fell from 2.2 to 1.2 at
    equal frequency: it is tagged down. *)
Lemma attachOne_by_bucket_witness :
  Comparison64.ta_trend
    (Comparison64.attachOne
       (Comparison64.computeChanges [Samples64.currentExport]
          [Samples64.previousExport]) Samples64.currentExport) = trend_down
  /\ Comparison64.ta_trendDelta
       (Comparison64.attachOne
          (Comparison64.computeChanges [Samples64.currentExport]
             [Samples64.previousExport]) Samples64.currentExport) = 0%Z.
Proof.
  apply (proj1 (attachOne_by_bucket [Samples64.currentExport]
                  [Samples64.previousExport] Samples64.currentExport)
           Samples64.currentExport eq_refl).
Defined.

(** ** Digests *)

Lemma compareSyntheses_shape (current : Synthesis) (previous : option Synthesis)
  (nowIso : string) (cmp : Comparison) :
  compareSyntheses current previous nowIso = Returned cmp ->
  (previous = None /\ isFirstRun cmp = true)
  \/ (exists prev cur ps,
        previous = Some prev
        /\ syn_focusAreas current = Some cur
        /\ syn_focusAreas prev = Some ps
        /\ isFirstRun cmp = false
        /\ changes cmp = Some (computeChanges cur ps)
        /\ trends cmp
           = Some (calculateOverallTrends current prev (computeChanges cur ps))).
Proof.
  unfold compareSyntheses. destruct previous as [prev|].
  - destruct (syn_focusAreas current) as [cur|] eqn:Ec; [|discriminate].
    destruct (syn_focusAreas prev) as [ps|] eqn:Ep; [|discriminate].
    intros [= <-]. right. exists prev, cur, ps. repeat split; auto.
  - intros [= <-]. left. split; reflexivity.
Qed.

Lemma digest_improvement (ch : Changes) (d : DigestItem) :
  In d (digestItems ch) ->
  dg_type d = improvement ->
  exists delta : Z, dg_delta d = Some delta /\ (3 <= Z.abs delta)%Z.
Proof.
  unfold digestItems. rewrite !in_app_iff, !in_map_iff.
  intros [(i & <- & _)|[(i & <- & Hi)|(i & <- & _)]] Ht; try discriminate Ht.
  apply filter_In in Hi. destruct Hi as [_ Hs]. unfold significantlyImproved in Hs.
  cbn [dg_delta]. destruct (ch_frequencyDelta i) as [delta|]; [|discriminate].
  exists delta. split; [reflexivity|]. unfold JS.Math_abs in Hs. lia.
Qed.

(** X15: [getWhatsNew] returns for every comparison that
    [compareSyntheses] returns; the digest has at most ten items; an
    improvement is listed only with a frequency delta of at least 3 in
    absolute value; after a first run the digest is the fixed first-run
    object without a health score, and otherwise its health score is the
    overall health of the comparison, except that an overall health of 0
    is reported as 50, so that it lies in [1,100]. *)
Theorem getWhatsNew_after_compare :
  forall (current : Synthesis) (previous : option Synthesis) (nowIso : string)
         (cmp : Comparison),
    compareSyntheses current previous nowIso = Returned cmp ->
    exists w : WhatsNew,
      getWhatsNew cmp = Returned w
      /\ (List.length (wn_items w) <= 10)%nat
      /\ (forall d, In d (wn_items w) -> dg_type d = improvement ->
            exists delta, dg_delta d = Some delta /\ (3 <= Z.abs delta)%Z)
      /\ (previous = None ->
          w = {| wn_headline := Some "First Analysis Run"%string;
                 wn_items := [];
                 wn_healthScore := None |})
      /\ (forall t, trends cmp = Some t ->
            exists h, wn_healthScore w = Some h
                      /\ (1 <= h <= 100)%Z
                      /\ (tr_overallHealth t <> 0%Z -> h = tr_overallHealth t)
                      /\ (tr_overallHealth t = 0%Z -> h = 50%Z)).
Proof.
  intros current previous nowIso cmp Hcmp.
  destruct (compareSyntheses_shape _ _ _ _ Hcmp)
    as [[-> Hfirst]|(prev & cur & ps & -> & Hc & Hp & Hfirst & Hch & Htr)].
  - cbn in Hcmp. injection Hcmp as <-. eexists. split; [reflexivity|].
    cbn. split; [lia|]. split; [intros d []|]. split; [reflexivity|].
    discriminate.
  - unfold getWhatsNew. rewrite Hfirst, Hch, Htr. eexists.
    split; [reflexivity|]. cbn [wn_items wn_healthScore option_map].
    split; [rewrite length_firstn; lia|]. split; [|split; [discriminate|]].
    + intros d Hd. apply (digest_improvement (computeChanges cur ps)).
      rewrite <- (firstn_skipn 10 (digestItems _)). apply in_or_app. now left.
    + intros t [= <-]. eexists. split; [reflexivity|].
      assert (Hrange : (0 <= tr_overallHealth
                               (calculateOverallTrends current prev
                                  (computeChanges cur ps)) <= 100)%Z).
      { unfold calculateOverallTrends, calculateHealthScore.
        cbn [tr_overallHealth]. lia. }
      unfold JS.orZ.
      destruct (Z.eqb_spec (tr_overallHealth
                              (calculateOverallTrends current prev
                                 (computeChanges cur ps))) 0) as [E|Hne].
      * split; [lia|]. split; [intros H; now contradiction H | reflexivity].
      * split; [lia|]. split; [reflexivity | intros H; now contradiction Hne].
Qed.

(** The theorem at the sync area of both runs: one improvement. *)
Lemma getWhatsNew_after_compare_witness :
  exists cmp w,
    compareSyntheses (Samples.snapshot [Samples.currentSync])
      (Some (Samples.snapshot [Samples.previousSync])) "now"%string
    = Returned cmp
    /\ getWhatsNew cmp = Returned w
    /\ (List.length (wn_items w) <= 10)%nat.
Proof.
  destruct (compareSyntheses_returns
              (Samples.snapshot [Samples.currentSync])
              (Samples.snapshot [Samples.previousSync]) "now"%string
              [Samples.currentSync] [Samples.previousSync] eq_refl eq_refl)
    as (cmp & Hcmp & _).
  destruct (getWhatsNew_after_compare _ _ _ cmp Hcmp) as (w & H1 & H2 & _).
  exists cmp, w. repeat split; assumption.
Defined.

(** X16: for a comparison that [compareSyntheses] returns,
    [getWhatsImproved] returns one row per improved issue, in order; every
    row records the previous frequency and the delta, its current
    frequency minus its previous frequency is its delta, and its delta is
    below -2 or its impact delta is below -1. *)
Theorem getWhatsImproved_after_compare :
  forall (current : Synthesis) (previous : option Synthesis) (nowIso : string)
         (cmp : Comparison),
    compareSyntheses current previous nowIso = Returned cmp ->
    exists rows : list ImprovedRow,
      getWhatsImproved cmp = Returned rows
      /\ (previous = None -> rows = [])
      /\ (forall ch, changes cmp = Some ch ->
            map ir_title rows
            = map (fun i => ar_title (ch_area i)) (improvedIssues ch))
      /\ forall r, In r rows ->
           exists (pf delta : Z) (idl : Q),
             ir_previousFrequency r = Some pf
             /\ ir_delta r = Some delta
             /\ ir_impactDelta r = Some idl
             /\ (ir_currentFrequency r - pf = delta)%Z
             /\ ((delta < -2)%Z \/ idl < -1).
Proof.
  intros current previous nowIso cmp Hcmp.
  destruct (compareSyntheses_shape _ _ _ _ Hcmp)
    as [[-> Hfirst]|(prev & cur & ps & -> & Hc & Hp & Hfirst & Hch & Htr)].
  - cbn in Hcmp. injection Hcmp as <-. exists []. split; [reflexivity|].
    split; [reflexivity|]. split; [discriminate | intros r []].
  - unfold getWhatsImproved. rewrite Hfirst, Hch. eexists.
    split; [reflexivity|]. split; [discriminate|]. split.
    + intros ch [= <-]. now rewrite map_map.
    + intros r Hr. apply in_map_iff in Hr. destruct Hr as (i & <- & Hi).
      cbn [ir_previousFrequency ir_delta ir_impactDelta ir_currentFrequency].
      destruct (computeChanges_ok cur ps Improved i Hi) as [Hty Hok].
      unfold entryOk in Hok. rewrite Hty in Hok.
      destruct Hok as (_ & p & _ & Hcl & H1 & H2 & H3 & _).
      exists (ar_frequency p), (freqDelta_of (ch_area i) p),
        (impactDelta_of (ch_area i) p).
      repeat (split; [assumption|]). split.
      * unfold freqDelta_of. reflexivity.
      * now apply classify_improved.
Qed.

(** The theorem at the sync area of both runs: one row. *)
Lemma getWhatsImproved_after_compare_witness :
  exists cmp rows,
    compareSyntheses (Samples.snapshot [Samples.currentSync])
      (Some (Samples.snapshot [Samples.previousSync])) "now"%string
    = Returned cmp
    /\ getWhatsImproved cmp = Returned rows
    /\ map ir_title rows = ["Sync"%string].
Proof.
  destruct (compareSyntheses_returns
              (Samples.snapshot [Samples.currentSync])
              (Samples.snapshot [Samples.previousSync]) "now"%string
              [Samples.currentSync] [Samples.previousSync] eq_refl eq_refl)
    as (cmp & Hcmp & _ & Hch & _).
  destruct (getWhatsImproved_after_compare _ _ _ cmp Hcmp)
    as (rows & H1 & _ & H3 & _).
  exists cmp, rows. split; [exact Hcmp|]. split; [exact H1|].
  rewrite (H3 _ Hch). reflexivity.
Defined.

(** ** Snapshots *)

Lemma snapshotArea_key (fa : AreaRec) : areaKey (snapshotArea fa) = areaKey fa.
Proof. reflexivity. Qed.

Lemma map_set_values {V : Type} (g : V -> V) (key : string) (v : V)
  (m : JsMap V) :
  map_set key (g v) (map (fun e => (fst e, g (snd e))) m)
  = map (fun e => (fst e, g (snd e))) (map_set key v m).
Proof.
  induction m as [|[k w] m IH]; cbn; [reflexivity|].
  destruct (String.eqb key k); cbn; [reflexivity | now rewrite IH].
Qed.

Lemma areaMap_snapshot_loop (l : list AreaRec) :
  forall m : JsMap AreaRec,
    fold_left (fun m kv => map_set (fst kv) (snd kv) m)
      (map (fun fa => (areaKey fa, fa)) (map snapshotArea l))
      (map (fun e => (fst e, snapshotArea (snd e))) m)
    = map (fun e => (fst e, snapshotArea (snd e)))
        (fold_left (fun m kv => map_set (fst kv) (snd kv) m)
           (map (fun fa => (areaKey fa, fa)) l) m).
Proof.
  induction l as [|fa l IH]; intros m; cbn [map fold_left fst snd];
    [reflexivity|].
  rewrite snapshotArea_key, (map_set_values snapshotArea), IH. reflexivity.
Qed.

Lemma areaMap_snapshot (l : list AreaRec) :
  areaMap (map snapshotArea l)
  = map (fun e => (fst e, snapshotArea (snd e))) (areaMap l).
Proof. apply (areaMap_snapshot_loop l []). Qed.

Lemma map_get_values {V : Type} (g : V -> V) (key : string) (m : JsMap V) :
  map_get key (map (fun e => (fst e, g (snd e))) m)
  = option_map g (map_get key m).
Proof.
  induction m as [|[k w] m IH]; cbn; [reflexivity|].
  destruct (String.eqb key k); [reflexivity | exact IH].
Qed.

Lemma Qltb_false (x y : Q) : ~ x < y -> Qltb x y = false.
Proof.
  intros H. destruct (Qltb x y) eqn:E; [|reflexivity].
  apply Qltb_lt in E. contradiction.
Qed.

Lemma classify_same (c : AreaRec) :
  Spec.classify (freqDelta_of c (snapshotArea c))
    (impactDelta_of c (snapshotArea c)) = Stable.
Proof.
  unfold Spec.classify, freqDelta_of, impactDelta_of, snapshotArea.
  cbn [ar_frequency ar_impactScore]. rewrite Z.sub_diag.
  set (x := JS.orQ (ar_impactScore c) 0).
  rewrite (Qltb_false (x - x) (-1)) by lra.
  rewrite (Qltb_false 1 (x - x)) by lra. reflexivity.
Qed.

Lemma self_bucket (cur : list AreaRec) (e : string * AreaRec) :
  In e (areaMap cur) ->
  bucketOfEntry (areaMap (map snapshotArea cur)) e = Stable.
Proof.
  intros He. unfold bucketOfEntry.
  rewrite areaMap_snapshot, map_get_values.
  destruct e as [k c]. cbn [fst snd].
  rewrite (map_get_nodup k (areaMap cur) c (proj1 (areaMap_wf cur)) He).
  cbn [option_map]. apply classify_same.
Qed.

Lemma filter_all {A : Type} (f : A -> bool) (l : list A) :
  (forall a, In a l -> f a = true) -> filter f l = l.
Proof.
  intros H. induction l as [|a l IH]; cbn; [reflexivity|].
  rewrite (H a (or_introl eq_refl)). f_equal. apply IH.
  intros b Hb. apply H. now right.
Qed.

Lemma bucketKeys_nil (b : list Change) : bucketKeys b = [] -> b = [].
Proof. destruct b; [reflexivity | discriminate]. Qed.

Lemma self_comparison (cur : list AreaRec) (ch : Changes) :
  ch = computeChanges cur (map snapshotArea cur) ->
  newIssues ch = [] /\ improvedIssues ch = [] /\ worsenedIssues ch = []
  /\ resolvedIssues ch = []
  /\ bucketKeys (stableIssues ch) = map fst (areaMap cur).
Proof.
  intros Hch.
  assert (Hfirst : forall t, t <> Resolved -> t <> Stable -> bucket t ch = []).
  { intros t Ht Hs. apply bucketKeys_nil. subst ch.
    rewrite (firstLoop_keys _ _ t Ht), filter_none; [reflexivity|].
    intros e He. rewrite (self_bucket cur e He). now destruct t. }
  split; [apply (Hfirst New); discriminate|].
  split; [apply (Hfirst Improved); discriminate|].
  split; [apply (Hfirst Worsened); discriminate|]. split.
  - apply bucketKeys_nil. subst ch. rewrite secondLoop_keys, filter_none;
      [reflexivity|].
    intros e He. apply negb_false_iff, map_has_true.
    rewrite areaMap_snapshot in He. apply in_map_iff in He.
    destruct He as (e0 & <- & He0). cbn [fst]. apply in_map_iff. now exists e0.
  - subst ch.
    change (stableIssues (computeChanges cur (map snapshotArea cur)))
      with (bucket Stable (computeChanges cur (map snapshotArea cur))).
    rewrite firstLoop_keys by discriminate.
    rewrite filter_all; [reflexivity|].
    intros e He. now rewrite (self_bucket cur e He).
Qed.

Lemma sentiment_same (s : option Sentiment) :
  option_map strend_direction (calculateSentimentTrend s s) = Some unchanged
  \/ option_map strend_direction (calculateSentimentTrend s s) = None.
Proof.
  destruct s as [s|]; [left | right; reflexivity].
  unfold calculateSentimentTrend. cbn [option_map strend_direction].
  set (x := st_positive s / 100).
  rewrite (Qltb_false (2 # 100) (x - x)) by lra.
  rewrite (Qltb_false (x - x) (- (2 # 100))) by lra. reflexivity.
Qed.

(** X17: a synthesis compared with a snapshot of itself shows no change:
    the snapshot is created, the comparison returns, its new, improved,
    worsened and resolved buckets are empty, every key of the synthesis is
    in the stable bucket, the overall health is 50 and the summary is the
    sentence for no significant change. *)
Theorem compare_with_own_snapshot :
  forall (synthesis : Synthesis) (companyName : string) (now : Z)
         (nowIso laterIso : string) (cur : list AreaRec),
    syn_focusAreas synthesis = Some cur ->
    exists (snap : Snapshot) (cmp : Comparison) (ch : Changes) (t : Trends),
      createSnapshot synthesis companyName now nowIso = Returned snap
      /\ compareSyntheses synthesis (Some (asPrevious snap)) laterIso
         = Returned cmp
      /\ changes cmp = Some ch
      /\ trends cmp = Some t
      /\ newIssues ch = [] /\ improvedIssues ch = [] /\ worsenedIssues ch = []
      /\ resolvedIssues ch = []
      /\ bucketKeys (stableIssues ch) = map fst (areaMap cur)
      /\ tr_overallHealth t = 50%Z
      /\ summary cmp = Some "No significant changes detected."%string.
Proof.
  intros synthesis companyName now nowIso laterIso cur Hcur.
  unfold createSnapshot. rewrite Hcur. eexists.
  unfold compareSyntheses, asPrevious. cbn [syn_focusAreas snap_focusAreas].
  rewrite Hcur. eexists. eexists. eexists.
  split; [reflexivity|]. split; [reflexivity|].
  cbn [changes trends summary snap_focusAreas snap_sentiment snap_metadata
       snap_createdAt].
  split; [reflexivity|]. split; [reflexivity|].
  destruct (self_comparison cur _ eq_refl) as (Hn & Hi & Hw & Hr & Hs).
  repeat (split; [assumption|]).
  assert (Hhealth : forall st,
            option_map strend_direction st = Some unchanged
            \/ option_map strend_direction st = None ->
            calculateHealthScore st (computeChanges cur (map snapshotArea cur))
            = 50%Z).
  { intros st Hst. unfold calculateHealthScore. rewrite Hn, Hi, Hw, Hr.
    destruct Hst as [-> | ->]; reflexivity. }
  split.
  - unfold calculateOverallTrends. cbn [tr_overallHealth syn_sentiment snap_sentiment].
    apply Hhealth, sentiment_same.
  - unfold generateChangeSummary, calculateOverallTrends.
    cbn [tr_sentiment syn_sentiment snap_sentiment].
    rewrite Hn, Hi, Hw, Hr.
    destruct (sentiment_same (syn_sentiment synthesis)) as [-> | ->]; reflexivity.
Qed.

(** The theorem at a synthesis with the sync area. *)
Lemma compare_with_own_snapshot_witness :
  exists snap cmp,
    createSnapshot (Samples.snapshot [Samples.currentSync]) "Notion" Samples.now
      "now" = Returned snap
    /\ compareSyntheses (Samples.snapshot [Samples.currentSync])
         (Some (asPrevious snap)) "later" = Returned cmp
    /\ summary cmp = Some "No significant changes detected."%string.
Proof.
  destruct (compare_with_own_snapshot
              (Samples.snapshot [Samples.currentSync]) "Notion" Samples.now
              "now" "later" [Samples.currentSync] eq_refl)
    as (snap & cmp & ch & t & H1 & H2 & H).
  exists snap, cmp. split; [exact H1|]. split; [exact H2|]. apply H.
Defined.

(** X18: against a snapshot of its own synthesis, whose keys are
    distinct, the orchestrator's trend functions tag every focus area
    stable with delta 0. *)
Theorem calculateTrend_own_snapshot :
  forall (synthesis : Synthesis) (companyName : string) (now : Z)
         (nowIso : string) (cur : list AreaRec) (snap : Snapshot) (fa : AreaRec),
    syn_focusAreas synthesis = Some cur ->
    createSnapshot synthesis companyName now nowIso = Returned snap ->
    NoDup (map areaKey cur) ->
    In fa cur ->
    calculateTrend fa (asPrevious snap) = trend_stable
    /\ calculateTrendDelta fa (asPrevious snap) = 0%Z.
Proof.
  intros synthesis companyName now nowIso cur snap fa Hcur Hsnap Hnd Hin.
  unfold createSnapshot in Hsnap. rewrite Hcur in Hsnap. injection Hsnap as <-.
  unfold calculateTrend, calculateTrendDelta, asPrevious.
  cbn [syn_focusAreas snap_focusAreas].
  rewrite (find_unique_key fa (snapshotArea fa) (map snapshotArea cur)).
  - cbn [snapshotArea ar_frequency]. rewrite Z.sub_diag. split; reflexivity.
  - rewrite map_map. exact Hnd.
  - now apply in_map.
  - unfold sameArea, snapshotArea. cbn. now rewrite !String.eqb_refl.
Qed.

(** The theorem at a synthesis with the sync area. *)
Lemma calculateTrend_own_snapshot_witness :
  exists snap,
    createSnapshot (Samples.snapshot [Samples.currentSync]) "Notion" Samples.now
      "now" = Returned snap
    /\ calculateTrend Samples.currentSync (asPrevious snap) = trend_stable
    /\ calculateTrendDelta Samples.currentSync (asPrevious snap) = 0%Z.
Proof.
  eexists. split; [reflexivity|].
  apply (calculateTrend_own_snapshot
           (Samples.snapshot [Samples.currentSync]) "Notion" Samples.now "now"
           [Samples.currentSync] _ Samples.currentSync eq_refl eq_refl).
  - constructor; [intros [] | constructor].
  - left. reflexivity.
Defined.

(** ** Comparisons with an empty side *)

Lemma areaMap_nil : areaMap [] = [].
Proof. reflexivity. Qed.

(** X19: when the previous report has no focus area, every key of the
    current report is in the new bucket and the other buckets are empty;
    when the current report has none, every key of the previous report is
    in the resolved bucket and the other buckets are empty. *)
Theorem computeChanges_empty_side :
  forall l : list AreaRec,
    (bucketKeys (newIssues (computeChanges l [])) = map fst (areaMap l)
     /\ improvedIssues (computeChanges l []) = []
     /\ worsenedIssues (computeChanges l []) = []
     /\ stableIssues (computeChanges l []) = []
     /\ resolvedIssues (computeChanges l []) = [])
    /\ (bucketKeys (resolvedIssues (computeChanges [] l)) = map fst (areaMap l)
        /\ newIssues (computeChanges [] l) = []
        /\ improvedIssues (computeChanges [] l) = []
        /\ worsenedIssues (computeChanges [] l) = []
        /\ stableIssues (computeChanges [] l) = []).
Proof.
  intros l.
  assert (Hcur : forall t, t <> Resolved ->
            bucketKeys (bucket t (computeChanges l []))
            = map fst (filter (fun _ => changeType_eqb t New) (areaMap l))).
  { intros t Ht. rewrite (firstLoop_keys _ _ t Ht). reflexivity. }
  assert (Hprev : forall t, t <> Resolved -> bucket t (computeChanges [] l) = []).
  { intros t Ht. apply bucketKeys_nil.
    rewrite (firstLoop_keys _ _ t Ht). reflexivity. }
  split; [split; [|split; [|split; [|split]]] | split; [|split; [|split; [|split]]]].
  - change (newIssues (computeChanges l []))
      with (bucket New (computeChanges l [])).
    rewrite Hcur by discriminate. now rewrite filter_all.
  - apply bucketKeys_nil.
    change (improvedIssues (computeChanges l []))
      with (bucket Improved (computeChanges l [])).
    rewrite Hcur by discriminate. now rewrite filter_none.
  - apply bucketKeys_nil.
    change (worsenedIssues (computeChanges l []))
      with (bucket Worsened (computeChanges l [])).
    rewrite Hcur by discriminate. now rewrite filter_none.
  - apply bucketKeys_nil.
    change (stableIssues (computeChanges l []))
      with (bucket Stable (computeChanges l [])).
    rewrite Hcur by discriminate. now rewrite filter_none.
  - apply bucketKeys_nil. rewrite secondLoop_keys. reflexivity.
  - rewrite secondLoop_keys. now rewrite filter_all.
  - apply (Hprev New). discriminate.
  - apply (Hprev Improved). discriminate.
  - apply (Hprev Worsened). discriminate.
  - apply (Hprev Stable). discriminate.
Qed.

(** ** Counts of a run *)

Lemma countUserType_total (u : UserTypes) (x : ScoredItem) :
  (ut_new_user (countUserType u x) + ut_power_user (countUserType u x)
   + ut_churned (countUserType u x) + ut_general (countUserType u x)
   = S (ut_new_user u + ut_power_user u + ut_churned u + ut_general u))%nat.
Proof.
  unfold countUserType. destruct (inferUserType (sc_item x)); cbn; lia.
Qed.

Lemma userSegmentation_loop (l : list ScoredItem) :
  forall u : UserTypes,
    let r := fold_left countUserType l u in
    (ut_churned r
     = ut_churned u
       + List.length
           (filter (fun x => match inferUserType (sc_item x) with
                             | churned => true | _ => false end) l)
     /\ ut_new_user r
        = ut_new_user u
          + List.length
              (filter (fun x => match inferUserType (sc_item x) with
                                | new_user => true | _ => false end) l)
     /\ ut_power_user r
        = ut_power_user u
          + List.length
              (filter (fun x => match inferUserType (sc_item x) with
                                | power_user => true | _ => false end) l)
     /\ ut_new_user r + ut_power_user r + ut_churned r + ut_general r
        = ut_new_user u + ut_power_user u + ut_churned u + ut_general u
          + List.length l)%nat.
Proof.
  induction l as [|x l IH]; intros u; cbn [fold_left filter List.length].
  - cbn. lia.
  - specialize (IH (countUserType u x)). cbn zeta in IH.
    destruct IH as (Hc & Hn & Hp & Ht).
    cbn zeta. set (r := fold_left countUserType l (countUserType u x)) in *.
    unfold countUserType in Hc, Hn, Hp, Ht.
    destruct (inferUserType (sc_item x));
      cbn [ut_churned ut_new_user ut_power_user ut_general List.length]
        in Hc, Hn, Hp, Ht |- *;
      lia.
Qed.

Lemma filter_length_le {A : Type} (p : A -> bool) (l : list A) :
  (List.length (filter p l) <= List.length l)%nat.
Proof.
  induction l as [|a l IH]; cbn; [lia|]. destruct (p a); cbn; lia.
Qed.

Lemma typeDistribution_le (l : list Item) :
  (td_constructive (typeDistribution l) + td_praise (typeDistribution l)
   + td_neutral (typeDistribution l) <= List.length l)%nat.
Proof.
  unfold typeDistribution. cbn [td_constructive td_praise td_neutral].
  induction l as [|a l IH]; [cbn; lia|]. cbn [filter List.length].
  destruct (String.eqb_spec (item_type a) "Constructive") as [E1|E1];
    destruct (String.eqb_spec (item_type a) "Praise") as [E2|E2];
    destruct (String.eqb_spec (item_type a) "Neutral") as [E3|E3];
    try (rewrite E1 in E2; discriminate);
    try (rewrite E1 in E3; discriminate);
    try (rewrite E2 in E3; discriminate);
    cbn [List.length]; lia.
Qed.

(** X20: the user-type counters of a run count each high-signal item once:
    the churned, new-user and power-user counters are the numbers of
    high-signal items of that inferred type, the four counters add up to
    the number of high-signal items, and this is at most the number of
    analysed items; the constructive, praise and neutral counts of the type
    distribution add up to at most the number of analysed items. *)
Theorem synthesizeFeedback_counts :
  forall (analyzedItems : list Item) (now : Z),
    let signalData := filterSignalFromNoise analyzedItems now in
    let userTypes := userSegmentation (highSignal signalData) in
    let distribution := typeDistribution analyzedItems in
    (ut_churned userTypes
     = List.length
         (filter (fun x => match inferUserType (sc_item x) with
                           | churned => true | _ => false end)
            (highSignal signalData))
     /\ ut_new_user userTypes
        = List.length
            (filter (fun x => match inferUserType (sc_item x) with
                              | new_user => true | _ => false end)
               (highSignal signalData))
     /\ ut_power_user userTypes
        = List.length
            (filter (fun x => match inferUserType (sc_item x) with
                              | power_user => true | _ => false end)
               (highSignal signalData))
     /\ ut_new_user userTypes + ut_power_user userTypes + ut_churned userTypes
        + ut_general userTypes
        = List.length (highSignal signalData)
     /\ List.length (highSignal signalData) <= List.length analyzedItems
     /\ td_constructive distribution + td_praise distribution
        + td_neutral distribution <= List.length analyzedItems)%nat.
Proof.
  intros analyzedItems now signalData userTypes distribution.
  destruct (userSegmentation_loop (highSignal signalData)
              {| ut_new_user := 0; ut_power_user := 0;
                 ut_churned := 0; ut_general := 0 |})
    as (Hc & Hn & Hp & Ht).
  fold (userSegmentation (highSignal signalData)) in Hc, Hn, Hp, Ht.
  fold userTypes in Hc, Hn, Hp, Ht. cbn in Hc, Hn, Hp, Ht.
  repeat (split; [assumption|]). split.
  - unfold signalData.
    rewrite (Permutation_length (highSignal_perm analyzedItems now)).
    rewrite length_map. apply filter_length_le.
  - apply typeDistribution_le.
Qed.

(** ** Raw scores *)




(** ** The rationale of a score *)

Lemma append_assoc (a b c : string) :
  String.append (String.append a b) c = String.append a (String.append b c).
Proof. induction a as [|x a IH]; cbn; [reflexivity | now rewrite IH]. Qed.

Lemma prefix_append (a b : string) : String.prefix a (String.append a b) = true.
Proof.
  induction a as [|x a IH]; cbn; [now destruct b|].
  destruct (ascii_dec x x) as [_|Hne]; [exact IH | now contradiction Hne].
Qed.

Lemma join_head (sep p : string) (rest : list string) :
  exists t, JS.join sep (p :: rest) = String.append p t.
Proof.
  destruct rest as [|q rest].
  - exists EmptyString. cbn. induction p as [|x p IH]; cbn; [reflexivity|].
    now rewrite <- IH.
  - eexists. reflexivity.
Qed.

Lemma rationale_head (p : string) (rest : list string) :
  String.prefix (String.append "Score reflects " p)
    (if (0 <? List.length (p :: rest))%nat
     then String.append "Score reflects "
            (String.append (JS.join ", " (p :: rest)) ".")
     else "Score based on standard engagement metrics."%string) = true.
Proof.
  cbn [List.length Nat.ltb Nat.leb].
  destruct (join_head ", " p rest) as [t ->].
  rewrite append_assoc, <- (append_assoc "Score reflects " p).
  apply prefix_append.
Qed.

(** X22: when the upvotes (or, without upvotes, the score) plus twice the
    comments reach 140, the rationale opens with the high-visibility part,
    and the number it quotes is [item.upvotes || 0]: the fallback
    [item.score] that the reach is computed from is not quoted. *)
Theorem generateScoreRationale_quotes_upvotes :
  forall (item : Item) (totalItems : nat) (now : Z),
    (140 <= upvotes_of item + comments_of item * 2)%Z ->
    String.prefix
      (String.append "Score reflects high visibility ("
         (String.append (JS.show (JS.orZ (item_upvotes item) 0)) " upvotes)"))
      (id_rationale (calculateImpactScore item totalItems now)) = true.
Proof.
  intros item totalItems now H.
  unfold calculateImpactScore. cbn [id_rationale].
  unfold generateScoreRationale.
  assert (Hreach : Qle_bool 7 (reach_of item) = true).
  { apply Qle_bool_iff. unfold reach_of. apply Q.min_glb; [discriminate|].
    rewrite Zle_Qle in H.
    set (k := inject_Z (upvotes_of item + comments_of item * 2)) in *.
    change (inject_Z 140) with 140 in H.
    assert (E : k / 20 == k * (1 # 20)) by reflexivity. rewrite E. lra. }
  rewrite Hreach. cbn [app].
  set (p := String.append "high visibility (" _).
  change (String.append "Score reflects high visibility ("
            (String.append (JS.show (JS.orZ (item_upvotes item) 0)) " upvotes)"))
    with (String.append "Score reflects " p).
  destruct (Qle_bool 8 (sentiment_of item)), (Qle_bool 6 (velocity_of item now)),
    (5 <? JS.orZ (item_duplicateCount item) 0)%Z;
    cbn [app]; apply rationale_head.
Qed.

(** The theorem at an item with a score of 200 and no upvotes: the
    rationale reads 0 upvotes. *)
Lemma generateScoreRationale_quotes_upvotes_witness :
  String.prefix "Score reflects high visibility (0 upvotes)"
    (id_rationale
       (calculateImpactScore
          {| item_sourceId := None; item_id := None; item_title := None;
             item_body := None; item_content := None; item_upvotes := None;
             item_score := Some 200%Z; item_numComments := None;
             item_duplicateCount := None; item_createdAt := None;
             item_type := "Neutral"; item_category := "Question";
             item_problemMetadata := None; item_delightMetadata := None;
             item_summary := None |} 1 Samples.now)) = true.
Proof.
  apply (generateScoreRationale_quotes_upvotes
           {| item_sourceId := None; item_id := None; item_title := None;
              item_body := None; item_content := None; item_upvotes := None;
              item_score := Some 200%Z; item_numComments := None;
              item_duplicateCount := None; item_createdAt := None;
              item_type := "Neutral"; item_category := "Question";
              item_problemMetadata := None; item_delightMetadata := None;
              item_summary := None |} 1 Samples.now).
  vm_compute. discriminate.
Defined.

(** ** The thresholds of the comparison in binary64 *)

Lemma upTo100_in (z : Z) : (0 <= z <= 100)%Z -> In z upTo100.
Proof.
  intros H. unfold upTo100. apply in_map_iff. exists (Z.to_nat z).
  split; [lia|]. apply in_seq. lia.
Qed.

Lemma sentimentsChecked_at (c p : Z) :
  (0 <= c <= 100)%Z -> (0 <= p <= 100)%Z -> sentimentChecked c p = true.
Proof.
  intros Hc Hp.
  assert (Hall : sentimentsChecked = true) by (vm_compute; reflexivity).
  unfold sentimentsChecked in Hall. rewrite forallb_forall in Hall.
  specialize (Hall c (upTo100_in c Hc)). rewrite forallb_forall in Hall.
  exact (Hall p (upTo100_in p Hp)).
Qed.

Lemma impactsChecked_at (k j : Z) :
  (0 <= k <= 100)%Z -> (0 <= j <= 100)%Z -> impactChecked k j = true.
Proof.
  intros Hk Hj.
  assert (Hall : impactsChecked = true) by (vm_compute; reflexivity).
  unfold impactsChecked in Hall. rewrite forallb_forall in Hall.
  specialize (Hall k (upTo100_in k Hk)). rewrite forallb_forall in Hall.
  exact (Hall j (upTo100_in j Hj)).
Qed.

(** X23: in binary64, for positive shares that are whole percentages from
    0 to 100, the sentiment direction is improving whenever the share grew
    by 3 points or more, declining whenever it fell by 3 points or more
    and stable whenever it moved by at most 1 point, and the delta is the
    difference of the shares; a move of exactly 2 points is improving from
    50 to 52 and stable from 0 to 2, although 0.02 is not above 0.02. *)
Theorem sentimentDirection_binary64 :
  forall c p : Z,
    (0 <= c <= 100)%Z -> (0 <= p <= 100)%Z ->
    let direction :=
      Differential64.sentimentDirection (Binary64.of_Z c) (Binary64.of_Z p) in
    ((3 <= c - p)%Z -> direction = improving)
    /\ ((c - p <= -3)%Z -> direction = declining)
    /\ ((-1 <= c - p <= 1)%Z -> direction = unchanged)
    /\ (direction = improving -> (2 <= c - p)%Z)
    /\ (direction = declining -> (c - p <= -2)%Z)
    /\ PrimFloat.eqb
         (Differential64.sentimentDelta (Binary64.of_Z c) (Binary64.of_Z p))
         (Binary64.of_Z (c - p)) = true
    /\ Differential64.sentimentDirection (Binary64.of_Z 52) (Binary64.of_Z 50)
       = improving
    /\ Differential64.sentimentDirection (Binary64.of_Z 2) (Binary64.of_Z 0)
       = unchanged.
Proof.
  intros c p Hc Hp direction.
  pose proof (sentimentsChecked_at c p Hc Hp) as H.
  unfold sentimentChecked in H. fold direction in H.
  apply andb_true_iff in H. destruct H as [Hd He].
  destruct direction;
    [apply Z.leb_le in Hd | apply Z.leb_le in Hd
     | apply andb_true_iff in Hd; destruct Hd as [Hlo Hhi];
       apply Z.leb_le in Hlo; apply Z.leb_le in Hhi];
    repeat split; try (intros; reflexivity); try (intros; lia);
    try (intros; discriminate); try exact He;
    vm_compute; reflexivity.
Qed.

(** The theorem at a share that grew from 50 to 60. *)
Lemma sentimentDirection_binary64_witness :
  Differential64.sentimentDirection (Binary64.of_Z 60) (Binary64.of_Z 50)
  = improving.
Proof.
  destruct (sentimentDirection_binary64 60 50) as (H & _); [lia | lia |].
  apply H. lia.
Defined.

(** X24: in binary64, for impact scores with one decimal from 0 to 10, the
    test [impactDelta < -1] of the comparison holds whenever the score
    fell by 1.1 or more and fails whenever it fell by 0.9 or less, and the
    test [impactDelta > 1] likewise; a fall of exactly 1.0 passes the test
    from 2.2 to 1.2 and fails it from 2.0 to 1.0, and a rise of exactly 1.0
    passes from 1.2 to 2.2 and fails from 1.0 to 2.0. *)
Theorem impactDelta_binary64 :
  forall k j : Z,
    (0 <= k <= 100)%Z -> (0 <= j <= 100)%Z ->
    let currentScore := Binary64.of_Q (k # 10) in
    let previousScore := Binary64.of_Q (j # 10) in
    ((k - j <= -11)%Z ->
     Differential64.impactImproved currentScore previousScore = true)
    /\ ((-9 <= k - j)%Z ->
        Differential64.impactImproved currentScore previousScore = false)
    /\ ((11 <= k - j)%Z ->
        Differential64.impactWorsened currentScore previousScore = true)
    /\ ((k - j <= 9)%Z ->
        Differential64.impactWorsened currentScore previousScore = false)
    /\ Differential64.impactImproved
         (Binary64.of_Q (12 # 10)) (Binary64.of_Q (22 # 10)) = true
    /\ Differential64.impactImproved
         (Binary64.of_Q (10 # 10)) (Binary64.of_Q (20 # 10)) = false
    /\ Differential64.impactWorsened
         (Binary64.of_Q (22 # 10)) (Binary64.of_Q (12 # 10)) = true
    /\ Differential64.impactWorsened
         (Binary64.of_Q (20 # 10)) (Binary64.of_Q (10 # 10)) = false.
Proof.
  intros k j Hk Hj currentScore previousScore.
  pose proof (impactsChecked_at k j Hk Hj) as H.
  unfold impactChecked in H. fold currentScore previousScore in H.
  apply andb_true_iff in H. destruct H as [Hi Hw].
  destruct (Differential64.impactImproved currentScore previousScore);
    destruct (Differential64.impactWorsened currentScore previousScore);
    apply Z.leb_le in Hi; apply Z.leb_le in Hw;
    repeat split; try (intros; reflexivity); try (intros; lia);
    vm_compute; reflexivity.
Qed.

(** The theorem at a score that fell from 7.5 to 6.0. *)
Lemma impactDelta_binary64_witness :
  Differential64.impactImproved (Binary64.of_Q (60 # 10))
    (Binary64.of_Q (75 # 10)) = true.
Proof.
  destruct (impactDelta_binary64 60 75) as (H & _); [lia | lia |].
  apply H. lia.
Defined.
